(** * interview_buddy: the live interview session and the report generator

    A shallow embedding of the parts of the repository that carry its
    behaviour:

    - [Js]: the JavaScript string operations the code relies on
      ([||] on strings, [indexOf], [lastIndexOf], [substring], and the two
      regular-expression replacements of the report generator);
    - [Report]: the two revisions of [generateReport]
      (src/unnamed/part_009 and src/App.tsx), each in two parts, before
      and after its [await], and what the page renders of the result;
    - [LiveInterview]: the session component in its two revisions
      (src/unnamed/part_003 and src/components/LiveInterview.tsx), as an
      event-driven state machine over the component's state cells, refs,
      the session promise and the socket;
    - [Trace]: observations on the runs of that machine;
    - [Startup]: [initializeSession] of part_003, up to the call of
      [ai.live.connect], with its [catch];
    - [Editor], [Canvas], [Timer], [RunCode]: the key handler of the code
      editor, the painting of the video frame, the clock, and
      [handleRunCode];
    - [Component]: the session machine together with the click on Run
      Code and the second part of [handleRunCode], in one event loop;
    - [App]: the handlers of the top-level component of part_009 around
      the two parts of [generateReport].

    Conventions.  A JavaScript string is a sequence of UTF-16 code units;
    the model covers strings whose code units are below 256 and writes one
    [ascii] per code unit.  Times of the 24 kHz output [AudioContext]
    ([currentTime], [AudioBuffer.duration]) are counted in sample frames,
    where both are whole numbers; they are integers of [Z], and the
    rounding of the seconds held in doubles is left out.  Each callback
    runs to completion before the next one starts (the browser's event
    loop); a [.then] on a settled promise is run at once, which is where
    its microtask runs with respect to the other callbacks, and so is what
    follows the [await decodeAudioData(...)] of the message handler, the
    helper being one that computes without waiting.  What the helpers of
    utils/audioUtils and the canvas compute (encoded buffers, levels,
    decoded durations) comes with the events.  The session machine
    [LiveInterview.step] has the callbacks of the session only; the code
    editor and the simulated compiler ([handleRunCode]) are modelled beside
    it, and [Component.step] runs the two together.  Of the cells of the
    session [handleRunCode] writes [transcriptRef] and [rightPanelTab]
    only.  A function that awaits a call of the model ([handleRunCode],
    [generateReport]) is modelled in two parts, split at that [await]:
    the second part runs on the state of the moment the call settles.
    The markup is left out. *)

From Stdlib Require Import ZArith List String Ascii Bool Lia QArith.
From Stdlib Require DecimalString DecimalNat.
Import ListNotations.

Local Close Scope Q_scope.
Local Open Scope string_scope.

(* ===================================================================== *)
(** ** JavaScript strings *)
(* ===================================================================== *)

Module Js.

(** [ToBoolean] on a string: only the empty string is falsy. *)
Definition truthy (s : string) : bool :=
  match s with
  | EmptyString => false
  | String _ _ => true
  end.

(** [ToBoolean] on a value that is a string or [undefined]. *)
Definition truthy_opt (x : option string) : bool :=
  match x with
  | Some s => truthy s
  | None => false
  end.

(** [x || d] where [x] is a string or [undefined]. *)
Definition or_else (x : option string) (d : string) : string :=
  match x with
  | Some s => if truthy s then s else d
  | None => d
  end.

(** [s.indexOf(c)] for a one-character [c]; [None] stands for [-1]. *)
Fixpoint indexOf (c : ascii) (s : string) : option nat :=
  match s with
  | EmptyString => None
  | String a r =>
      if Ascii.eqb a c then Some 0
      else match indexOf c r with
           | Some i => Some (S i)
           | None => None
           end
  end.

(** [s.lastIndexOf(c)] for a one-character [c]; [None] stands for [-1]. *)
Fixpoint lastIndexOf (c : ascii) (s : string) : option nat :=
  match s with
  | EmptyString => None
  | String a r =>
      match lastIndexOf c r with
      | Some i => Some (S i)
      | None => if Ascii.eqb a c then Some 0 else None
      end
  end.

(** [s.substring(a, b)]: both indices are clamped to the length and
    swapped when [a > b]. *)
Definition substring (s : string) (a b : nat) : string :=
  let len := String.length s in
  let a' := Nat.min a len in
  let b' := Nat.min b len in
  let lo := Nat.min a' b' in
  let hi := Nat.max a' b' in
  String.substring lo (hi - lo) s.

(** The class [\s] on code units below 256: TAB, LF, VT, FF, CR, SPACE
    and NO-BREAK SPACE. *)
Definition is_space (c : ascii) : bool :=
  let n := nat_of_ascii c in
  (Nat.eqb n 9 || Nat.eqb n 10 || Nat.eqb n 11 || Nat.eqb n 12
   || Nat.eqb n 13 || Nat.eqb n 32 || Nat.eqb n 160)%bool.

Fixpoint all_space (s : string) : bool :=
  match s with
  | EmptyString => true
  | String c r => is_space c && all_space r
  end.

Fixpoint drop (n : nat) (s : string) : string :=
  match n, s with
  | 0, _ => s
  | S _, EmptyString => EmptyString
  | S k, String _ r => drop k r
  end.

(** Scanner state of a global replacement by the empty string: copying,
    inside the literal part of a match ([n] more code units to drop),
    or in the [\s*] tail of a match. *)
Inductive scan := Copy | Literal (n : nat) | Spaces.

(** [s.replace(/```json\s*/g, '')]: every occurrence of the literal,
    leftmost first, goes together with the white space after it. *)
Fixpoint replace_json_fence (m : scan) (s : string) : string :=
  match s with
  | EmptyString => EmptyString
  | String c r =>
      match m with
      | Literal (S (S k)) => replace_json_fence (Literal (S k)) r
      | Literal _ => replace_json_fence Spaces r
      | _ =>
          if (match m with Spaces => is_space c | _ => false end)
          then replace_json_fence Spaces r
          else if String.prefix "```json" s
               then replace_json_fence (Literal 6) r
               else String c (replace_json_fence Copy r)
      end
  end.

(** [s.replace(/```\s*$/g, '')]: without the [m] flag [$] is the end of
    the input, so the leftmost fence followed by white space only, up to
    the end, goes with everything after it. *)
Fixpoint replace_closing_fence (s : string) : string :=
  match s with
  | EmptyString => EmptyString
  | String c r =>
      if String.prefix "```" s && all_space (drop 3 s)
      then EmptyString
      else String c (replace_closing_fence r)
  end.

(** [s.includes(t)]. *)
Definition includes (s t : string) : bool :=
  match String.index 0 t s with
  | Some _ => true
  | None => false
  end.

End Js.

(* ===================================================================== *)
(** ** Exceptions *)
(* ===================================================================== *)

Module Exn.

(** A thrown value: an [Error] with its message, or anything else. *)
Inductive thrown := ErrorObject (message : string) | OtherValue.

(** The outcome of a block of statements. *)
Inductive completion (A : Type) :=
| Normal (a : A)
| Throw (e : thrown).
Arguments Normal {A} a.
Arguments Throw {A} e.

Definition bind {A B} (c : completion A) (k : A -> completion B)
  : completion B :=
  match c with
  | Normal a => k a
  | Throw e => Throw e
  end.

(** [try { body } catch (e) { handler(e) }] *)
Definition try_catch {A} (body : completion A) (handler : thrown -> completion A)
  : completion A :=
  match body with
  | Normal a => Normal a
  | Throw e => handler e
  end.

End Exn.

(* ===================================================================== *)
(** ** The report generator: [generateReport] *)
(* ===================================================================== *)

(** What is common to the two revisions of the top-level component. *)
Module Report.

Import Exn.

Inductive AppState :=
  HOME | SETUP | INTERVIEW | ANALYZING | REPORT | ABOUT | CONTACT.

(** The two revisions of the top-level component. *)
Inductive Version :=
| part_009        (* src/unnamed/part_009 *)
| App_tsx.        (* src/App.tsx *)

(** [await ai.models.generateContent(...)]: the call resolves to a response
    whose [text] may be undefined, or rejects. *)
Inductive generateContent :=
| Resolves (text : option string)
| Rejects (e : thrown).

Section WithParser.

(** [JSON.parse] is the engine's; its result is cast to [EvaluationReport]
    unchecked, so it is any JavaScript value.  [None] stands for the
    [SyntaxError] it throws.  [ToBoolean] is the truthiness of the parsed
    value, which is what [report && ...] tests: [null], [0], [false] and
    the empty string parse without an error and are falsy. *)
Variable EvaluationReport : Type.
Variable JSON_parse : string -> option EvaluationReport.
Variable ToBoolean : EvaluationReport -> bool.

(** [report s = None] is the [null] the cell starts with; [Some r] is the
    value [setReport] was given, truthy or not. *)
Record State := {
  appState : AppState;
  profile : bool;                          (* profile !== null *)
  report : option EvaluationReport;
  generationError : option string          (* part_009 only *)
}.

Definition setAppState (a : AppState) (s : State) : State :=
  {| appState := a; profile := profile s; report := report s;
     generationError := generationError s |}.

Definition setReport (r : EvaluationReport) (s : State) : State :=
  {| appState := appState s; profile := profile s; report := Some r;
     generationError := generationError s |}.

Definition setGenerationError (e : option string) (s : State) : State :=
  {| appState := appState s; profile := profile s; report := report s;
     generationError := e |}.

(** What the [main] element renders for the states that concern the
    report; [Blank] is a [main] with nothing in it. *)
Inductive Screen :=
| ReportGenerationFailed (message : string)   (* with a Return to Setup button *)
| GeneratingSpinner
| ReportView (r : EvaluationReport)
| SetupForm
| Blank
| OtherScreen.

(** part_009, lines 236-271 (src/App.tsx, lines 191-208, where
    [generationError] does not exist and stays [None]). *)
Definition render (s : State) : Screen :=
  match appState s with
  | ANALYZING =>
      match generationError s with
      | Some m => if Js.truthy m then ReportGenerationFailed m else GeneratingSpinner
      | None => GeneratingSpinner
      end
  | REPORT =>                              (* appState === REPORT && report && ... *)
      match report s with
      | Some r => if ToBoolean r then ReportView r else Blank
      | None => Blank
      end
  | SETUP => SetupForm
  | _ => OtherScreen
  end.

(** The [onClick] of the Return to Setup button. *)
Definition returnToSetup (s : State) : State := setAppState SETUP s.

(** part_009, lines 169-175: the cleaning of the response text. *)
Definition cleanJsonText (jsonText : string) : string :=
  let jsonText :=
    Js.replace_closing_fence (Js.replace_json_fence Js.Copy jsonText) in
  let firstBrace := Js.indexOf "{" jsonText in
  let lastBrace := Js.lastIndexOf "}" jsonText in
  match firstBrace, lastBrace with
  | Some f, Some l => Js.substring jsonText f (l + 1)
  | _, _ => jsonText
  end.

Definition apiKeyMissing : string :=
  "API Key is missing. Please ensure 'API_KEY' is set in your .env file or deployment environment variables.".
Definition emptyResponse : string :=
  "The AI model returned an empty response. This might be due to safety filters or connection issues.".
Definition parseFailed : string :=
  "Failed to parse the report data. The AI response was not valid JSON.".

(** [error instanceof Error ? error.message : "An unexpected error
    occurred."] *)
Definition messageOf (error : thrown) : string :=
  match error with
  | ErrorObject m => m
  | OtherValue => "An unexpected error occurred."
  end.

(** [generateReport] is an [async] function: it runs up to its [await],
    the component goes on handling clicks while the model works, and the
    rest runs when the call settles, on the state the component has
    then.  The two parts are modelled apart. *)

(** How the first part ends: the function has returned, or the call of
    the model is awaited. *)
Inductive Started :=
| Returned (s : State)
| Awaiting (s : State).

(** part_009, lines 42-54 (with the [catch] of lines 186-189 for the
    missing key); src/App.tsx, lines 23-29. *)
Definition generateReport_begin (v : Version) (apiKey : bool) (s : State)
  : Started :=
  match v with
  | part_009 =>
      if negb (profile s) then Returned s
      else
        let s := setGenerationError None (setAppState ANALYZING s) in
        if negb apiKey
        then Returned (setGenerationError (Some apiKeyMissing) s)
        else Awaiting s
  | App_tsx =>
      if negb (profile s) || negb apiKey then Returned s
      else Awaiting (setAppState ANALYZING s)
  end.

(** part_009, lines 154-189; src/App.tsx, lines 131-150: from the
    settling of the call to the end, on the state [s] of that moment.
    The [alert] of src/App.tsx changes no state. *)
Definition generateReport_settle (v : Version) (call : generateContent)
  (s : State) : completion State :=
  let response :=
    match call with
    | Resolves text => Normal text
    | Rejects e => Throw e
    end in
  match v with
  | part_009 =>
      try_catch
        (bind response
           (fun text =>
              match text with
              | Some jsonText =>
                  if negb (Js.truthy jsonText)
                  then Throw (ErrorObject emptyResponse)
                  else
                    let jsonText := cleanJsonText jsonText in
                    try_catch
                      (match JSON_parse jsonText with
                       | Some reportData =>
                           Normal (setAppState REPORT (setReport reportData s))
                       | None => Throw OtherValue       (* the SyntaxError *)
                       end)
                      (fun _ => Throw (ErrorObject parseFailed))
              | None => Throw (ErrorObject emptyResponse)
              end))
        (fun error => Normal (setGenerationError (Some (messageOf error)) s))
  | App_tsx =>
      try_catch
        (bind response
           (fun text =>
              let jsonText := Js.or_else text "{}" in
              match JSON_parse jsonText with
              | Some reportData =>
                  Normal (setAppState REPORT (setReport reportData s))
              | None => Throw OtherValue
              end))
        (fun _ => Normal (setAppState SETUP s))
  end.

(** The state after the second part. *)
Definition settled (v : Version) (call : generateContent) (s : State) : State :=
  match generateReport_settle v call s with
  | Normal s' => s'
  | Throw _ => s
  end.

(** The response is empty, or what the cleaning of part_009 leaves of it
    does not parse. *)
Definition unusable (text : option string) : Prop :=
  match text with
  | Some t => Js.truthy t = false \/ JSON_parse (cleanJsonText t) = None
  | None => True
  end.

End WithParser.

Arguments appState {EvaluationReport} s.
Arguments profile {EvaluationReport} s.
Arguments report {EvaluationReport} s.
Arguments generationError {EvaluationReport} s.
Arguments setAppState {EvaluationReport} a s.
Arguments setReport {EvaluationReport} r s.
Arguments setGenerationError {EvaluationReport} e s.
Arguments render {EvaluationReport} ToBoolean s.
Arguments returnToSetup {EvaluationReport} s.
Arguments generateReport_begin {EvaluationReport} v apiKey s.
Arguments generateReport_settle {EvaluationReport} JSON_parse v call s.
Arguments settled {EvaluationReport} JSON_parse v call s.
Arguments unusable {EvaluationReport} JSON_parse text.
Arguments Returned {EvaluationReport} s.
Arguments Awaiting {EvaluationReport} s.
Arguments ReportGenerationFailed {EvaluationReport} message.
Arguments GeneratingSpinner {EvaluationReport}.
Arguments ReportView {EvaluationReport} r.
Arguments SetupForm {EvaluationReport}.
Arguments Blank {EvaluationReport}.
Arguments OtherScreen {EvaluationReport}.

(** The outermost balanced object of a text, in the words of the
    specification (section 6); the code does not compute it.  It starts at
    the first opening brace and ends at the closing brace that brings the
    nesting depth back to zero; [None] when there is no such span. *)
Fixpoint balanced_span (depth : nat) (s : string) : option string :=
  match s with
  | EmptyString => None
  | String c r =>
      if Ascii.eqb c "{" then
        match balanced_span (S depth) r with
        | Some t => Some (String c t)
        | None => None
        end
      else if Ascii.eqb c "}" then
        match depth with
        | 0 => balanced_span 0 r
        | 1 => Some (String c EmptyString)
        | S d => match balanced_span d r with
                 | Some t => Some (String c t)
                 | None => None
                 end
        end
      else
        match depth with
        | 0 => balanced_span 0 r
        | _ => match balanced_span depth r with
               | Some t => Some (String c t)
               | None => None
               end
        end
  end.

Definition outermost_balanced_object (s : string) : option string :=
  balanced_span 0 s.

End Report.

(* ===================================================================== *)
(** ** The live session: [LiveInterview] *)
(* ===================================================================== *)

Module LiveInterview.

Import Exn.
Local Open Scope list_scope.

(** The two revisions of the component. *)
Inductive Revision :=
| part_003        (* src/unnamed/part_003 *)
| components.     (* src/components/LiveInterview.tsx *)

Inductive Role := user | ai.

Definition Role_eqb (a b : Role) : bool :=
  match a, b with
  | user, user | ai, ai => true
  | _, _ => false
  end.

Record ChatMessage := { role : Role; text : string }.

Record Task := { title : string; description : string }.

Inductive Tab := videoTab | codeTab.
Inductive PanelTab := taskPanel | consolePanel | videoPanel.

(** One entry of [message.toolCall.functionCalls]; [args] is read as
    [any], its two fields are strings or undefined. *)
Record FunctionCall := {
  call_id : string;
  call_name : string;
  args_title : option string;
  args_description : option string
}.

(** The result of [base64ToUint8Array] and [await decodeAudioData(...)]
    of utils/audioUtils, taken as given: a buffer of some duration, or an
    exception. *)
Inductive Decoded := AudioBuffer (duration : Z) | DecodeError.

Record LiveServerMessage := {
  toolCall : option (list FunctionCall);   (* toolCall.functionCalls, when both exist *)
  outputTranscription : option string;     (* serverContent?.outputTranscription?.text *)
  inputTranscription : option string;      (* serverContent?.inputTranscription?.text *)
  inlineData : option Decoded;             (* serverContent?.modelTurn?.parts?.[0]?.inlineData *)
  interrupted : bool                       (* serverContent?.interrupted *)
}.

(** What goes out on the socket. *)
Inductive Frame :=
| RealtimeInput (mimeType data : string)
| ToolResponse (id name result : string).

(** The callbacks the component hands to [sessionPromise.then]. *)
Inductive Continuation :=
| SendAudio (base64Data : string)
| SendImage (base64Image : string)
| SendToolResponse (id name : string)
| CloseSession.

Inductive Promise :=
| Pending (waiting : list Continuation)
| Fulfilled
| Rejected.

(** Calls on the [AudioBufferSourceNode]s of the output context. *)
Inductive AudioCommand :=
| Start (source : nat) (when_ : Z) (duration : Z)
| Stop (source : nat).

Record State := {
  isConnecting : bool;   (* useState(true) *)
  connectionError : option string;   (* part_003 only *)
  isMicOn : bool;
  volume : Q;
  chatHistory : list ChatMessage;
  activeTab : Tab;
  rightPanelTab : PanelTab;   (* part_003 only *)
  currentTask : option Task;   (* part_003 only *)
  isMicOnRef : bool;
  audioContextRef : bool;   (* audioContextRef.current is not null *)
  nextStartTimeRef : Z;
  sourcesRef : list nat;   (* the Set, in insertion order *)
  sessionPromiseRef : bool;   (* sessionPromiseRef.current is not null *)
  isConnectedRef : bool;   (* part_003 only *)
  transcriptRef : string;
  isMounted : bool;   (* the effect's local variable *)
  sessionPromise : Promise;   (* the promise returned by ai.live.connect *)
  socketOpen : bool;   (* the session's WebSocket is open *)
  sent : list Frame;   (* frames written to the socket, oldest first *)
  speaker : list AudioCommand;   (* calls on buffer sources, oldest first *)
  nextSource : nat;   (* identity of the next buffer source *)
  processorConnected : bool;   (* the ScriptProcessorNode is connected *)
  videoInterval : bool   (* the frame timer is running *)
}.

Definition set_isConnecting (v : bool) (s : State) : State :=
  let 'Build_State x0 x1 x2 x3 x4 x5 x6 x7 x8 x9 x10 x11 x12 x13 x14 x15 x16 x17 x18 x19 x20 x21 x22 := s in
  Build_State v x1 x2 x3 x4 x5 x6 x7 x8 x9 x10 x11 x12 x13 x14 x15 x16 x17 x18 x19 x20 x21 x22.

Definition set_connectionError (v : option string) (s : State) : State :=
  let 'Build_State x0 x1 x2 x3 x4 x5 x6 x7 x8 x9 x10 x11 x12 x13 x14 x15 x16 x17 x18 x19 x20 x21 x22 := s in
  Build_State x0 v x2 x3 x4 x5 x6 x7 x8 x9 x10 x11 x12 x13 x14 x15 x16 x17 x18 x19 x20 x21 x22.

Definition set_isMicOn (v : bool) (s : State) : State :=
  let 'Build_State x0 x1 x2 x3 x4 x5 x6 x7 x8 x9 x10 x11 x12 x13 x14 x15 x16 x17 x18 x19 x20 x21 x22 := s in
  Build_State x0 x1 v x3 x4 x5 x6 x7 x8 x9 x10 x11 x12 x13 x14 x15 x16 x17 x18 x19 x20 x21 x22.

Definition set_volume (v : Q) (s : State) : State :=
  let 'Build_State x0 x1 x2 x3 x4 x5 x6 x7 x8 x9 x10 x11 x12 x13 x14 x15 x16 x17 x18 x19 x20 x21 x22 := s in
  Build_State x0 x1 x2 v x4 x5 x6 x7 x8 x9 x10 x11 x12 x13 x14 x15 x16 x17 x18 x19 x20 x21 x22.

Definition set_chatHistory (v : list ChatMessage) (s : State) : State :=
  let 'Build_State x0 x1 x2 x3 x4 x5 x6 x7 x8 x9 x10 x11 x12 x13 x14 x15 x16 x17 x18 x19 x20 x21 x22 := s in
  Build_State x0 x1 x2 x3 v x5 x6 x7 x8 x9 x10 x11 x12 x13 x14 x15 x16 x17 x18 x19 x20 x21 x22.

Definition set_activeTab (v : Tab) (s : State) : State :=
  let 'Build_State x0 x1 x2 x3 x4 x5 x6 x7 x8 x9 x10 x11 x12 x13 x14 x15 x16 x17 x18 x19 x20 x21 x22 := s in
  Build_State x0 x1 x2 x3 x4 v x6 x7 x8 x9 x10 x11 x12 x13 x14 x15 x16 x17 x18 x19 x20 x21 x22.

Definition set_rightPanelTab (v : PanelTab) (s : State) : State :=
  let 'Build_State x0 x1 x2 x3 x4 x5 x6 x7 x8 x9 x10 x11 x12 x13 x14 x15 x16 x17 x18 x19 x20 x21 x22 := s in
  Build_State x0 x1 x2 x3 x4 x5 v x7 x8 x9 x10 x11 x12 x13 x14 x15 x16 x17 x18 x19 x20 x21 x22.

Definition set_currentTask (v : option Task) (s : State) : State :=
  let 'Build_State x0 x1 x2 x3 x4 x5 x6 x7 x8 x9 x10 x11 x12 x13 x14 x15 x16 x17 x18 x19 x20 x21 x22 := s in
  Build_State x0 x1 x2 x3 x4 x5 x6 v x8 x9 x10 x11 x12 x13 x14 x15 x16 x17 x18 x19 x20 x21 x22.

Definition set_isMicOnRef (v : bool) (s : State) : State :=
  let 'Build_State x0 x1 x2 x3 x4 x5 x6 x7 x8 x9 x10 x11 x12 x13 x14 x15 x16 x17 x18 x19 x20 x21 x22 := s in
  Build_State x0 x1 x2 x3 x4 x5 x6 x7 v x9 x10 x11 x12 x13 x14 x15 x16 x17 x18 x19 x20 x21 x22.

Definition set_audioContextRef (v : bool) (s : State) : State :=
  let 'Build_State x0 x1 x2 x3 x4 x5 x6 x7 x8 x9 x10 x11 x12 x13 x14 x15 x16 x17 x18 x19 x20 x21 x22 := s in
  Build_State x0 x1 x2 x3 x4 x5 x6 x7 x8 v x10 x11 x12 x13 x14 x15 x16 x17 x18 x19 x20 x21 x22.

Definition set_nextStartTimeRef (v : Z) (s : State) : State :=
  let 'Build_State x0 x1 x2 x3 x4 x5 x6 x7 x8 x9 x10 x11 x12 x13 x14 x15 x16 x17 x18 x19 x20 x21 x22 := s in
  Build_State x0 x1 x2 x3 x4 x5 x6 x7 x8 x9 v x11 x12 x13 x14 x15 x16 x17 x18 x19 x20 x21 x22.

Definition set_sourcesRef (v : list nat) (s : State) : State :=
  let 'Build_State x0 x1 x2 x3 x4 x5 x6 x7 x8 x9 x10 x11 x12 x13 x14 x15 x16 x17 x18 x19 x20 x21 x22 := s in
  Build_State x0 x1 x2 x3 x4 x5 x6 x7 x8 x9 x10 v x12 x13 x14 x15 x16 x17 x18 x19 x20 x21 x22.

Definition set_sessionPromiseRef (v : bool) (s : State) : State :=
  let 'Build_State x0 x1 x2 x3 x4 x5 x6 x7 x8 x9 x10 x11 x12 x13 x14 x15 x16 x17 x18 x19 x20 x21 x22 := s in
  Build_State x0 x1 x2 x3 x4 x5 x6 x7 x8 x9 x10 x11 v x13 x14 x15 x16 x17 x18 x19 x20 x21 x22.

Definition set_isConnectedRef (v : bool) (s : State) : State :=
  let 'Build_State x0 x1 x2 x3 x4 x5 x6 x7 x8 x9 x10 x11 x12 x13 x14 x15 x16 x17 x18 x19 x20 x21 x22 := s in
  Build_State x0 x1 x2 x3 x4 x5 x6 x7 x8 x9 x10 x11 x12 v x14 x15 x16 x17 x18 x19 x20 x21 x22.

Definition set_transcriptRef (v : string) (s : State) : State :=
  let 'Build_State x0 x1 x2 x3 x4 x5 x6 x7 x8 x9 x10 x11 x12 x13 x14 x15 x16 x17 x18 x19 x20 x21 x22 := s in
  Build_State x0 x1 x2 x3 x4 x5 x6 x7 x8 x9 x10 x11 x12 x13 v x15 x16 x17 x18 x19 x20 x21 x22.

Definition set_isMounted (v : bool) (s : State) : State :=
  let 'Build_State x0 x1 x2 x3 x4 x5 x6 x7 x8 x9 x10 x11 x12 x13 x14 x15 x16 x17 x18 x19 x20 x21 x22 := s in
  Build_State x0 x1 x2 x3 x4 x5 x6 x7 x8 x9 x10 x11 x12 x13 x14 v x16 x17 x18 x19 x20 x21 x22.

Definition set_sessionPromise (v : Promise) (s : State) : State :=
  let 'Build_State x0 x1 x2 x3 x4 x5 x6 x7 x8 x9 x10 x11 x12 x13 x14 x15 x16 x17 x18 x19 x20 x21 x22 := s in
  Build_State x0 x1 x2 x3 x4 x5 x6 x7 x8 x9 x10 x11 x12 x13 x14 x15 v x17 x18 x19 x20 x21 x22.

Definition set_socketOpen (v : bool) (s : State) : State :=
  let 'Build_State x0 x1 x2 x3 x4 x5 x6 x7 x8 x9 x10 x11 x12 x13 x14 x15 x16 x17 x18 x19 x20 x21 x22 := s in
  Build_State x0 x1 x2 x3 x4 x5 x6 x7 x8 x9 x10 x11 x12 x13 x14 x15 x16 v x18 x19 x20 x21 x22.

Definition set_sent (v : list Frame) (s : State) : State :=
  let 'Build_State x0 x1 x2 x3 x4 x5 x6 x7 x8 x9 x10 x11 x12 x13 x14 x15 x16 x17 x18 x19 x20 x21 x22 := s in
  Build_State x0 x1 x2 x3 x4 x5 x6 x7 x8 x9 x10 x11 x12 x13 x14 x15 x16 x17 v x19 x20 x21 x22.

Definition set_speaker (v : list AudioCommand) (s : State) : State :=
  let 'Build_State x0 x1 x2 x3 x4 x5 x6 x7 x8 x9 x10 x11 x12 x13 x14 x15 x16 x17 x18 x19 x20 x21 x22 := s in
  Build_State x0 x1 x2 x3 x4 x5 x6 x7 x8 x9 x10 x11 x12 x13 x14 x15 x16 x17 x18 v x20 x21 x22.

Definition set_nextSource (v : nat) (s : State) : State :=
  let 'Build_State x0 x1 x2 x3 x4 x5 x6 x7 x8 x9 x10 x11 x12 x13 x14 x15 x16 x17 x18 x19 x20 x21 x22 := s in
  Build_State x0 x1 x2 x3 x4 x5 x6 x7 x8 x9 x10 x11 x12 x13 x14 x15 x16 x17 x18 x19 v x21 x22.

Definition set_processorConnected (v : bool) (s : State) : State :=
  let 'Build_State x0 x1 x2 x3 x4 x5 x6 x7 x8 x9 x10 x11 x12 x13 x14 x15 x16 x17 x18 x19 x20 x21 x22 := s in
  Build_State x0 x1 x2 x3 x4 x5 x6 x7 x8 x9 x10 x11 x12 x13 x14 x15 x16 x17 x18 x19 x20 v x22.

Definition set_videoInterval (v : bool) (s : State) : State :=
  let 'Build_State x0 x1 x2 x3 x4 x5 x6 x7 x8 x9 x10 x11 x12 x13 x14 x15 x16 x17 x18 x19 x20 x21 x22 := s in
  Build_State x0 x1 x2 x3 x4 x5 x6 x7 x8 x9 x10 x11 x12 x13 x14 x15 x16 x17 x18 x19 x20 x21 v.
(** *** A state and exception monad for the callbacks *)

Definition M (A : Type) : Type := State -> completion A * State.

Definition ret {A} (a : A) : M A := fun s => (Normal a, s).

Definition bind {A B} (c : M A) (k : A -> M B) : M B :=
  fun s =>
    match c s with
    | (Normal a, s') => k a s'
    | (Throw e, s') => (Throw e, s')
    end.

Definition throw {A} (e : thrown) : M A := fun s => (Throw e, s).

Definition try_catch {A} (body : M A) (handler : thrown -> M A) : M A :=
  fun s =>
    match body s with
    | (Normal a, s') => (Normal a, s')
    | (Throw e, s') => handler e s'
    end.

Definition gets {A} (f : State -> A) : M A := fun s => (Normal (f s), s).

Definition modify (f : State -> State) : M unit := fun s => (Normal tt, f s).

Definition when (b : bool) (c : M unit) : M unit := if b then c else ret tt.

(** A callback that runs as a promise reaction or as an [async] function:
    what it throws rejects a promise nobody observes. *)
Definition unobserved (c : M unit) : M unit :=
  fun s => (Normal tt, snd (c s)).

Notation "x <- c1 ;; c2" := (bind c1 (fun x => c2))
  (at level 61, c1 at next level, right associativity).
Notation "c1 ;; c2" := (bind c1 (fun _ => c2))
  (at level 61, right associativity).

Definition exec (c : M unit) (s : State) : State := snd (c s).

(** [c] leaves the observation [f] of the state as it was, whether it
    returns or throws. *)
Definition preserves {A B} (f : State -> B) (c : M A) : Prop :=
  forall s, f (snd (c s)) = f s.

(** [c] returns. *)
Definition succeeds {A} (c : M A) : Prop :=
  forall s, exists a, fst (c s) = Normal a.

Definition newline : string := String (ascii_of_nat 10) EmptyString.

(** *** The session object *)

(** [session.sendRealtimeInput] and [session.sendToolResponse] write to
    the socket; on a socket that is not open they throw. *)
Definition session_send (f : Frame) : M unit :=
  open <- gets socketOpen ;;
  if open then modify (fun s => set_sent (sent s ++ [f]) s)
  else throw (ErrorObject "WebSocket is not open").

Definition session_close : M unit := modify (set_socketOpen false).

Definition toolResult : string := "Task assigned and displayed to candidate.".

(** The body of a [.then] callback, with the [.catch(() => {})] that
    follows it where there is one.
    part_003: lines 513-522, 566-575, 366-378, 490-492;
    components: lines 339-349, 400-410, 440-443. *)
Definition run_continuation (v : Revision) (k : Continuation) : M unit :=
  match k with
  | SendAudio base64Data =>
      match v with
      | part_003 =>
          connected <- gets isConnectedRef ;;
          when connected
            (try_catch
               (session_send (RealtimeInput "audio/pcm;rate=16000" base64Data))
               (fun _ => ret tt))
      | components =>
          try_catch
            (session_send (RealtimeInput "audio/pcm;rate=16000" base64Data))
            (fun _ => ret tt)
      end
  | SendImage base64Image =>
      match v with
      | part_003 =>
          connected <- gets isConnectedRef ;;
          when connected
            (try_catch
               (session_send (RealtimeInput "image/jpeg" base64Image))
               (fun _ => ret tt))
      | components =>
          try_catch
            (session_send (RealtimeInput "image/jpeg" base64Image))
            (fun _ => ret tt)
      end
  | SendToolResponse id name =>
      try_catch (session_send (ToolResponse id name toolResult))
        (fun _ => ret tt)
  | CloseSession =>
      try_catch session_close (fun _ => ret tt)
  end.

(** [sessionPromise.then(k)]: deferred while the promise is pending, run
    at once when it is fulfilled, skipped when it is rejected. *)
Definition then_ (v : Revision) (k : Continuation) : M unit :=
  p <- gets sessionPromise ;;
  match p with
  | Pending waiting => modify (set_sessionPromise (Pending (waiting ++ [k])))
  | Fulfilled => unobserved (run_continuation v k)
  | Rejected => ret tt
  end.

Fixpoint run_all (v : Revision) (ks : list Continuation) : M unit :=
  match ks with
  | [] => ret tt
  | k :: rest => unobserved (run_continuation v k) ;; run_all v rest
  end.

(** *** The transcript *)

(** The updater given to [setChatHistory]
    (part_003 lines 390-397 and 402-409; components lines 216-225 and
    230-239), for a delta [delta] of role [r]. *)
Definition appendChat (r : Role) (delta : string) (prev : list ChatMessage)
  : list ChatMessage :=
  match nth_error prev (List.length prev - 1) with       (* prev[prev.length - 1] *)
  | Some lastMsg =>
      if Role_eqb (role lastMsg) r
      then firstn (List.length prev - 1) prev            (* prev.slice(0, -1) *)
             ++ [ {| role := role lastMsg; text := (text lastMsg ++ delta)%string |} ]
      else prev ++ [ {| role := r; text := delta |} ]
  | None => prev ++ [ {| role := r; text := delta |} ]
  end.

(** [if (text) { transcriptRef.current += text; setChatHistory(...) }] *)
Definition onTranscription (r : Role) (t : option string) : M unit :=
  match t with
  | Some delta =>
      when (Js.truthy delta)
        (modify (fun s => set_transcriptRef (transcriptRef s ++ delta)%string s) ;;
         modify (fun s => set_chatHistory (appendChat r delta (chatHistory s)) s))
  | None => ret tt
  end.

(** *** Tool calls (part_003 lines 348-382) *)

(** The declaration registered with the session (part_003 lines 21-38);
    the handler compares the name of a call with the same literal. *)
Record FunctionDeclaration := {
  fd_name : string;
  fd_description : string;
  fd_properties : list string;
  fd_required : list string
}.

Definition assignTaskTool : FunctionDeclaration := {|
  fd_name := "assignCodingTask";
  fd_description :=
    "Assign a specific technical coding problem or task to the candidate when you want to test their coding skills.";
  fd_properties := ["title"; "description"];
  fd_required := ["title"; "description"]
|}.


Definition onToolCall (m : LiveServerMessage) : M unit :=
  match toolCall m with
  | Some (call :: _) =>
      when (String.eqb (call_name call) "assignCodingTask")
        (modify (set_currentTask
                   (Some {| title := Js.or_else (args_title call) "Coding Task";
                            description :=
                              Js.or_else (args_description call) "Solve the problem." |})) ;;
         modify (set_activeTab codeTab) ;;
         modify (set_rightPanelTab taskPanel) ;;
         connected <- gets isConnectedRef ;;
         promise <- gets sessionPromiseRef ;;
         when (connected && promise)
           (then_ part_003 (SendToolResponse (call_id call) (call_name call))))
  | _ => ret tt
  end.

(** *** Playback (part_003 lines 412-444; components lines 243-279) *)

Definition decodeAudioData (d : Decoded) : M Z :=
  match d with
  | AudioBuffer duration => ret duration
  | DecodeError => throw OtherValue
  end.

Definition onAudio (m : LiveServerMessage) (currentTime : Z) : M unit :=
  match inlineData m with
  | Some data =>
      ctx <- gets audioContextRef ;;
      when ctx
        (duration <- decodeAudioData data ;;
         source <- gets nextSource ;;
         modify (set_nextSource (S source)) ;;
         next <- gets nextStartTimeRef ;;
         let startTime := Z.max currentTime next in
         modify (fun s => set_speaker (speaker s ++ [Start source startTime duration]) s) ;;
         modify (set_nextStartTimeRef (startTime + duration)%Z) ;;
         modify (fun s => set_sourcesRef (sourcesRef s ++ [source]) s))
  | None => ret tt
  end.

Definition onInterrupted (m : LiveServerMessage) (currentTime : Z) : M unit :=
  when (interrupted m)
    (modify (fun s =>
       set_transcriptRef (transcriptRef s ++ newline ++ "[Interruption]" ++ newline)%string s) ;;
     modify (fun s => set_speaker (speaker s ++ map Stop (sourcesRef s)) s) ;;
     modify (set_sourcesRef []) ;;
     modify (set_nextStartTimeRef 0%Z) ;;
     ctx <- gets audioContextRef ;;
     when ctx (modify (set_nextStartTimeRef currentTime))).

(** [source.onended]. *)
Definition onended (source : nat) : M unit :=
  modify (fun s =>
    set_sourcesRef (filter (fun x => negb (Nat.eqb x source)) (sourcesRef s)) s).

(** *** The callbacks of the session *)

Definition onopen (v : Revision) : M unit :=
  match v with
  | part_003 =>
      modify (set_isConnectedRef true) ;;
      mounted <- gets isMounted ;;
      when mounted
        (modify (set_isConnecting false) ;; modify (set_connectionError None))
  | components =>
      mounted <- gets isMounted ;;
      when mounted (modify (set_isConnecting false))
  end.

Definition onmessage (v : Revision) (m : LiveServerMessage) (currentTime : Z)
  : M unit :=
  mounted <- gets isMounted ;;
  when mounted
    (match v with
     | part_003 => onToolCall m
     | components => ret tt
     end ;;
     onTranscription ai (outputTranscription m) ;;
     onTranscription user (inputTranscription m) ;;
     onAudio m currentTime ;;
     onInterrupted m currentTime).

Definition onclose (v : Revision) : M unit :=
  match v with
  | part_003 => modify (set_isConnectedRef false)
  | components => ret tt
  end.

Definition connectionErrorText (errorMessage : string) : string :=
  if Js.includes errorMessage "Network error" || Js.includes errorMessage "Failed to fetch"
  then "Network Error: Could not connect to Gemini Live. Check internet connection."
  else if Js.includes errorMessage "404" || Js.includes errorMessage "not found"
  then "Model unavailable (404). Check API Key region."
  else ("Connection Error: " ++ errorMessage)%string.

(** In components the handler tests the [isConnecting] of the render that
    ran the effect, which is [true]; its [alert] changes no state. *)
Definition onerror (v : Revision) (errorMessage : string) : M unit :=
  match v with
  | part_003 =>
      modify (set_isConnectedRef false) ;;
      mounted <- gets isMounted ;;
      when mounted
        (modify (set_connectionError (Some (connectionErrorText errorMessage))) ;;
         modify (set_isConnecting false))
  | components =>
      mounted <- gets isMounted ;;
      when mounted (modify (set_isConnecting false))
  end.

(** [sessionPromise.catch(...)], run when the connection attempt fails. *)
Definition onConnectFailure (v : Revision) : M unit :=
  match v with
  | part_003 =>
      modify (set_isConnectedRef false) ;;
      mounted <- gets isMounted ;;
      when mounted
        (modify (set_connectionError
                   (Some "Connection Failed. Check API Key or Network.")) ;;
         modify (set_isConnecting false))
  | components =>
      mounted <- gets isMounted ;;
      when mounted (modify (set_isConnecting false))
  end.

(** *** Capture (part_003 lines 500-577; components lines 321-412) *)

(** [rms] is [Math.sqrt(sum / inputData.length)] and [base64Data] the
    encoding of the buffer by utils/audioUtils. *)
Definition onaudioprocess (v : Revision) (rms : Q) (base64Data : string)
  : M unit :=
  micOn <- gets isMicOnRef ;;
  connected <- gets isConnectedRef ;;
  let proceed :=
    match v with
    | part_003 => micOn && connected
    | components => micOn
    end in
  when proceed
    (mounted <- gets isMounted ;;
     when mounted (modify (set_volume rms)) ;;
     match v with
     | part_003 => then_ v (SendAudio base64Data)
     | components =>
         promise <- gets sessionPromiseRef ;;
         when promise (then_ v (SendAudio base64Data))
     end).

(** [domReady]: the video element, the canvas and its 2d context exist;
    [base64Image] is what the canvas encodes to after the drawing. *)
Definition onVideoInterval (v : Revision) (domReady : bool)
  (base64Image : string) : M unit :=
  connected <- gets isConnectedRef ;;
  let proceed :=
    match v with
    | part_003 => domReady && connected
    | components => domReady
    end in
  when proceed
    (match v with
     | part_003 => then_ v (SendImage base64Image)
     | components =>
         promise <- gets sessionPromiseRef ;;
         when promise (then_ v (SendImage base64Image))
     end).

(** The click on the microphone button, with the effect that copies the
    new state into the ref. *)
Definition toggleMic : M unit :=
  modify (fun s => set_isMicOn (negb (isMicOn s)) s) ;;
  modify (fun s => set_isMicOnRef (isMicOn s) s).

(** *** Teardown (part_003 lines 600-620; components lines 423-445) *)

Definition cleanup (v : Revision) : M unit :=
  match v with
  | part_003 =>
      modify (set_isMounted false) ;;
      modify (set_isConnectedRef false) ;;
      modify (set_videoInterval false) ;;
      (* cleanupSession() *)
      modify (set_isConnectedRef false) ;;
      then_ v CloseSession ;;
      modify (set_processorConnected false)
  | components =>
      modify (set_isMounted false) ;;
      modify (set_videoInterval false) ;;
      modify (set_processorConnected false) ;;
      promise <- gets sessionPromiseRef ;;
      when promise (then_ v CloseSession)
  end.

(** The argument [handleEndCall] passes to [onEndInterview]. *)
Definition handleEndCall (s : State) : string :=
  if Js.truthy (transcriptRef s) then transcriptRef s
  else "No transcript available.".

(** *** The event loop *)

(** The callbacks of the session: those of the socket, of the connect
    promise, of the audio nodes and of the video timer, the click on the
    microphone button and the cleanup of the effect.  The click on Run
    Code and what follows the [await] of [handleRunCode] are events of
    [Component.step], which runs them with these. *)
Inductive Event :=
| Open                                        (* the socket opens *)
| Settle (fulfilled : bool)                   (* the connect promise settles *)
| Message (m : LiveServerMessage) (currentTime : Z)
| Close                                       (* the socket closes *)
| Error (errorMessage : string)
| AudioProcess (rms : Q) (base64Data : string)
| VideoTick (domReady : bool) (base64Image : string)
| SourceEnded (source : nat)
| ToggleMic
| Unmount.

(** One turn of the event loop.  A disconnected processor gets no
    [audioprocess] event and a cleared interval does not tick; a promise
    settles once. *)
Definition step (v : Revision) (e : Event) : M unit :=
  match e with
  | Open => modify (set_socketOpen true) ;; onopen v
  | Settle fulfilled =>
      p <- gets sessionPromise ;;
      match p with
      | Pending waiting =>
          if fulfilled
          then modify (set_sessionPromise Fulfilled) ;; run_all v waiting
          else modify (set_sessionPromise Rejected) ;; onConnectFailure v
      | _ => ret tt
      end
  | Message m currentTime => unobserved (onmessage v m currentTime)
  | Close => modify (set_socketOpen false) ;; onclose v
  | Error errorMessage => onerror v errorMessage
  | AudioProcess rms base64Data =>
      on <- gets processorConnected ;;
      when on (onaudioprocess v rms base64Data)
  | VideoTick domReady base64Image =>
      on <- gets videoInterval ;;
      when on (onVideoInterval v domReady base64Image)
  | SourceEnded source => onended source
  | ToggleMic => toggleMic
  | Unmount => cleanup v
  end.

Fixpoint run (v : Revision) (events : list Event) (s : State) : State :=
  match events with
  | [] => s
  | e :: rest => run v rest (exec (step v e) s)
  end.

(** The component once [initializeSession] has reached its end: devices
    acquired, [ai.live.connect] called, processor and timer installed. *)
Definition initial : State := {|
  isConnecting := true;
  connectionError := None;
  isMicOn := true;
  volume := 0%Q;
  chatHistory := [];
  activeTab := videoTab;
  rightPanelTab := videoPanel;
  currentTask := None;
  isMicOnRef := true;
  audioContextRef := true;
  nextStartTimeRef := 0%Z;
  sourcesRef := [];
  sessionPromiseRef := true;
  isConnectedRef := false;
  transcriptRef := EmptyString;
  isMounted := true;
  sessionPromise := Pending [];
  socketOpen := false;
  sent := [];
  speaker := [];
  nextSource := 0%nat;
  processorConnected := true;
  videoInterval := true
|}.

(** *** Observations on the trace *)

(** The [(start, duration)] pairs of the [Start] calls of a log. *)
Fixpoint starts_of (log : list AudioCommand) : list (Z * Z) :=
  match log with
  | [] => []
  | Start _ w d :: rest => (w, d) :: starts_of rest
  | Stop _ :: rest => starts_of rest
  end.

(** What a step added to a log that only grows. *)
Definition added {A} (before after : list A) : list A :=
  skipn (List.length before) after.

Definition is_audio_frame (f : Frame) : bool :=
  match f with
  | RealtimeInput mime _ => String.eqb mime "audio/pcm;rate=16000"
  | _ => false
  end.

Definition is_tool_response (f : Frame) : bool :=
  match f with
  | ToolResponse _ _ _ => true
  | _ => false
  end.

(** The scheduling rule in the words of the specification (section 4.3),
    to compare the handler with: on a list of [(currentTime, duration)]
    pairs, from a given [nextStartTime]. *)
Fixpoint schedule (nextStartTime : Z) (segments : list (Z * Z)) : list (Z * Z) :=
  match segments with
  | [] => []
  | (currentTime, duration) :: rest =>
      let startAt := Z.max currentTime nextStartTime in
      (startAt, duration) :: schedule (startAt + duration)%Z rest
  end.

(** The events that deliver a list of messages, each with the reading of
    the output clock made while it is handled. *)
Definition deliver (msgs : list (LiveServerMessage * Z)) : list Event :=
  map (fun p => Message (fst p) (snd p)) msgs.

(** The deltas a message carries: the interviewer's first, then the
    candidate's; a text that is absent or empty is no delta. *)
Definition delta_of (r : Role) (t : option string) : list (Role * string) :=
  match t with
  | Some d => if Js.truthy d then [(r, d)] else []
  | None => []
  end.

Definition deltas_of (m : LiveServerMessage) : list (Role * string) :=
  delta_of ai (outputTranscription m) ++ delta_of user (inputTranscription m).

(** The updater applied to a sequence of deltas, first to last. *)
Definition appendAll (deltas : list (Role * string)) (h : list ChatMessage)
  : list ChatMessage :=
  fold_left (fun h rd => appendChat (fst rd) (snd rd) h) deltas h.

(** [fullText()] in the words of the specification (section 4.5): the
    texts of the entries joined in order. *)
Fixpoint fullText (h : list ChatMessage) : string :=
  match h with
  | [] => EmptyString
  | e :: rest => (text e ++ fullText rest)%string
  end.

(** The segment a message carries, with the clock reading it is handled
    at. *)
Definition carries (p : LiveServerMessage * Z) (segment : Z * Z) : Prop :=
  inlineData (fst p) = Some (AudioBuffer (snd segment)) /\
  snd p = fst segment /\
  interrupted (fst p) = false.

(** An event that neither schedules nor interrupts playback and does not
    unmount the component. *)
Definition quiet (e : Event) : bool :=
  match e with
  | Message m _ =>
      match inlineData m with
      | Some _ => false
      | None => negb (interrupted m)
      end
  | Unmount => false
  | _ => true
  end.

(** The audio channel of a revision is up: the component is mounted, the
    processor connected, the connect promise fulfilled, the socket open
    and, in part_003, known to be.  The revision in src/components has no
    connected flag; it reaches the promise through [sessionPromiseRef],
    which must hold it. *)
Definition streaming (v : Revision) (s : State) : bool :=
  isMounted s && socketOpen s && processorConnected s
  && match sessionPromise s with Fulfilled => true | _ => false end
  && match v with
     | part_003 => isConnectedRef s
     | components => sessionPromiseRef s
     end.

(** The cells of the playback scheduler, and those among them that a
    message without audio and without interruption leaves alone. *)
Definition playback (s : State) :=
  (speaker s, nextStartTimeRef s, nextSource s, sourcesRef s,
   audioContextRef s, isMounted s).

Definition schedulerCells (s : State) :=
  (nextStartTimeRef s, audioContextRef s, isMounted s).

Definition pendingView (s : State) := (speaker s, sourcesRef s).

(** Every source the log shows started is accounted for: it is in the
    pending set, or it was stopped, or its [onended] has come. *)
Definition accounted (history : list Event) (s : State) : Prop :=
  forall id w d,
    In (Start id w d) (speaker s) ->
    In id (sourcesRef s) \/ In (Stop id) (speaker s) \/
    In (SourceEnded id) history.

(** The session once the socket has opened and the connect promise is
    fulfilled, and the same with the microphone switched off. *)
Definition connected (v : Revision) : State := run v [Open; Settle true] initial.

Definition muted (v : Revision) : State := exec (step v ToggleMic) (connected v).

(** The capture events of a list of buffers, each given by its level and
    its encoding. *)
Definition capture (ticks : list (Q * string)) : list Event :=
  map (fun p => AudioProcess (fst p) (snd p)) ticks.

Definition audioFrame (base64Data : string) : Frame :=
  RealtimeInput "audio/pcm;rate=16000" base64Data.

(** The frames of outbound media among what was sent. *)
Definition is_media (f : Frame) : bool :=
  match f with
  | RealtimeInput _ _ => true
  | ToolResponse _ _ _ => false
  end.

(** The cells a task assignment writes. *)
Definition taskCells (s : State) := (currentTask s, sent s, sessionPromise s).

(** A message that carries one transcription and nothing else. *)
Definition says (r : Role) (delta : string) : LiveServerMessage := {|
  toolCall := None;
  outputTranscription := match r with ai => Some delta | user => None end;
  inputTranscription := match r with user => Some delta | ai => None end;
  inlineData := None;
  interrupted := false
|}.

(** A message that carries one audio segment and nothing else. *)
Definition plays (duration : Z) : LiveServerMessage := {|
  toolCall := None;
  outputTranscription := None;
  inputTranscription := None;
  inlineData := Some (AudioBuffer duration);
  interrupted := false
|}.

(** The interruption signal alone. *)
Definition interruption : LiveServerMessage := {|
  toolCall := None;
  outputTranscription := None;
  inputTranscription := None;
  inlineData := None;
  interrupted := true
|}.

(** A message that carries one call of the task tool. *)
Definition assigns (id title description : string) : LiveServerMessage := {|
  toolCall := Some [ {| call_id := id; call_name := fd_name assignTaskTool;
                        args_title := Some title;
                        args_description := Some description |} ];
  outputTranscription := None;
  inputTranscription := None;
  inlineData := None;
  interrupted := false
|}.

(** The connected flag and what has gone out. *)
Definition channelCells (s : State) := (isConnectedRef s, sent s).

(** The events that offer a frame for sending. *)
Definition is_capture (e : Event) : bool :=
  match e with
  | AudioProcess _ _ | VideoTick _ _ => true
  | _ => false
  end.

(** The call, as the handler reads it, of a message that carries one. *)
Definition assigns_call (m : LiveServerMessage) : FunctionCall :=
  match toolCall m with
  | Some (call :: _) => call
  | _ => {| call_id := EmptyString; call_name := EmptyString;
            args_title := None; args_description := None |}
  end.

End LiveInterview.

(* ===================================================================== *)
(** ** Observations on runs of the session *)
(* ===================================================================== *)

Module Trace.

Import Exn LiveInterview.
Local Open Scope list_scope.

(** The cells React renders from. *)
Definition uiCells (s : State) :=
  (isConnecting s, connectionError s, isMicOn s, volume s, chatHistory s,
   activeTab s, rightPanelTab s, currentTask s).

(** What an unmounted component must leave alone: the React state, the
    transcript and the playback schedule. *)
Definition frozenCells (s : State) :=
  (uiCells s, transcriptRef s, speaker s, nextStartTimeRef s).

(** The cells of the session that an unmounted component must leave
    alone, the transcript apart. *)
Definition stillCells (s : State) := (uiCells s, speaker s, nextStartTimeRef s).

(** What the interruption branch appends to the transcript. *)
Definition interruptionMark : string :=
  (newline ++ "[Interruption]" ++ newline)%string.

(** [weave t c]: the transcript [t] and the text [c] of the chat entries
    were built from the same deltas in the same order, the transcript
    with interruption marks in between. *)
Inductive weave : string -> string -> Prop :=
| weave_empty : weave EmptyString EmptyString
| weave_delta t c d : weave t c -> weave (t ++ d)%string (c ++ d)%string
| weave_mark t c : weave t c -> weave (t ++ interruptionMark)%string c.

(** [subsequence a b]: [a] is [b] with some elements left out. *)
Inductive subsequence {A : Type} : list A -> list A -> Prop :=
| subsequence_nil : subsequence [] []
| subsequence_skip a b x : subsequence a b -> subsequence a (x :: b)
| subsequence_take a b x : subsequence a b -> subsequence (x :: a) (x :: b).

(** The frame a deferred callback writes when it runs and sends. *)
Definition frameOf (k : Continuation) : list Frame :=
  match k with
  | SendAudio base64Data => [RealtimeInput "audio/pcm;rate=16000" base64Data]
  | SendImage base64Image => [RealtimeInput "image/jpeg" base64Image]
  | SendToolResponse id name => [ToolResponse id name toolResult]
  | CloseSession => []
  end.

(** The callbacks waiting on the connect promise. *)
Definition waitingOn (s : State) : list Continuation :=
  match sessionPromise s with
  | Pending waiting => waiting
  | _ => []
  end.

(** What has gone out, followed by what is waiting to. *)
Definition outbound (s : State) : list Frame :=
  sent s ++ flat_map frameOf (waitingOn s).

(** The frame an event asks the component to send, if any: a capture
    buffer, a video frame, or, in part_003, the acknowledgement of the
    first function call of a message when it names the task tool. *)
Definition offers (v : Revision) (e : Event) : list Frame :=
  match e with
  | AudioProcess _ base64Data => [RealtimeInput "audio/pcm;rate=16000" base64Data]
  | VideoTick _ base64Image => [RealtimeInput "image/jpeg" base64Image]
  | Message m _ =>
      match v, toolCall m with
      | part_003, Some (call :: _) =>
          if String.eqb (call_name call) "assignCodingTask"
          then [ToolResponse (call_id call) (call_name call) toolResult]
          else []
      | _, _ => []
      end
  | _ => []
  end.

(** A message whose first function call names the task tool. *)
Definition names_task (e : Event) : bool :=
  match e with
  | Message m _ =>
      match toolCall m with
      | Some (call :: _) => String.eqb (call_name call) "assignCodingTask"
      | _ => false
      end
  | _ => false
  end.

(** The cells the sends go through. *)
Definition sendCells (s : State) := (sent s, sessionPromise s).

(** The two forms the conversation is kept in. *)
Definition transcriptCells (s : State) := (transcriptRef s, chatHistory s).

(** No two neighbours of a list of roles are the same. *)
Fixpoint alternating (roles : list Role) : bool :=
  match roles with
  | [] => true
  | a :: rest =>
      match rest with
      | b :: _ => negb (Role_eqb a b)
      | [] => true
      end && alternating rest
  end.

(** A chat in which the speakers take turns and every entry has text. *)
Definition wellFormed (h : list ChatMessage) : bool :=
  alternating (map role h) && forallb (fun e => Js.truthy (text e)) h.

Definition is_close (k : Continuation) : bool :=
  match k with
  | CloseSession => true
  | _ => false
  end.

(** What holds of part_003 as long as the component is mounted: the
    connected flag is up only over an open socket, no closing of the
    session is waiting, and the processor and the timer are installed. *)
Definition steady (s : State) : Prop :=
  isMounted s = true ->
  (isConnectedRef s = true -> socketOpen s = true) /\
  existsb is_close (waitingOn s) = false /\
  processorConnected s = true /\
  videoInterval s = true.

(** The cells [steady] reads, the queue apart. *)
Definition steadyCells (s : State) :=
  (isMounted s, isConnectedRef s, socketOpen s, processorConnected s,
   videoInterval s).

(** A capture event that the callback does not turn away at once. *)
Definition captured (s : State) (e : Event) : bool :=
  match e with
  | AudioProcess _ _ => isMicOnRef s
  | VideoTick domReady _ => domReady
  | _ => false
  end.

End Trace.

(* ===================================================================== *)
(** ** Starting the session: [initializeSession] *)
(* ===================================================================== *)

(** part_003, lines 246-331 and 579-595: the effect up to the call of
    [ai.live.connect], and its [catch].  The Web Audio constructors are
    taken to succeed and [resume()] to resolve. *)
Module Startup.

Import Exn LiveInterview.
Local Open Scope list_scope.

(** What [navigator.mediaDevices.getUserMedia] settles to: a stream, or a
    rejection with the [name] and the [message] of the exception. *)
Inductive MediaResult :=
| Stream
| MediaError (name message : string).

Record Browser := {
  API_KEY : option string;            (* process.env.API_KEY *)
  isSecureContext : bool;             (* window.isSecureContext *)
  hostname : string;                  (* window.location.hostname *)
  getUserMedia : MediaResult;
  unmountsWhileWaiting : bool         (* the cleanup of the effect runs
                                         while [getUserMedia] is awaited *)
}.

(** The component, and the two facts about the devices that its state
    record does not hold. *)
Record Cells := {
  component : State;
  devicesRequested : bool;            (* getUserMedia was called *)
  streamRef : bool                    (* streamRef.current holds a stream *)
}.

Definition onComponent (f : State -> State) (c : Cells) : Cells :=
  {| component := f (component c);
     devicesRequested := devicesRequested c;
     streamRef := streamRef c |}.

Definition set_devicesRequested (b : bool) (c : Cells) : Cells :=
  {| component := component c; devicesRequested := b; streamRef := streamRef c |}.

Definition set_streamRef (b : bool) (c : Cells) : Cells :=
  {| component := component c; devicesRequested := devicesRequested c;
     streamRef := b |}.

(** The component as [useState] and [useRef] create it, before the effect
    runs: no audio context, no session, nothing installed. *)
Definition mounting : State :=
  set_audioContextRef false
    (set_sessionPromiseRef false
       (set_processorConnected false
          (set_videoInterval false initial))).

Definition fresh : Cells :=
  {| component := mounting; devicesRequested := false; streamRef := false |}.

(** Lines 282-291: what the inner [catch] throws. *)
Definition mediaFailure (name message : string) : thrown :=
  if String.eqb name "NotAllowedError" || String.eqb name "PermissionDeniedError"
  then ErrorObject "PERMISSION_DENIED"
  else if String.eqb name "NotFoundError"
  then ErrorObject "NO_DEVICES"
  else ErrorObject message.

(** Lines 600-620 when they run before line 293: [cleanupSession],
    [processorRef] and [streamRef] are still null, so only the two flags
    change. *)
Definition cleanupWhileWaiting (s : State) : State :=
  set_isConnectedRef false (set_isMounted false s).

(** Lines 333-577 as far as the state record sees them: the promise is
    created and stored, the processor and the timer are installed. *)
Definition connect (s : State) : State :=
  set_videoInterval true
    (set_processorConnected true
       (set_sessionPromiseRef true
          (set_sessionPromise (Pending []) s))).

(** Lines 253-577: the body of the [try]. *)
Definition initializeSession_try (b : Browser) (c : Cells)
  : completion unit * Cells :=
  if negb (Js.truthy_opt (API_KEY b))
  then (Throw (ErrorObject "API Key is missing. Please check your .env file."), c)
  else if negb (isSecureContext b)
          && negb (String.eqb (hostname b) "localhost")
          && negb (String.eqb (hostname b) "127.0.0.1")
  then (Throw (ErrorObject "INSECURE_CONTEXT"), c)
  else
    let c := onComponent (set_audioContextRef true) c in
    let c := set_devicesRequested true c in
    (* await navigator.mediaDevices.getUserMedia(...) *)
    let c := if unmountsWhileWaiting b
             then onComponent cleanupWhileWaiting c else c in
    match getUserMedia b with
    | MediaError name message => (Throw (mediaFailure name message), c)
    | Stream =>
        let c := set_streamRef true c in
        if negb (isMounted (component c)) then (Normal tt, c)
        else (Normal tt, onComponent connect c)
    end.

(** Lines 582-590. *)
Definition userMsg (err : thrown) : string :=
  let userMsg :=
    match err with
    | ErrorObject message =>
        if Js.truthy message then message
        else "Failed to initialize Gemini Live session."
    | OtherValue => "Failed to initialize Gemini Live session."
    end in
  if String.eqb userMsg "INSECURE_CONTEXT"
  then "SECURE CONNECTION REQUIRED: Browser blocks camera/mic on insecure (HTTP) connections. Use HTTPS or Localhost."
  else if String.eqb userMsg "PERMISSION_DENIED"
  then "PERMISSION DENIED: Please allow Camera & Microphone access in browser settings."
  else if String.eqb userMsg "NO_DEVICES"
  then "HARDWARE MISSING: No camera or microphone found."
  else userMsg.

(** Lines 250-596. *)
Definition initializeSession (b : Browser) (c : Cells) : Cells :=
  let c := onComponent (set_isConnectedRef false) c in
  match initializeSession_try b c with
  | (Normal _, c) => c
  | (Throw err, c) =>
      if isMounted (component c)
      then onComponent
             (fun s => set_isConnecting false
                         (set_connectionError (Some (userMsg err)) s)) c
      else c
  end.

(** The context passes the check of line 260. *)
Definition contextAccepted (b : Browser) : bool :=
  isSecureContext b || String.eqb (hostname b) "localhost"
  || String.eqb (hostname b) "127.0.0.1".

(** A browser on a plain-HTTP development host where the candidate grants
    access. *)
Definition localBrowser : Browser := {|
  API_KEY := Some "key";
  isSecureContext := false;
  hostname := "localhost";
  getUserMedia := Stream;
  unmountsWhileWaiting := false
|}.

(** A browser where the candidate refuses the prompt. *)
Definition refusingBrowser : Browser := {|
  API_KEY := Some "key";
  isSecureContext := true;
  hostname := "example.org";
  getUserMedia := MediaError "NotAllowedError" "Permission denied";
  unmountsWhileWaiting := false
|}.

(** A browser where the candidate leaves the page while the prompt is
    open and the access is granted afterwards. *)
Definition leavingBrowser : Browser := {|
  API_KEY := Some "key";
  isSecureContext := true;
  hostname := "example.org";
  getUserMedia := Stream;
  unmountsWhileWaiting := true
|}.

End Startup.

(* ===================================================================== *)
(** ** The code editor: [handleEditorKeyDown] *)
(* ===================================================================== *)

(** part_003, lines 123-165. *)
Module Editor.

Inductive Key := Tab | Enter | OtherKey.

Definition lineFeed : ascii := ascii_of_nat 10.

(** [s.lastIndexOf(c, fromIndex)] for a one-character [c]: the search looks
    at the indices up to [fromIndex], which is clamped to 0 from below. *)
Definition lastIndexOfFrom (c : ascii) (s : string) (fromIndex : Z)
  : option nat :=
  Js.lastIndexOf c (String.substring 0 (S (Z.to_nat (Z.max 0 fromIndex))) s).

(** [s.substring(a)]. *)
Definition substringFrom (s : string) (a : nat) : string :=
  Js.substring s a (String.length s).

(** The group that matching [s] against the pattern of line 145 captures:
    the white space [s] begins with; the pattern matches every string. *)
Fixpoint leadingSpace (s : string) : string :=
  match s with
  | EmptyString => EmptyString
  | String c r => if Js.is_space c then String c (leadingSpace r) else EmptyString
  end.

Fixpoint trimStart (s : string) : string :=
  match s with
  | EmptyString => EmptyString
  | String c r => if Js.is_space c then trimStart r else s
  end.

Fixpoint trimEnd (s : string) : string :=
  match s with
  | EmptyString => EmptyString
  | String c r =>
      match trimEnd r with
      | EmptyString => if Js.is_space c then EmptyString else String c EmptyString
      | t => String c t
      end
  end.

(** [s.trim()]. *)
Definition trim (s : string) : string := trimEnd (trimStart s).

(** [s.endsWith(c)] for a one-character [c]. *)
Fixpoint endsWith (c : ascii) (s : string) : bool :=
  match s with
  | EmptyString => false
  | String a EmptyString => Ascii.eqb a c
  | String _ r => endsWith c r
  end.

(** Lines 143-144. *)
Definition currentLine (code : string) (selectionStart : nat) : string :=
  let currentLineStart :=
    match lastIndexOfFrom lineFeed code (Z.of_nat selectionStart - 1) with
    | Some i => i + 1
    | None => 0                      (* -1 + 1 *)
    end in
  Js.substring code currentLineStart selectionStart.

(** Lines 145-154. *)
Definition totalIndent (code : string) (selectionStart : nat) : string :=
  let currentLine := currentLine code selectionStart in
  let indentation := leadingSpace currentLine in
  let trimmedLine := trim currentLine in
  let extraIndent :=
    if endsWith "{" trimmedLine || endsWith ":" trimmedLine
       || endsWith "(" trimmedLine
    then "  " else EmptyString in
  indentation ++ extraIndent.

(** The new text and the caret position the handler sets, or [None] when
    it leaves the key to the browser. *)
Definition handleEditorKeyDown (key : Key) (code : string)
  (selectionStart selectionEnd : nat) : option (string * nat) :=
  match key with
  | Tab =>
      let newValue :=
        Js.substring code 0 selectionStart ++ "  "
        ++ substringFrom code selectionEnd in
      Some (newValue, selectionStart + 2)
  | Enter =>
      let totalIndent := totalIndent code selectionStart in
      let newValue :=
        Js.substring code 0 selectionStart ++ String lineFeed EmptyString
        ++ totalIndent ++ substringFrom code selectionEnd in
      Some (newValue, selectionStart + 1 + String.length totalIndent)
  | OtherKey => None
  end.

(** The last code unit of a string that is not white space. *)
Fixpoint lastVisible (s : string) : option ascii :=
  match s with
  | EmptyString => None
  | String c r =>
      match lastVisible r with
      | Some x => Some x
      | None => if Js.is_space c then None else Some c
      end
  end.

(** A line ends in a character after which the next line is indented. *)
Definition opensBlock (line : string) : bool :=
  match lastVisible line with
  | Some x => Ascii.eqb x "{" || Ascii.eqb x ":" || Ascii.eqb x "("
  | None => false
  end.

(** A function body typed so far, the caret after the opening brace. *)
Definition halfTyped : string :=
  "if (x) {" ++ String lineFeed EmptyString ++ "    while (y) {  ".

End Editor.

(* ===================================================================== *)
(** ** The video frame: [renderCodeToCanvas] and the drawing of the timer *)
(* ===================================================================== *)

(** part_003, lines 223-243 and 540-561; components, lines 116-141 and
    366-394.  The canvas is the list of the painting calls made on its
    context, in order. *)
Module Canvas.

Import LiveInterview.
Local Open Scope list_scope.
Local Open Scope Z_scope.

Inductive Draw :=
| FillRect (fillStyle : string) (x y w h : Z)
| FillText (fillStyle font text : string) (x y : Z)
| FillBadge (fillStyle font : string) (x y : Z)   (* the LIVE CODE VIEW label *)
| StrokeRect (strokeStyle : string) (lineWidth x y w h : Z)
| DrawImage (x y w h : Z).                        (* of [videoRef.current] *)

(** [s.split(c)] for a one-character [c]. *)
Fixpoint split (c : ascii) (s : string) : list string :=
  match s with
  | EmptyString => [EmptyString]
  | String a r =>
      if Ascii.eqb a c then EmptyString :: split c r
      else match split c r with
           | first :: rest => String a first :: rest
           | [] => [String a EmptyString]
           end
  end.

(** The [forEach] of lines 234-238, from [index] on. *)
Fixpoint drawLines (height index : Z) (lines : list string) : list Draw :=
  match lines with
  | [] => []
  | line :: rest =>
      let lineHeight := 20 in
      let padding := 20 in
      (if index * lineHeight <? height - padding
       then [FillText "#e2e8f0" "14px monospace" line padding
               (padding + index * lineHeight)]
       else [])
      ++ drawLines height (index + 1) rest
  end.

Definition renderCodeToCanvas (code : string) (width height : Z) : list Draw :=
  FillRect "#1e293b" 0 0 width height
  :: drawLines height 0 (split Editor.lineFeed code)
  ++ [FillBadge "#ef4444" "bold 16px sans-serif" (width - 180) 20].

(** What one tick of the timer paints before the canvas is encoded. *)
Definition drawFrame (activeTab : Tab) (isVideoOn : bool) (code : string)
  : list Draw :=
  let width := 640 in
  let height := 360 in
  match activeTab with
  | codeTab =>
      renderCodeToCanvas code width height
      ++ (if isVideoOn
          then
            let pipWidth := 160 in
            let pipHeight := 90 in
            let padding := 10 in
            [StrokeRect "#3b82f6" 2 (width - pipWidth - padding)
               (height - pipHeight - padding) pipWidth pipHeight;
             DrawImage (width - pipWidth - padding)
               (height - pipHeight - padding) pipWidth pipHeight]
          else [])
  | videoTab =>
      if isVideoOn then [DrawImage 0 0 width height]
      else [FillRect "#1e293b" 0 0 width height]
  end.

(** The lines of text painted, each with its vertical position. *)
Fixpoint textsOf (canvas : list Draw) : list (string * Z) :=
  match canvas with
  | [] => []
  | FillText _ _ text _ y :: rest => (text, y) :: textsOf rest
  | _ :: rest => textsOf rest
  end.

Definition is_image (d : Draw) : bool :=
  match d with
  | DrawImage _ _ _ _ => true
  | _ => false
  end.

(** The positions of the first [n] lines, from [index] on. *)
Fixpoint rows (index : Z) (lines : list string) : list (string * Z) :=
  match lines with
  | [] => []
  | line :: rest => (line, 20 + index * 20) :: rows (index + 1) rest
  end.

End Canvas.

(* ===================================================================== *)
(** ** The clock: [formatTime] *)
(* ===================================================================== *)

(** part_003, lines 627-631; components, lines 453-457.  The argument is
    the count of the one-second timer, a natural number. *)
Module Timer.

(** [n.toString()] for a non-negative integer. *)
Definition toString (n : nat) : string :=
  DecimalString.NilEmpty.string_of_uint (Nat.to_uint n).

(** [s.padStart(2, '0')]. *)
Definition padStart2 (s : string) : string :=
  match String.length s with
  | 0 => "00"
  | 1 => "0" ++ s
  | _ => s
  end.

Definition formatTime (seconds : nat) : string :=
  let mins := seconds / 60 in
  let secs := seconds mod 60 in
  padStart2 (toString mins) ++ ":" ++ padStart2 (toString secs).

(** The number a string of decimal digits writes. *)
Definition numberOf (s : string) : option nat :=
  option_map Nat.of_uint (DecimalString.NilEmpty.uint_of_string s).

End Timer.

(* ===================================================================== *)
(** ** Running the candidate's code: [handleRunCode] *)
(* ===================================================================== *)

(** part_003, lines 168-221; components, lines 77-113.  The handler waits
    for the model between its first statements and the rest; the session
    goes on meanwhile. *)
Module RunCode.

Import Exn LiveInterview.
Local Open Scope list_scope.

Record Cells := {
  session : State;
  compilerOutput : string;
  isCompiling : bool;
  handedOver : list string      (* the texts of the callbacks given to
                                   [sessionPromiseRef.current.then] *)
}.

Definition onSession (f : State -> State) (c : Cells) : Cells :=
  {| session := f (session c); compilerOutput := compilerOutput c;
     isCompiling := isCompiling c; handedOver := handedOver c |}.

Definition setCompilerOutput (o : string) (c : Cells) : Cells :=
  {| session := session c; compilerOutput := o;
     isCompiling := isCompiling c; handedOver := handedOver c |}.

Definition setIsCompiling (b : bool) (c : Cells) : Cells :=
  {| session := session c; compilerOutput := compilerOutput c;
     isCompiling := b; handedOver := handedOver c |}.

Definition handOver (t : string) (c : Cells) : Cells :=
  {| session := session c; compilerOutput := compilerOutput c;
     isCompiling := isCompiling c; handedOver := handedOver c ++ [t] |}.

(** [s.slice(0, 100)]. *)
Definition slice100 (s : string) : string := String.substring 0 100 s.

(** The line added to the transcript. *)
Definition runNote (v : Revision) (languageName output : string) : string :=
  match v with
  | part_003 =>
      newline ++ "[SYSTEM: User ran " ++ languageName ++ " code. Output: "
      ++ slice100 output ++ "...]" ++ newline
  | components =>
      newline ++ "[SYSTEM: User ran code. Output: "
      ++ slice100 output ++ "...]" ++ newline
  end.

(** The text of line 207. *)
Definition resultText (code output : string) : string :=
  "[SYSTEM] The candidate executed the code." ++ newline ++ newline
  ++ "CODE:" ++ newline ++ code ++ newline ++ newline
  ++ "OUTPUT:" ++ newline ++ output ++ newline ++ newline
  ++ "Please analyze this output and the code quality. Provide feedback to the candidate.".

(** The statements before the [await]. *)
Definition handleRunCode_begin (v : Revision) (c : Cells) : Cells :=
  let c := setIsCompiling true c in
  match v with
  | part_003 =>
      onSession (set_rightPanelTab consolePanel)
        (setCompilerOutput "Compiling..." c)
  | components => setCompilerOutput "Compiling and executing..." c
  end.

(** The statements after it: the rest of the [try], the [catch], the
    [finally]. *)
Definition handleRunCode_end (v : Revision) (languageName code : string)
  (response : Report.generateContent) (c : Cells) : Cells :=
  let c :=
    match response with
    | Report.Resolves text =>
        let output := Js.or_else text "No output returned." in
        let c := setCompilerOutput output c in
        let c :=
          onSession (fun s =>
            set_transcriptRef
              (transcriptRef s ++ runNote v languageName output)%string s) c in
        match v with
        | part_003 =>
            if isConnectedRef (session c) && sessionPromiseRef (session c)
            then handOver (resultText code output) c
            else c
        | components => c
        end
    | Report.Rejects error =>
        setCompilerOutput
          ("Execution Error: "
           ++ match error with
              | ErrorObject message => message
              | OtherValue => "Unknown error"
              end) c
    end in
  setIsCompiling false c.

(** The whole call; [events] is what the session handles during the
    wait. *)
Definition handleRunCode (v : Revision) (API_KEY : option string)
  (languageName code : string) (response : Report.generateContent)
  (events : list Event) (c : Cells) : Cells :=
  if negb (Js.truthy_opt API_KEY) then c
  else
    let c := handleRunCode_begin v c in
    let c := onSession (run v events) c in
    handleRunCode_end v languageName code response c.

(** The session when the response arrives. *)
Definition atResponse (v : Revision) (events : list Event) (c : Cells) : State :=
  run v events (session (handleRunCode_begin v c)).

(** An editor beside a session that has just started. *)
Definition idle : Cells :=
  {| session := initial; compilerOutput := EmptyString;
     isCompiling := false; handedOver := [] |}.

End RunCode.

(* ===================================================================== *)
(** ** The component: the session and the runs of the editor *)
(* ===================================================================== *)

(** The callbacks of the session together with the handlers that write
    the cells of the console and the tabs: the two parts of
    [handleRunCode] (part_003, lines 168-221;
    src/components/LiveInterview.tsx, lines 77-113), the second of which
    runs when the call of the model settles, whether the component is
    still mounted or not; the clicks on the tabs; and, in part_003,
    [handleLanguageChange].  The handler of an element is called only
    while the component renders it.  The clock has an effect of its own
    that clears its interval at the unmount, and the deferred callbacks of
    the key handler write the selection of the text area only, through a
    ref that is null by then. *)
Module Component.

Import Exn LiveInterview RunCode.
Local Open Scope list_scope.

(** [awaited]: the [language.name] and the [code] of the render in which
    Run was clicked, for each run whose call has not settled, oldest
    first. *)
Record Machine := {
  cells : Cells;
  awaited : list (string * string)
}.

Inductive Event :=
| Session (e : LiveInterview.Event)
| TabClick (tab : Tab)                  (* the mode toggles *)
| PanelClick (panel : PanelTab)         (* the tabs of the right panel *)
| LanguageChange                        (* the language select *)
| RunClick (API_KEY : option string) (languageName code : string)
| RunSettles (response : Report.generateContent).

Definition onCells (f : Cells -> Cells) (m : Machine) : Machine :=
  {| cells := f (cells m); awaited := awaited m |}.

(** The code view is rendered: the editor and, in part_003, the language
    select and the right panel with its tabs (part_003, line 694;
    components, line 505). *)
Definition codeView (c : Cells) : bool :=
  isMounted (session c)
  && match activeTab (session c) with
     | codeTab => true
     | videoTab => false
     end.

(** The Run button can be clicked: it is in the code view, in part_003
    on the console tab of the right panel (line 853), and it is disabled
    while [isCompiling] (part_003, lines 858-859; components, lines
    566-567). *)
Definition runButton (v : Revision) (c : Cells) : bool :=
  codeView c
  && match v with
     | part_003 =>
         match rightPanelTab (session c) with
         | consolePanel => true
         | _ => false
         end
     | components => true
     end
  && negb (isCompiling c).

(** One turn of the event loop of the component.  The mode toggles and
    the microphone button are rendered as long as the component is.  Of
    what [handleLanguageChange] writes the machine carries
    [compilerOutput]; the language and the code come with the click on
    Run. *)
Definition step (v : Revision) (e : Event) (m : Machine) : Machine :=
  match e with
  | Session ToggleMic =>
      if isMounted (session (cells m))
      then onCells (onSession (exec (LiveInterview.step v ToggleMic))) m
      else m
  | Session e => onCells (onSession (exec (LiveInterview.step v e))) m
  | TabClick tab =>
      if isMounted (session (cells m))
      then onCells (onSession (set_activeTab tab)) m
      else m
  | PanelClick panel =>
      match v with
      | part_003 =>
          if codeView (cells m)
          then onCells (onSession (set_rightPanelTab panel)) m
          else m
      | components => m
      end
  | LanguageChange =>
      match v with
      | part_003 =>
          if codeView (cells m)
          then onCells (setCompilerOutput EmptyString) m
          else m
      | components => m
      end
  | RunClick API_KEY languageName code =>
      if runButton v (cells m)
      then
        if negb (Js.truthy_opt API_KEY) then m
        else {| cells := handleRunCode_begin v (cells m);
                awaited := awaited m ++ [(languageName, code)] |}
      else m
  | RunSettles response =>
      match awaited m with
      | [] => m
      | (languageName, code) :: rest =>
          {| cells := handleRunCode_end v languageName code response (cells m);
             awaited := rest |}
      end
  end.

Fixpoint run (v : Revision) (events : list Event) (m : Machine) : Machine :=
  match events with
  | [] => m
  | e :: rest => run v rest (step v e m)
  end.

(** The component when the session starts. *)
Definition start : Machine := {| cells := idle; awaited := [] |}.

(** The event of the session in an event of the component. *)
Definition sessionEvent (e : Event) : list LiveInterview.Event :=
  match e with
  | Session e => [e]
  | _ => []
  end.

Definition settles_with_response (e : Event) : bool :=
  match e with
  | RunSettles (Report.Resolves _) => true
  | _ => false
  end.

(** The notes that the runs awaited at the unmount write when they settle
    during [events]. *)
Fixpoint lateNotes (v : Revision) (waiting : list (string * string))
  (events : list Event) : string :=
  match events with
  | [] => EmptyString
  | RunSettles response :: rest =>
      match waiting with
      | [] => lateNotes v [] rest
      | (languageName, _) :: others =>
          (match response with
           | Report.Resolves text =>
               runNote v languageName (Js.or_else text "No output returned.")
           | Report.Rejects _ => EmptyString
           end ++ lateNotes v others rest)%string
      end
  | _ :: rest => lateNotes v waiting rest
  end.

(** A text that could be handed to the session: the result text of the
    code of a click on Run and of the output of a response. *)
Definition is_result (events : list Event) (t : string) : Prop :=
  exists API_KEY languageName code text,
    In (RunClick API_KEY languageName code) events /\
    In (RunSettles (Report.Resolves text)) events /\
    t = resultText code (Js.or_else text "No output returned.").

(** A run that some click of [events] started. *)
Definition was_clicked (events : list Event) (p : string * string) : Prop :=
  exists API_KEY, In (RunClick API_KEY (fst p) (snd p)) events.

End Component.

(* ===================================================================== *)
(** ** The top-level component: [AppContent] *)
(* ===================================================================== *)

(** part_009, lines 15-275: the handlers of the shell around the two
    parts of [generateReport]. *)
Module App.

Import Exn Report.
Local Open Scope list_scope.

Section WithParser.

Variable EvaluationReport : Type.
Variable JSON_parse : string -> option EvaluationReport.
Variable ToBoolean : EvaluationReport -> bool.

Record Shell := {
  page : Report.State EvaluationReport;
  isLoginModalOpen : bool;
  currentUser : bool;               (* useAuth().currentUser !== null *)
  awaiting : nat                    (* calls of generateContent not settled *)
}.

Definition onPage
  (f : Report.State EvaluationReport -> Report.State EvaluationReport)
  (a : Shell) : Shell :=
  {| page := f (page a); isLoginModalOpen := isLoginModalOpen a;
     currentUser := currentUser a; awaiting := awaiting a |}.

Definition setIsLoginModalOpen (b : bool) (a : Shell) : Shell :=
  {| page := page a; isLoginModalOpen := b;
     currentUser := currentUser a; awaiting := awaiting a |}.

Definition setCurrentUser (b : bool) (a : Shell) : Shell :=
  {| page := page a; isLoginModalOpen := isLoginModalOpen a;
     currentUser := b; awaiting := awaiting a |}.

Definition setAwaiting (n : nat) (a : Shell) : Shell :=
  {| page := page a; isLoginModalOpen := isLoginModalOpen a;
     currentUser := currentUser a; awaiting := n |}.

(** [setProfile(newProfile)]. *)
Definition setProfile (s : Report.State EvaluationReport)
  : Report.State EvaluationReport :=
  {| appState := appState s; profile := true; report := report s;
     generationError := generationError s |}.

(** Lines 24-30. *)
Definition handleStartInterviewClick (a : Shell) : Shell :=
  if currentUser a then onPage (setAppState SETUP) a
  else setIsLoginModalOpen true a.

(** Lines 32-35. *)
Definition handleLoginSuccess (a : Shell) : Shell :=
  onPage (setAppState SETUP) a.

(** Lines 37-40. *)
Definition handleSetupComplete (a : Shell) : Shell :=
  onPage (fun s => setAppState INTERVIEW (setProfile s)) a.

(** [onEndInterview]: the call of [generateReport], up to its [await];
    a call of the model that is awaited is counted. *)
Definition endInterview (apiKey : bool) (a : Shell) : Shell :=
  match generateReport_begin part_009 apiKey (page a) with
  | Returned s => onPage (fun _ => s) a
  | Awaiting s => setAwaiting (S (awaiting a)) (onPage (fun _ => s) a)
  end.

Inductive Event :=
| HomeClick | AboutClick | ContactClick | StartClick     (* Navbar, HomePage *)
| CloseModal | LoginSuccess                              (* LoginModal *)
| AuthChanged (user : bool)                              (* AuthContext *)
| SetupComplete                                          (* SetupForm *)
| EndInterview (apiKey : bool)                           (* LiveInterview *)
| Settles (call : generateContent)
| ReturnToSetup                                          (* the error panel *)
| Restart.                                               (* ReportView *)

(** One event of the shell.  A handler of a component that is not
    rendered is not called: the setup form is rendered in SETUP, the
    interview in INTERVIEW with a profile, the error panel in ANALYZING
    with an error, and the report in REPORT with a truthy report.  The
    navigation bar and the login modal are rendered on every page, also
    while a call of the model is awaited. *)
Definition step (e : Event) (a : Shell) : Shell :=
  match e with
  | HomeClick => onPage (setAppState HOME) a
  | AboutClick => onPage (setAppState ABOUT) a
  | ContactClick => onPage (setAppState CONTACT) a
  | StartClick => handleStartInterviewClick a
  | CloseModal => setIsLoginModalOpen false a
  | LoginSuccess => handleLoginSuccess a
  | AuthChanged user => setCurrentUser user a
  | SetupComplete =>
      match appState (page a) with
      | SETUP => handleSetupComplete a
      | _ => a
      end
  | EndInterview apiKey =>
      match appState (page a) with
      | INTERVIEW => if profile (page a) then endInterview apiKey a else a
      | _ => a
      end
  | Settles call =>
      match awaiting a with
      | S n => onPage (settled JSON_parse part_009 call) (setAwaiting n a)
      | 0 => a
      end
  | ReturnToSetup =>
      match render ToBoolean (page a) with
      | ReportGenerationFailed _ => onPage returnToSetup a
      | _ => a
      end
  | Restart =>
      match render ToBoolean (page a) with
      | ReportView _ => onPage (setAppState HOME) a
      | _ => a
      end
  end.

Fixpoint run (events : list Event) (a : Shell) : Shell :=
  match events with
  | [] => a
  | e :: rest => run rest (step e a)
  end.

(** The component as [useState] creates it. *)
Definition start (user : bool) : Shell :=
  {| page := {| appState := HOME; profile := false; report := None;
                generationError := None |};
     isLoginModalOpen := false; currentUser := user; awaiting := 0 |}.

(** The pages open to everyone. *)
Definition is_public (s : AppState) : bool :=
  match s with
  | HOME | ABOUT | CONTACT => true
  | _ => false
  end.

(** The events that sign the visitor in. *)
Definition signs_in (e : Event) : bool :=
  match e with
  | LoginSuccess | AuthChanged true => true
  | _ => false
  end.

(** The clicks on the navigation bar that change the page. *)
Definition is_navigation (e : Event) : bool :=
  match e with
  | HomeClick | AboutClick | ContactClick => true
  | _ => false
  end.

(** No visitor, nothing awaited, a public page. *)
Definition outside (a : Shell) : Prop :=
  is_public (appState (page a)) = true /\ currentUser a = false /\
  awaiting a = 0.

(** The pages before a profile exists. *)
Definition before_setup (s : AppState) : bool :=
  match s with
  | INTERVIEW | ANALYZING | REPORT => false
  | _ => true
  end.

(** A profile is stored unless the candidate has never left the pages
    before the interview, and the report page has a report. *)
Definition furnished (a : Shell) : Prop :=
  (profile (page a) = true
   \/ (before_setup (appState (page a)) = true /\ awaiting a = 0)) /\
  (appState (page a) = REPORT -> report (page a) <> None).

End WithParser.

Arguments page {EvaluationReport} s.
Arguments isLoginModalOpen {EvaluationReport} s.
Arguments currentUser {EvaluationReport} s.
Arguments awaiting {EvaluationReport} s.
Arguments start {EvaluationReport} user.
Arguments outside {EvaluationReport} a.
Arguments furnished {EvaluationReport} a.
Arguments step {EvaluationReport} JSON_parse ToBoolean e a.
Arguments run {EvaluationReport} JSON_parse ToBoolean events a.
Arguments endInterview {EvaluationReport} apiKey a.

End App.

(* ===================================================================== *)
(** ** Sample inputs *)
(* ===================================================================== *)

(** A response made of an object and a remark that has braces of its own. *)
Definition dquote : string := String (ascii_of_nat 34) EmptyString.
Definition score_object : string :=
  "{" ++ dquote ++ "score" ++ dquote ++ ":90}".
Definition remarked_response : string := score_object ++ " Scale: {0-100}".

(** A function call of another tool, and a message whose second function
    call names the task tool. *)
Definition looks_up (id : string) : LiveInterview.FunctionCall := {|
  LiveInterview.call_id := id;
  LiveInterview.call_name := "lookUpDocumentation";
  LiveInterview.args_title := None;
  LiveInterview.args_description := None
|}.
Definition assigns_second : LiveInterview.LiveServerMessage := {|
  LiveInterview.toolCall :=
    Some [looks_up "call-1";
          LiveInterview.assigns_call
            (LiveInterview.assigns "call-2" "Reverse a List"
               "Reverse a singly linked list in place.")];
  LiveInterview.outputTranscription := None;
  LiveInterview.inputTranscription := None;
  LiveInterview.inlineData := None;
  LiveInterview.interrupted := false
|}.

(** The values that the texts of the examples parse to. *)
Inductive JsonValue :=
| EmptyObject      (* {} *)
| Null.            (* null *)

(** [JSON.parse] on the texts of the examples: the text of the empty
    object, the text of [null], and texts that are not JSON.  On these it
    is what the engine computes; no other JSON text is among the
    examples. *)
Definition JSON_parse_sample (text : string) : option JsonValue :=
  if String.eqb text "{}" then Some EmptyObject
  else if String.eqb text "null" then Some Null
  else None.

(** An object is truthy, [null] is not. *)
Definition ToBoolean_sample (v : JsonValue) : bool :=
  match v with
  | EmptyObject => true
  | Null => false
  end.

(** The top-level component when an interview ends, and on the analysis
    page that the first part of [generateReport] leaves. *)
Definition after_interview : Report.State JsonValue :=
  {| Report.appState := Report.INTERVIEW; Report.profile := true;
     Report.report := None; Report.generationError := None |}.
Definition analyzing : Report.State JsonValue :=
  {| Report.appState := Report.ANALYZING; Report.profile := true;
     Report.report := None; Report.generationError := None |}.

(* ===================================================================== *)
(** ** Facts about the string operations *)
(* ===================================================================== *)

Lemma string_length_append (a b : string) :
  String.length (a ++ b) = String.length a + String.length b.
Proof. induction a as [|c a IH]; simpl; [reflexivity | now rewrite IH]. Qed.

Lemma string_append_assoc (a b c : string) : (a ++ b) ++ c = a ++ (b ++ c).
Proof. induction a as [|x a IH]; simpl; [reflexivity | now rewrite IH]. Qed.

Lemma string_append_empty_r (a : string) : a ++ EmptyString = a.
Proof. induction a as [|x a IH]; simpl; [reflexivity | now rewrite IH]. Qed.

Lemma indexOf_append_none (c : ascii) (a b : string) :
  Js.indexOf c a = None -> Js.indexOf c b = None ->
  Js.indexOf c (a ++ b) = None.
Proof.
  induction a as [|x a IH]; simpl; intros Ha Hb; [exact Hb|].
  destruct (Ascii.eqb x c); [discriminate|].
  destruct (Js.indexOf c a); [discriminate|].
  now rewrite IH.
Qed.

Lemma indexOf_append_fresh (c : ascii) (pre rest : string) :
  Js.indexOf c pre = None ->
  Js.indexOf c (pre ++ String c rest) = Some (String.length pre).
Proof.
  induction pre as [|x pre IH]; simpl; intros H.
  - now rewrite Ascii.eqb_refl.
  - destruct (Ascii.eqb x c); [discriminate|].
    destruct (Js.indexOf c pre); [discriminate|].
    now rewrite IH.
Qed.

Lemma lastIndexOf_append_fresh (c : ascii) (pre post : string) :
  Js.lastIndexOf c post = None ->
  Js.lastIndexOf c (pre ++ String c post) = Some (String.length pre).
Proof.
  intros H. induction pre as [|x pre IH]; simpl.
  - now rewrite H, Ascii.eqb_refl.
  - now rewrite IH.
Qed.

Lemma String_substring_head (mid post : string) :
  String.substring 0 (String.length mid) (mid ++ post) = mid.
Proof.
  induction mid as [|x mid IH]; simpl.
  - now destruct post.
  - now rewrite IH.
Qed.

Lemma String_substring_skip (pre s : string) (n : nat) :
  String.substring (String.length pre) n (pre ++ s) = String.substring 0 n s.
Proof. induction pre as [|x pre IH]; simpl; [reflexivity | exact IH]. Qed.

(** [substring] cuts out exactly the span it is given the bounds of. *)
Lemma substring_span (pre mid post : string) :
  Js.substring (pre ++ mid ++ post)
    (String.length pre) (String.length pre + String.length mid) = mid.
Proof.
  unfold Js.substring. rewrite !string_length_append.
  set (p := String.length pre). set (m := String.length mid).
  set (q := String.length post).
  replace (Nat.min p (p + (m + q))) with p by lia.
  replace (Nat.min (p + m) (p + (m + q))) with (p + m) by lia.
  replace (Nat.min p (p + m)) with p by lia.
  replace (Nat.max p (p + m) - p) with m by lia.
  subst p m. rewrite String_substring_skip. apply String_substring_head.
Qed.

Lemma space_is_not (c x : ascii) :
  Js.is_space x = false -> Js.is_space c = true -> Ascii.eqb c x = false.
Proof.
  intros Hx Hc. destruct (Ascii.eqb c x) eqn:E; [|reflexivity].
  apply Ascii.eqb_eq in E. subst. congruence.
Qed.

Lemma all_space_indexOf (x : ascii) (ws : string) :
  Js.is_space x = false -> Js.all_space ws = true -> Js.indexOf x ws = None.
Proof.
  intros Hx. induction ws as [|c ws IH]; simpl; [reflexivity|].
  intros H. apply andb_prop in H as [Hc Hws].
  rewrite (space_is_not c x Hx Hc). now rewrite IH.
Qed.

Lemma all_space_lastIndexOf (x : ascii) (ws : string) :
  Js.is_space x = false -> Js.all_space ws = true -> Js.lastIndexOf x ws = None.
Proof.
  intros Hx. induction ws as [|c ws IH]; simpl; [reflexivity|].
  intros H. apply andb_prop in H as [Hc Hws].
  rewrite IH by assumption. now rewrite (space_is_not c x Hx Hc).
Qed.

(** Text without a backtick goes through both replacements untouched. *)
Lemma replace_json_fence_copy_app (a b : string) :
  Js.indexOf "`" a = None ->
  Js.replace_json_fence Js.Copy (a ++ b) = a ++ Js.replace_json_fence Js.Copy b.
Proof.
  induction a as [|x a IH]; intros H; [reflexivity|].
  simpl in H. destruct (Ascii.eqb x "`") eqn:E; [discriminate|].
  destruct (Js.indexOf "`" a) eqn:Ia; [discriminate|].
  cbn [append Js.replace_json_fence String.prefix].
  destruct (ascii_dec "`" x) as [<-|_];
    [rewrite Ascii.eqb_refl in E; discriminate|].
  now rewrite IH.
Qed.

Lemma replace_closing_fence_app (a b : string) :
  Js.indexOf "`" a = None ->
  Js.replace_closing_fence (a ++ b) = a ++ Js.replace_closing_fence b.
Proof.
  induction a as [|x a IH]; intros H; [reflexivity|].
  simpl in H. destruct (Ascii.eqb x "`") eqn:E; [discriminate|].
  destruct (Js.indexOf "`" a) eqn:Ia; [discriminate|].
  cbn [append Js.replace_closing_fence String.prefix].
  destruct (ascii_dec "`" x) as [<-|_];
    [rewrite Ascii.eqb_refl in E; discriminate|].
  cbn [andb]. now rewrite IH.
Qed.

Lemma replace_json_fence_plain (a : string) :
  Js.indexOf "`" a = None -> Js.replace_json_fence Js.Copy a = a.
Proof.
  intros H. rewrite <- (string_append_empty_r a) at 1.
  rewrite replace_json_fence_copy_app by assumption.
  apply string_append_empty_r.
Qed.

Lemma replace_closing_fence_plain (a : string) :
  Js.indexOf "`" a = None -> Js.replace_closing_fence a = a.
Proof.
  intros H. rewrite <- (string_append_empty_r a) at 1.
  rewrite replace_closing_fence_app by assumption.
  apply string_append_empty_r.
Qed.

(** A closing fence is not an opening one. *)
Lemma replace_json_fence_closing (ws : string) :
  Js.all_space ws = true ->
  Js.replace_json_fence Js.Copy ("```" ++ ws) = "```" ++ ws.
Proof.
  intros H. destruct ws as [|c r]; [reflexivity|].
  pose proof H as H'. simpl in H'. apply andb_prop in H' as [Hc Hr].
  assert (Hj : c <> "j"%char) by (intros ->; discriminate).
  assert (Hb : c <> "`"%char) by (intros ->; discriminate).
  cbn [append Js.replace_json_fence String.prefix].
  repeat match goal with
         | |- context [ascii_dec ?a ?b] =>
             destruct (ascii_dec a b); try congruence
         end.
  cbn [append Js.replace_json_fence String.prefix].
  do 4 f_equal. apply replace_json_fence_plain.
  now apply all_space_indexOf.
Qed.

Lemma replace_closing_fence_closing (ws : string) :
  Js.all_space ws = true -> Js.replace_closing_fence ("```" ++ ws) = EmptyString.
Proof. intros H. cbn. rewrite H. now destruct ws. Qed.

Lemma replace_json_fence_spaces (ws rest : string) :
  Js.all_space ws = true ->
  Js.replace_json_fence Js.Spaces (ws ++ rest) = Js.replace_json_fence Js.Spaces rest.
Proof.
  induction ws as [|c ws IH]; intros H; [reflexivity|].
  simpl in H. apply andb_prop in H as [Hc Hws].
  cbn [append Js.replace_json_fence]. rewrite Hc. now apply IH.
Qed.

Lemma replace_json_fence_opening (ws : string) (c : ascii) (r : string) :
  Js.all_space ws = true -> Js.is_space c = false ->
  Js.replace_json_fence Js.Copy ("```json" ++ ws ++ String c r)
  = Js.replace_json_fence Js.Copy (String c r).
Proof.
  intros Hws Hc.
  transitivity (Js.replace_json_fence Js.Spaces (ws ++ String c r)).
  - cbn [append Js.replace_json_fence String.prefix].
    repeat match goal with
           | |- context [ascii_dec ?a ?b] =>
               destruct (ascii_dec a b); try congruence
           end.
    now destruct (ws ++ String c r).
  - rewrite replace_json_fence_spaces by assumption.
    cbn [Js.replace_json_fence]. now rewrite Hc.
Qed.

Example replace_json_fence_twice :
  Js.replace_json_fence Js.Copy "a```json  {b}```json{c}" = "a{b}{c}".
Proof. reflexivity. Qed.

Example replace_closing_fence_last_only :
  Js.replace_closing_fence "{a}``` x ```  " = "{a}``` x ".
Proof. reflexivity. Qed.

Example substring_swaps_its_bounds : Js.substring "} x {" 4 1 = " x ".
Proof. reflexivity. Qed.

Example includes_finds_inside :
  Js.includes "TypeError: Failed to fetch" "Failed to fetch" = true /\
  Js.includes "closed" "404" = false.
Proof. split; reflexivity. Qed.

(* ===================================================================== *)
(** ** The report generator *)
(* ===================================================================== *)

Lemma span_first_last (pre mid post : string) :
  Js.indexOf "{" pre = None ->
  Js.lastIndexOf "}" post = None ->
  match Js.indexOf "{" (pre ++ "{" ++ mid ++ "}" ++ post),
        Js.lastIndexOf "}" (pre ++ "{" ++ mid ++ "}" ++ post) with
  | Some f, Some l => Js.substring (pre ++ "{" ++ mid ++ "}" ++ post) f (l + 1)
  | _, _ => pre ++ "{" ++ mid ++ "}" ++ post
  end = "{" ++ mid ++ "}".
Proof.
  intros Hpre Hpost. cbn [append].
  rewrite (indexOf_append_fresh "{" pre _ Hpre).
  replace (pre ++ String "{" (mid ++ String "}" post))
    with ((pre ++ String "{" mid) ++ String "}" post)
    by (rewrite string_append_assoc; reflexivity).
  rewrite (lastIndexOf_append_fresh "}" _ _ Hpost).
  replace ((pre ++ String "{" mid) ++ String "}" post)
    with (pre ++ String "{" (mid ++ "}") ++ post)
    by (rewrite !string_append_assoc; cbn [append];
        rewrite string_append_assoc; reflexivity).
  replace (String.length (pre ++ String "{" mid) + 1)
    with (String.length pre + String.length (String "{" (mid ++ "}")))
    by (rewrite !string_length_append; simpl;
        rewrite string_length_append; simpl; lia).
  apply substring_span.
Qed.

(** The span between the first opening and the last closing brace is what
    is kept of a text that has no backtick. *)
Lemma cleanJsonText_span (pre mid post : string) :
  Js.indexOf "`" (pre ++ "{" ++ mid ++ "}" ++ post) = None ->
  Js.indexOf "{" pre = None ->
  Js.lastIndexOf "}" post = None ->
  Report.cleanJsonText (pre ++ "{" ++ mid ++ "}" ++ post) = "{" ++ mid ++ "}".
Proof.
  intros Hb Hpre Hpost. unfold Report.cleanJsonText.
  rewrite (replace_json_fence_plain _ Hb), (replace_closing_fence_plain _ Hb).
  now apply span_first_last.
Qed.

(** A Markdown fence around an object is removed. *)
Lemma cleanJsonText_fenced (ws mid ws1 ws2 : string) :
  Js.all_space ws = true -> Js.all_space ws1 = true -> Js.all_space ws2 = true ->
  Js.indexOf "`" mid = None ->
  Report.cleanJsonText
    ("```json" ++ ws ++ "{" ++ mid ++ "}" ++ ws1 ++ "```" ++ ws2)
  = "{" ++ mid ++ "}".
Proof.
  intros Hws Hws1 Hws2 Hmid. unfold Report.cleanJsonText.
  assert (Hbody : Js.indexOf "`" ("{" ++ mid ++ "}" ++ ws1) = None).
  { repeat apply indexOf_append_none; auto.
    now apply all_space_indexOf. }
  replace (Js.replace_json_fence Js.Copy
             ("```json" ++ ws ++ "{" ++ mid ++ "}" ++ ws1 ++ "```" ++ ws2))
    with (("{" ++ mid ++ "}" ++ ws1) ++ "```" ++ ws2).
  2:{ change ("{" ++ mid ++ "}" ++ ws1 ++ "```" ++ ws2)
        with (String "{" (mid ++ "}" ++ ws1 ++ "```" ++ ws2)).
      rewrite replace_json_fence_opening by auto.
      replace (String "{" (mid ++ "}" ++ ws1 ++ "```" ++ ws2))
        with (("{" ++ mid ++ "}" ++ ws1) ++ "```" ++ ws2)
        by (rewrite !string_append_assoc; reflexivity).
      rewrite replace_json_fence_copy_app by exact Hbody.
      now rewrite replace_json_fence_closing. }
  rewrite replace_closing_fence_app by exact Hbody.
  rewrite replace_closing_fence_closing by assumption.
  rewrite string_append_empty_r.
  apply (span_first_last EmptyString mid ws1); [reflexivity|].
  now apply all_space_lastIndexOf.
Qed.


(** The second part of [generateReport] in part_009, on a response that is
    empty or does not parse: the message is stored, and nothing else
    changes. *)
Lemma generateReport_settle_unusable (R : Type) (JSON_parse : string -> option R)
  (s : Report.State R) (text : option string) :
  Report.unusable JSON_parse text ->
  exists message,
    Report.generateReport_settle JSON_parse Report.part_009
      (Report.Resolves text) s
    = Exn.Normal (Report.setGenerationError (Some message) s) /\
    (message = Report.emptyResponse \/ message = Report.parseFailed).
Proof.
  intros Hfail. unfold Report.unusable in Hfail.
  unfold Report.generateReport_settle.
  cbn [Exn.bind Exn.try_catch].
  destruct text as [t|].
  - destruct (Js.truthy t) eqn:Ht; cbn [negb].
    + destruct Hfail as [Hf|Hf]; [discriminate|]. rewrite Hf.
      cbn [Exn.try_catch Report.messageOf]. eexists. split; [reflexivity|].
      now right.
    + cbn [Exn.try_catch Report.messageOf]. eexists. split; [reflexivity|].
      now left.
  - cbn [Exn.try_catch Report.messageOf]. eexists. split; [reflexivity|].
    now left.
Qed.

(** No exception leaves the second part of [generateReport]. *)
Lemma generateReport_settle_normal (R : Type) (JSON_parse : string -> option R)
  (v : Report.Version) (call : Report.generateContent) (s : Report.State R) :
  exists s', Report.generateReport_settle JSON_parse v call s = Exn.Normal s'.
Proof.
  unfold Report.generateReport_settle.
  destruct v, call as [[t|]|e]; cbn [Exn.bind Exn.try_catch Js.or_else]; eauto.
  - destruct (Js.truthy t); cbn [negb Exn.try_catch]; eauto.
    destruct (JSON_parse (Report.cleanJsonText t)); cbn [Exn.try_catch]; eauto.
  - destruct (JSON_parse _); cbn [Exn.try_catch]; eauto.
  - destruct (JSON_parse _); cbn [Exn.try_catch]; eauto.
Qed.



(* ===================================================================== *)
(** ** The callback monad *)
(* ===================================================================== *)

Section MonadFacts.

Import Exn LiveInterview.

Lemma preserves_ret {A B} (f : State -> B) (a : A) : preserves f (ret a).
Proof. now intros s. Qed.

Lemma preserves_gets {A B} (f : State -> B) (g : State -> A) :
  preserves f (gets g).
Proof. now intros s. Qed.

Lemma preserves_throw {A B} (f : State -> B) (e : thrown) :
  preserves f (@throw A e).
Proof. now intros s. Qed.

Lemma preserves_modify {B} (f : State -> B) (g : State -> State) :
  (forall s, f (g s) = f s) -> preserves f (modify g).
Proof. intros H s. apply H. Qed.

Lemma preserves_bind {A B C} (f : State -> C) (c : M A) (k : A -> M B) :
  preserves f c -> (forall a, preserves f (k a)) -> preserves f (bind c k).
Proof.
  intros Hc Hk s. unfold bind. specialize (Hc s).
  destruct (c s) as [[a|e] s1]; simpl in *; [|exact Hc].
  now rewrite Hk.
Qed.

Lemma preserves_when {B} (f : State -> B) (b : bool) (c : M unit) :
  (b = true -> preserves f c) -> preserves f (when b c).
Proof. destruct b; intros H; [now apply H | apply preserves_ret]. Qed.

Lemma preserves_try_catch {A B} (f : State -> B) (c : M A) (h : thrown -> M A) :
  preserves f c -> (forall e, preserves f (h e)) -> preserves f (try_catch c h).
Proof.
  intros Hc Hh s. unfold try_catch. specialize (Hc s).
  destruct (c s) as [[a|e] s1]; simpl in *; [exact Hc|].
  now rewrite Hh.
Qed.

Lemma preserves_unobserved {B} (f : State -> B) (c : M unit) :
  preserves f c -> preserves f (unobserved c).
Proof. intros H s. apply H. Qed.

Lemma succeeds_ret {A} (a : A) : succeeds (ret a).
Proof. intros s. now exists a. Qed.

Lemma succeeds_gets {A} (g : State -> A) : succeeds (gets g).
Proof. intros s. now exists (g s). Qed.

Lemma succeeds_modify (g : State -> State) : succeeds (modify g).
Proof. intros s. now exists tt. Qed.

Lemma succeeds_bind {A B} (c : M A) (k : A -> M B) :
  succeeds c -> (forall a, succeeds (k a)) -> succeeds (bind c k).
Proof.
  intros Hc Hk s. unfold bind. destruct (Hc s) as [a Ha].
  destruct (c s) as [[a'|e] s1]; simpl in Ha; [|discriminate].
  apply Hk.
Qed.

Lemma succeeds_when (b : bool) (c : M unit) :
  (b = true -> succeeds c) -> succeeds (when b c).
Proof. destruct b; intros H; [now apply H | apply succeeds_ret]. Qed.

Lemma succeeds_try_catch {A} (c : M A) (h : thrown -> M A) :
  (forall e, succeeds (h e)) -> succeeds (try_catch c h).
Proof.
  intros Hh s. unfold try_catch.
  destruct (c s) as [[a|e] s1]; [now exists a | apply Hh].
Qed.

Lemma succeeds_unobserved (c : M unit) : succeeds (unobserved c).
Proof. intros s. now exists tt. Qed.

(** Sequencing after a callback that returns. *)
Lemma exec_bind {A} (c : M A) (k : A -> M unit) (s : State) (a : A) :
  fst (c s) = Normal a -> exec (bind c k) s = exec (k a) (snd (c s)).
Proof.
  unfold exec, bind. destruct (c s) as [[a'|e] s1]; simpl; intros H;
    [now inversion H | discriminate].
Qed.

Lemma exec_seq (c1 c2 : M unit) (s : State) :
  succeeds c1 -> exec (c1 ;; c2) s = exec c2 (exec c1 s).
Proof.
  intros H. destruct (H s) as [[] Ha]. now rewrite (exec_bind _ _ _ _ Ha).
Qed.

End MonadFacts.

Ltac preserves_tac :=
  repeat (intros;
    match goal with
    | |- LiveInterview.preserves _ (LiveInterview.bind _ _) => apply preserves_bind
    | |- LiveInterview.preserves _ (LiveInterview.ret _) => apply preserves_ret
    | |- LiveInterview.preserves _ (LiveInterview.gets _) => apply preserves_gets
    | |- LiveInterview.preserves _ (LiveInterview.throw _) => apply preserves_throw
    | |- LiveInterview.preserves _ (LiveInterview.modify _) =>
        apply preserves_modify; intros []; reflexivity
    | |- LiveInterview.preserves _ (LiveInterview.when _ _) => apply preserves_when
    | |- LiveInterview.preserves _ (LiveInterview.try_catch _ _) => apply preserves_try_catch
    | |- LiveInterview.preserves _ (LiveInterview.unobserved _) => apply preserves_unobserved
    | |- LiveInterview.preserves _ (match ?x with _ => _ end) => destruct x
    end).

Ltac succeeds_tac :=
  repeat (intros;
    match goal with
    | |- LiveInterview.succeeds (LiveInterview.bind _ _) => apply succeeds_bind
    | |- LiveInterview.succeeds (LiveInterview.ret _) => apply succeeds_ret
    | |- LiveInterview.succeeds (LiveInterview.gets _) => apply succeeds_gets
    | |- LiveInterview.succeeds (LiveInterview.modify _) => apply succeeds_modify
    | |- LiveInterview.succeeds (LiveInterview.when _ _) => apply succeeds_when
    | |- LiveInterview.succeeds (LiveInterview.try_catch _ _) => apply succeeds_try_catch
    | |- LiveInterview.succeeds (LiveInterview.unobserved _) => apply succeeds_unobserved
    | |- LiveInterview.succeeds (match ?x with _ => _ end) => destruct x
    end).

Section Handlers.

Import Exn LiveInterview.

Lemma run_continuation_succeeds v k : succeeds (run_continuation v k).
Proof. unfold run_continuation. succeeds_tac. Qed.

Lemma then_succeeds v k : succeeds (then_ v k).
Proof. unfold then_. succeeds_tac. Qed.

Lemma onToolCall_succeeds m : succeeds (onToolCall m).
Proof. unfold onToolCall. succeeds_tac. intros. apply then_succeeds. Qed.

Lemma onTranscription_succeeds r t : succeeds (onTranscription r t).
Proof. unfold onTranscription. succeeds_tac. Qed.

Lemma onInterrupted_succeeds m t : succeeds (onInterrupted m t).
Proof. unfold onInterrupted. succeeds_tac. Qed.

End Handlers.

(* ===================================================================== *)
(** ** The transcript *)
(* ===================================================================== *)

Section Transcript.

Import Exn LiveInterview.
Local Open Scope list_scope.

Lemma appendChat_nil (r : Role) (d : string) :
  appendChat r d [] = [ {| role := r; text := d |} ].
Proof. reflexivity. Qed.

Lemma appendChat_last (r : Role) (d : string) (h : list ChatMessage)
  (e : ChatMessage) :
  appendChat r d (h ++ [e]) =
  if Role_eqb (role e) r
  then h ++ [ {| role := role e; text := (text e ++ d)%string |} ]
  else h ++ [ e; {| role := r; text := d |} ].
Proof.
  unfold appendChat. rewrite length_app. simpl List.length.
  replace (List.length h + 1 - 1) with (List.length h) by lia.
  rewrite nth_error_app2 by lia. rewrite Nat.sub_diag. simpl nth_error.
  cbv beta iota. destruct (Role_eqb (role e) r).
  - rewrite firstn_app, firstn_all, Nat.sub_diag. simpl.
    now rewrite app_nil_r.
  - now rewrite <- app_assoc.
Qed.

(** The entries before the last one stay where they are. *)
Lemma appendChat_keeps_prefix (r : Role) (d : string) (h : list ChatMessage) :
  firstn (List.length h - 1) (appendChat r d h) = firstn (List.length h - 1) h.
Proof.
  induction h as [|e h _] using rev_ind; [reflexivity|].
  rewrite appendChat_last, length_app. simpl List.length.
  replace (List.length h + 1 - 1) with (List.length h) by lia.
  destruct (Role_eqb (role e) r);
    rewrite !firstn_app, !firstn_all, Nat.sub_diag; reflexivity.
Qed.

Lemma fullText_app (a b : list ChatMessage) :
  fullText (a ++ b) = (fullText a ++ fullText b)%string.
Proof.
  induction a as [|e a IH]; simpl; [reflexivity|].
  now rewrite IH, string_append_assoc.
Qed.

Lemma fullText_appendChat (r : Role) (d : string) (h : list ChatMessage) :
  fullText (appendChat r d h) = (fullText h ++ d)%string.
Proof.
  induction h as [|e h _] using rev_ind; [apply string_append_empty_r|].
  rewrite appendChat_last.
  destruct (Role_eqb (role e) r); rewrite !fullText_app; simpl;
    rewrite ?string_append_empty_r, ?string_append_assoc; reflexivity.
Qed.

Lemma fullText_appendAll (deltas : list (Role * string)) (h : list ChatMessage) :
  fullText (appendAll deltas h)
  = (fullText h ++ String.concat EmptyString (map snd deltas))%string.
Proof.
  revert h. induction deltas as [|[r d] deltas IH]; intros h.
  - simpl. now rewrite string_append_empty_r.
  - unfold appendAll in *. simpl fold_left. rewrite IH, fullText_appendChat.
    rewrite string_append_assoc. f_equal.
    simpl. destruct deltas as [|x deltas]; simpl;
      [now rewrite string_append_empty_r | reflexivity].
Qed.

Lemma appendAll_app (a b : list (Role * string)) (h : list ChatMessage) :
  appendAll (a ++ b) h = appendAll b (appendAll a h).
Proof. apply fold_left_app. Qed.

Lemma onTranscription_chat (r : Role) (t : option string) (s : State) :
  chatHistory (exec (onTranscription r t) s)
  = appendAll (delta_of r t) (chatHistory s).
Proof. destruct t as [[|c d]|]; destruct s; reflexivity. Qed.

Lemma onToolCall_preserves_chat m : preserves chatHistory (onToolCall m).
Proof.
  unfold onToolCall, then_, run_continuation, session_send, session_close.
  preserves_tac.
Qed.

Lemma playback_preserves_chat m t :
  preserves chatHistory (onAudio m t ;; onInterrupted m t).
Proof.
  unfold onAudio, onInterrupted, decodeAudioData. preserves_tac.
Qed.

Lemma onmessage_mounted (v : Revision) (m : LiveServerMessage) (t : Z)
  (s : State) :
  isMounted s = true ->
  exec (step v (Message m t)) s
  = exec (onAudio m t ;; onInterrupted m t)
      (exec (onTranscription user (inputTranscription m))
         (exec (onTranscription ai (outputTranscription m))
            (exec (match v with part_003 => onToolCall m | components => ret tt end)
               s))).
Proof.
  intros Hm. unfold step, onmessage.
  change (exec (unobserved ?c) s) with (exec c s).
  rewrite (exec_bind _ _ s true) by (simpl; now rewrite Hm).
  cbn [when gets snd].
  rewrite exec_seq by (destruct v; [apply onToolCall_succeeds | apply succeeds_ret]).
  rewrite exec_seq by apply onTranscription_succeeds.
  rewrite exec_seq by apply onTranscription_succeeds.
  reflexivity.
Qed.

Lemma onmessage_unmounted (v : Revision) (m : LiveServerMessage) (t : Z)
  (s : State) :
  isMounted s = false -> exec (step v (Message m t)) s = s.
Proof.
  intros Hm. unfold step, onmessage, exec, unobserved, bind, gets, when.
  simpl. now rewrite Hm.
Qed.

Lemma message_preserves_isMounted v m t :
  preserves isMounted (step v (Message m t)).
Proof.
  unfold step, onmessage, onToolCall, onTranscription, onAudio, onInterrupted,
    decodeAudioData, then_, run_continuation, session_send, session_close.
  preserves_tac.
Qed.

Lemma onmessage_chat (v : Revision) (m : LiveServerMessage) (t : Z) (s : State) :
  isMounted s = true ->
  chatHistory (exec (step v (Message m t)) s)
  = appendAll (deltas_of m) (chatHistory s).
Proof.
  intros Hm. rewrite onmessage_mounted by assumption.
  unfold exec at 1. rewrite playback_preserves_chat.
  rewrite !onTranscription_chat. unfold deltas_of. rewrite appendAll_app.
  do 2 f_equal. destruct v; [apply onToolCall_preserves_chat | reflexivity].
Qed.

Lemma run_chat (v : Revision) (msgs : list (LiveServerMessage * Z)) (s : State) :
  isMounted s = true ->
  chatHistory (run v (deliver msgs) s)
  = appendAll (flat_map deltas_of (map fst msgs)) (chatHistory s).
Proof.
  revert s. induction msgs as [|[m t] msgs IH]; intros s Hm; [reflexivity|].
  change (run v (deliver ((m, t) :: msgs)) s)
    with (run v (deliver msgs) (exec (step v (Message m t)) s)).
  rewrite IH.
  - rewrite onmessage_chat by assumption. cbn [map flat_map fst].
    now rewrite appendAll_app.
  - unfold exec. now rewrite message_preserves_isMounted.
Qed.

End Transcript.

Section TranscriptClaims.

Import Exn LiveInterview.
Local Open Scope list_scope.

(** C3.  The transcript accumulator merges a delta into the last entry
    when the roles agree and opens a new entry otherwise; the handler
    applies this to the non-empty deltas of the messages in the order they
    come; "Hi" then " there" from the interviewer make the one entry
    "Hi there"; the entries before the last one keep their place, and the
    texts read in order are the old texts followed by the deltas. *)
Theorem transcript_merges_by_role :
  (forall r d, appendChat r d [] = [ {| role := r; text := d |} ]) /\
  (forall r d h e,
      appendChat r d (h ++ [e]) =
      if Role_eqb (role e) r
      then h ++ [ {| role := role e; text := (text e ++ d)%string |} ]
      else h ++ [ e; {| role := r; text := d |} ]) /\
  (forall v msgs s,
      isMounted s = true ->
      chatHistory (run v (deliver msgs) s)
      = appendAll (flat_map deltas_of (map fst msgs)) (chatHistory s)) /\
  (forall v t1 t2,
      chatHistory (run v (deliver [(says ai "Hi", t1); (says ai " there", t2)]) initial)
      = [ {| role := ai; text := "Hi there" |} ]) /\
  (forall r d h,
      firstn (List.length h - 1) (appendChat r d h)
      = firstn (List.length h - 1) h) /\
  (forall deltas h,
      fullText (appendAll deltas h)
      = (fullText h ++ String.concat EmptyString (map snd deltas))%string).
Proof.
  split; [exact appendChat_nil|].
  split; [exact appendChat_last|].
  split; [exact run_chat|].
  split; [|split; [exact appendChat_keeps_prefix | exact fullText_appendAll]].
  intros v t1 t2. rewrite run_chat by reflexivity. reflexivity.
Qed.

(** The theorem at a conversation of three deltas: the interviewer's two
    are merged, the candidate's opens a second entry. *)
Lemma transcript_merges_by_role_witness :
  chatHistory
    (run part_003
       (deliver [(says ai "Hi", 0%Z); (says ai " there", 5%Z);
                 (says user "Hello", 9%Z)])
       initial)
  = [ {| role := ai; text := "Hi there" |};
      {| role := user; text := "Hello" |} ].
Proof.
  destruct transcript_merges_by_role as (_ & _ & Hrun & _).
  rewrite (Hrun part_003) by reflexivity. reflexivity.
Defined.

(** C9.  An empty delta changes nothing: the block that handles a
    transcription returns the state it was given, and a message whose
    transcriptions are empty or absent leaves the chat history, entry by
    entry, as it was. *)
Theorem empty_delta_is_noop :
  (forall r s, onTranscription r (Some EmptyString) s = (Normal tt, s)) /\
  (forall v m t s,
      Js.truthy_opt (outputTranscription m) = false ->
      Js.truthy_opt (inputTranscription m) = false ->
      chatHistory (exec (step v (Message m t)) s) = chatHistory s).
Proof.
  split; [reflexivity|].
  intros v m t s Ho Hi.
  destruct (isMounted s) eqn:Hm.
  - rewrite onmessage_chat by assumption. unfold deltas_of.
    destruct (outputTranscription m) as [o|], (inputTranscription m) as [i|];
      simpl in *; rewrite ?Ho, ?Hi; reflexivity.
  - now rewrite onmessage_unmounted.
Qed.

(** The theorem at a history of one entry and a message with two empty
    transcriptions. *)
Lemma empty_delta_is_noop_witness :
  let s := run part_003 (deliver [(says ai "Hi", 0%Z)]) initial in
  let m := {| toolCall := None;
              outputTranscription := Some EmptyString;
              inputTranscription := Some EmptyString;
              inlineData := None; interrupted := false |} in
  chatHistory (exec (step part_003 (Message m 3%Z)) s)
  = [ {| role := ai; text := "Hi" |} ].
Proof.
  intros s m.
  rewrite (proj2 empty_delta_is_noop part_003 m 3%Z s eq_refl eq_refl).
  reflexivity.
Defined.

(** C10.  [handleEndCall] hands [onEndInterview] the sentinel when the
    accumulated transcript is empty, and the transcript itself
    otherwise. *)
Theorem handleEndCall_sentinel (s : State) :
  (transcriptRef s = EmptyString ->
   handleEndCall s = "No transcript available.") /\
  (transcriptRef s <> EmptyString -> handleEndCall s = transcriptRef s).
Proof.
  unfold handleEndCall. destruct (transcriptRef s); simpl; split; congruence.
Qed.

(** The theorem before any message and after one. *)
Lemma handleEndCall_sentinel_witness :
  handleEndCall initial = "No transcript available." /\
  handleEndCall (run part_003 (deliver [(says ai "Hello", 0%Z)]) initial)
  = "Hello".
Proof.
  split.
  - apply (proj1 (handleEndCall_sentinel initial)). reflexivity.
  - apply (proj2 (handleEndCall_sentinel
                    (run part_003 (deliver [(says ai "Hello", 0%Z)]) initial))).
    vm_compute. discriminate.
Defined.

End TranscriptClaims.

(* ===================================================================== *)
(** ** The playback scheduler *)
(* ===================================================================== *)

Section Playback.

Import Exn LiveInterview.
Local Open Scope list_scope.
Local Open Scope Z_scope.

Lemma added_app {A} (l extra : list A) : added l (l ++ extra) = extra.
Proof.
  unfold added. rewrite skipn_app, skipn_all, Nat.sub_diag. reflexivity.
Qed.

Lemma starts_of_app (a b : list AudioCommand) :
  starts_of (a ++ b) = starts_of a ++ starts_of b.
Proof.
  induction a as [|[id w d|id] a IH]; simpl; [reflexivity| |]; now rewrite IH.
Qed.

Lemma onAudio_buffer (m : LiveServerMessage) (t d : Z) (s : State) :
  inlineData m = Some (AudioBuffer d) -> audioContextRef s = true ->
  onAudio m t s =
  (Normal tt,
   set_sourcesRef (sourcesRef s ++ [nextSource s])
     (set_nextStartTimeRef (Z.max t (nextStartTimeRef s) + d)
        (set_speaker
           (speaker s ++ [Start (nextSource s) (Z.max t (nextStartTimeRef s)) d])
           (set_nextSource (S (nextSource s)) s)))).
Proof.
  intros Hd Hc. unfold onAudio. rewrite Hd.
  destruct s; simpl in *; subst. reflexivity.
Qed.

Lemma onAudio_none (m : LiveServerMessage) (t : Z) (s : State) :
  inlineData m = None -> onAudio m t s = (Normal tt, s).
Proof. intros Hd. unfold onAudio. now rewrite Hd. Qed.

Lemma onInterrupted_false (m : LiveServerMessage) (t : Z) (s : State) :
  interrupted m = false -> onInterrupted m t s = (Normal tt, s).
Proof. intros Hi. unfold onInterrupted. now rewrite Hi. Qed.

Lemma onInterrupted_true (m : LiveServerMessage) (t : Z) (s : State) :
  interrupted m = true -> audioContextRef s = true ->
  onInterrupted m t s =
  (Normal tt,
   set_nextStartTimeRef t
     (set_sourcesRef []
        (set_speaker (speaker s ++ map Stop (sourcesRef s))
           (set_transcriptRef
              (transcriptRef s ++ newline ++ "[Interruption]" ++ newline)%string
              s)))).
Proof.
  intros Hi Hc. unfold onInterrupted. rewrite Hi.
  destruct s; simpl in *; subst. reflexivity.
Qed.

Lemma onToolCall_preserves_playback m : preserves playback (onToolCall m).
Proof.
  unfold onToolCall, then_, run_continuation, session_send, session_close.
  preserves_tac.
Qed.

Lemma onTranscription_preserves_playback r t :
  preserves playback (onTranscription r t).
Proof. unfold onTranscription. preserves_tac. Qed.

(** What precedes the audio in the handler does not touch the scheduler. *)
Lemma prelude_preserves_playback (v : Revision) (m : LiveServerMessage)
  (s : State) :
  playback
    (exec (onTranscription user (inputTranscription m))
       (exec (onTranscription ai (outputTranscription m))
          (exec (match v with part_003 => onToolCall m | components => ret tt end)
             s)))
  = playback s.
Proof.
  unfold exec. rewrite !onTranscription_preserves_playback.
  destruct v; [apply onToolCall_preserves_playback | reflexivity].
Qed.

Lemma message_schedules (v : Revision) (m : LiveServerMessage) (t d : Z)
  (s : State) :
  isMounted s = true -> audioContextRef s = true ->
  inlineData m = Some (AudioBuffer d) -> interrupted m = false ->
  let s' := exec (step v (Message m t)) s in
  speaker s' = speaker s ++ [Start (nextSource s) (Z.max t (nextStartTimeRef s)) d] /\
  nextStartTimeRef s' = Z.max t (nextStartTimeRef s) + d /\
  nextSource s' = S (nextSource s) /\
  sourcesRef s' = sourcesRef s ++ [nextSource s] /\
  audioContextRef s' = true /\
  isMounted s' = true.
Proof.
  intros Hm Hc Hd Hi s'. subst s'. rewrite onmessage_mounted by assumption.
  pose proof (prelude_preserves_playback v m s) as Hp.
  set (s3 := exec (onTranscription user _) _) in *.
  assert (Hc3 : audioContextRef s3 = true)
    by (unfold playback in Hp; congruence).
  rewrite (exec_bind _ _ s3 tt)
    by (rewrite (onAudio_buffer m t d) by assumption; reflexivity).
  rewrite (onAudio_buffer m t d) by assumption.
  unfold exec. rewrite onInterrupted_false by assumption.
  unfold playback in Hp. clear Hc3.
  destruct s3; simpl in *. repeat split; congruence.
Qed.

Lemma run_schedules (v : Revision) (msgs : list (LiveServerMessage * Z))
  (segs : list (Z * Z)) (s : State) :
  isMounted s = true -> audioContextRef s = true ->
  Forall2 carries msgs segs ->
  exists cmds,
    speaker (run v (deliver msgs) s) = speaker s ++ cmds /\
    starts_of cmds = schedule (nextStartTimeRef s) segs.
Proof.
  intros Hm Hc H. revert s Hm Hc.
  induction H as [|[m t] [t' d] msgs segs (Hd & Ht & Hi) _ IH]; intros s Hm Hc.
  - exists []. now rewrite app_nil_r.
  - simpl in Hd, Ht, Hi. subst t'.
    change (run v (deliver ((m, t) :: msgs)) s)
      with (run v (deliver msgs) (exec (step v (Message m t)) s)).
    destruct (message_schedules v m t d s Hm Hc Hd Hi)
      as (H1 & H2 & H3 & H4 & H5 & H6).
    destruct (IH _ H6 H5) as (cmds & Hsp & Hst).
    exists (Start (nextSource s) (Z.max t (nextStartTimeRef s)) d :: cmds).
    split.
    + rewrite Hsp, H1, <- app_assoc. reflexivity.
    + simpl. now rewrite Hst, H2.
Qed.

(** The rule, on its own: each start is the later of the arrival and the
    end of the segment before. *)
Lemma schedule_next (segs : list (Z * Z)) (next : Z) (i : nat)
  (a da b db now d : Z) :
  nth_error (schedule next segs) i = Some (a, da) ->
  nth_error (schedule next segs) (S i) = Some (b, db) ->
  nth_error segs (S i) = Some (now, d) ->
  b = Z.max now (a + da).
Proof.
  revert next i. induction segs as [|[t0 d0] segs IH]; intros next i Ha Hb Hn.
  - destruct i; discriminate.
  - destruct i as [|i].
    + simpl in Ha. inversion Ha; subst. simpl in Hb, Hn.
      destruct segs as [|[t1 d1] segs]; [discriminate|].
      simpl in Hb, Hn. inversion Hb; inversion Hn; subst. reflexivity.
    + simpl in Ha, Hb, Hn. eapply IH; eauto.
Qed.

Lemma schedule_duration (segs : list (Z * Z)) (next : Z) (i : nat) (a da : Z) :
  nth_error (schedule next segs) i = Some (a, da) ->
  exists now, nth_error segs i = Some (now, da).
Proof.
  revert next i. induction segs as [|[t0 d0] segs IH]; intros next i Ha.
  - destruct i; discriminate.
  - destruct i as [|i]; simpl in Ha.
    + inversion Ha; subst. now exists t0.
    + simpl. eapply IH; eauto.
Qed.

End Playback.

Section PlaybackClaims.

Import Exn LiveInterview.
Local Open Scope list_scope.
Local Open Scope Z_scope.

(** C1.  For segments received without an interruption the handler
    starts each one at the later of the output clock and [nextStartTime]
    and moves [nextStartTime] to the end of that segment; the starts so
    scheduled never decrease, no segment starts before the one before it
    ends, and a segment that arrives before the one before it has ended
    starts exactly where that one ends. *)
Theorem playback_is_gapless (v : Revision) (s : State)
  (msgs : list (LiveServerMessage * Z)) (segs : list (Z * Z)) :
  isMounted s = true -> audioContextRef s = true ->
  Forall2 carries msgs segs ->
  Forall (fun seg => 0 <= snd seg) segs ->
  let sched := starts_of (added (speaker s) (speaker (run v (deliver msgs) s))) in
  sched = schedule (nextStartTimeRef s) segs /\
  (forall m t d,
      carries (m, t) (t, d) ->
      let s' := exec (step v (Message m t)) s in
      starts_of (added (speaker s) (speaker s'))
        = [(Z.max t (nextStartTimeRef s), d)] /\
      nextStartTimeRef s' = Z.max t (nextStartTimeRef s) + d) /\
  (forall i a da b db now d,
      nth_error sched i = Some (a, da) ->
      nth_error sched (S i) = Some (b, db) ->
      nth_error segs (S i) = Some (now, d) ->
      a <= b /\ a + da <= b /\ (now <= a + da -> b = a + da)).
Proof.
  intros Hm Hc Hcar Hpos sched.
  assert (Hsched : sched = schedule (nextStartTimeRef s) segs).
  { subst sched. destruct (run_schedules v msgs segs s Hm Hc Hcar)
      as (cmds & Hsp & Hst).
    now rewrite Hsp, added_app. }
  split; [exact Hsched|]. split.
  - intros m t d (Hd & _ & Hi) s'. simpl in Hd, Hi.
    destruct (message_schedules v m t d s Hm Hc Hd Hi) as (H1 & H2 & _).
    subst s'. rewrite H1, added_app. now split.
  - intros i a da b db now d Ha Hb Hn. rewrite Hsched in Ha, Hb.
    pose proof (schedule_next _ _ _ _ _ _ _ _ _ Ha Hb Hn) as ->.
    destruct (schedule_duration _ _ _ _ _ Ha) as (ta & Hta).
    assert (0 <= da).
    { rewrite Forall_forall in Hpos.
      apply (Hpos (ta, da)). eapply nth_error_In; eauto. }
    lia.
Qed.

(** The theorem at three segments of 4800 frames: the second arrives
    while the first plays, the third after the second has ended. *)
Lemma playback_is_gapless_witness :
  starts_of
    (added (speaker initial)
       (speaker (run part_003
                   (deliver [(plays 4800, 100); (plays 4800, 2500);
                             (plays 4800, 12000)])
                   initial)))
  = [(100, 4800); (4900, 4800); (12000, 4800)].
Proof.
  pose proof (playback_is_gapless part_003 initial
                [(plays 4800, 100); (plays 4800, 2500); (plays 4800, 12000)]
                [(100, 4800); (2500, 4800); (12000, 4800)]
                eq_refl eq_refl) as H.
  assert (Hc : Forall2 carries
                 [(plays 4800, 100); (plays 4800, 2500); (plays 4800, 12000)]
                 [(100, 4800); (2500, 4800); (12000, 4800)])
    by (repeat constructor).
  assert (Hp : Forall (fun seg : Z * Z => 0 <= snd seg)
                 [(100, 4800); (2500, 4800); (12000, 4800)])
    by (repeat constructor; simpl; lia).
  destruct (H Hc Hp) as (Hs & _). rewrite Hs. reflexivity.
Defined.

End PlaybackClaims.

Section Interruption.

Import Exn LiveInterview.
Local Open Scope list_scope.
Local Open Scope Z_scope.

Lemma message_interrupts (v : Revision) (m : LiveServerMessage) (t : Z)
  (s : State) :
  isMounted s = true -> audioContextRef s = true ->
  interrupted m = true -> inlineData m <> Some DecodeError ->
  let s' := exec (step v (Message m t)) s in
  sourcesRef s' = [] /\
  nextStartTimeRef s' = t /\
  audioContextRef s' = true /\
  isMounted s' = true /\
  speaker s' =
    speaker s ++
    match inlineData m with
    | Some (AudioBuffer d) =>
        Start (nextSource s) (Z.max t (nextStartTimeRef s)) d
          :: map Stop (sourcesRef s ++ [nextSource s])
    | _ => map Stop (sourcesRef s)
    end.
Proof.
  intros Hm Hc Hi Hd s'. subst s'. rewrite onmessage_mounted by assumption.
  pose proof (prelude_preserves_playback v m s) as Hp.
  set (s3 := exec (onTranscription user _) _) in *.
  assert (Hc3 : audioContextRef s3 = true)
    by (unfold playback in Hp; congruence).
  unfold playback in Hp.
  destruct (inlineData m) as [[d|]|] eqn:E; [| congruence |].
  - rewrite (exec_bind _ _ s3 tt)
      by (rewrite (onAudio_buffer m t d) by assumption; reflexivity).
    rewrite (onAudio_buffer m t d) by assumption.
    unfold exec. rewrite onInterrupted_true
      by (try assumption; destruct s3; assumption).
    clear Hc3. destruct s3; simpl in *.
    repeat split; try congruence.
    rewrite <- app_assoc. simpl. congruence.
  - rewrite (exec_bind _ _ s3 tt) by (now rewrite onAudio_none).
    rewrite onAudio_none by assumption.
    unfold exec. rewrite onInterrupted_true by assumption.
    clear Hc3. destruct s3; simpl in *.
    repeat split; congruence.
Qed.

Lemma run_all_preserves {B} (f : State -> B) (v : Revision)
  (ks : list Continuation) :
  (forall k, preserves f (run_continuation v k)) ->
  preserves f (run_all v ks).
Proof.
  intros H. induction ks as [|k ks IH]; simpl; preserves_tac; auto.
Qed.

Lemma run_continuation_preserves_scheduler v k :
  preserves schedulerCells (run_continuation v k).
Proof.
  unfold run_continuation, session_send, session_close. preserves_tac.
Qed.

(** A quiet event leaves [nextStartTime], the output context and the
    mounted flag as they were. *)
Lemma quiet_preserves_scheduler (v : Revision) (e : Event) (s : State) :
  quiet e = true ->
  schedulerCells (exec (step v e) s) = schedulerCells s.
Proof.
  intros Hq. destruct e; try discriminate.
  - unfold exec. revert s. change (preserves schedulerCells (step v Open)).
    unfold step, onopen. preserves_tac.
  - unfold exec. revert s.
    change (preserves schedulerCells (step v (Settle fulfilled))).
    unfold step, onConnectFailure. preserves_tac.
    all: intros; apply run_all_preserves;
      apply run_continuation_preserves_scheduler.
  - simpl in Hq. destruct (inlineData m) eqn:Hd; [discriminate|].
    apply negb_true_iff in Hq.
    destruct (isMounted s) eqn:Hm; [|now rewrite onmessage_unmounted].
    rewrite onmessage_mounted by assumption.
    pose proof (prelude_preserves_playback v m s) as Hp.
    set (s3 := exec (onTranscription user _) _) in *.
    rewrite (exec_bind _ _ s3 tt) by (now rewrite onAudio_none).
    rewrite onAudio_none by assumption.
    unfold exec. rewrite onInterrupted_false by assumption.
    unfold playback in Hp. unfold schedulerCells. simpl. congruence.
  - unfold exec. revert s. change (preserves schedulerCells (step v Close)).
    unfold step, onclose. preserves_tac.
  - unfold exec. revert s.
    change (preserves schedulerCells (step v (Error errorMessage))).
    unfold step, onerror. preserves_tac.
  - unfold exec. revert s.
    change (preserves schedulerCells (step v (AudioProcess rms base64Data))).
    unfold step, onaudioprocess, then_, run_continuation, session_send.
    preserves_tac.
  - unfold exec. revert s.
    change (preserves schedulerCells (step v (VideoTick domReady base64Image))).
    unfold step, onVideoInterval, then_, run_continuation, session_send.
    preserves_tac.
  - unfold exec. revert s.
    change (preserves schedulerCells (step v (SourceEnded source))).
    unfold step, onended. preserves_tac.
  - unfold exec. revert s.
    change (preserves schedulerCells (step v ToggleMic)).
    unfold step, toggleMic. preserves_tac.
Qed.

Lemma quiet_run_preserves_scheduler (v : Revision) (events : list Event)
  (s : State) :
  forallb quiet events = true ->
  schedulerCells (run v events s) = schedulerCells s.
Proof.
  revert s. induction events as [|e events IH]; intros s H; [reflexivity|].
  simpl in H. apply andb_prop in H as [He Hes]. simpl.
  rewrite IH by assumption. now apply quiet_preserves_scheduler.
Qed.

End Interruption.

Section Accounting.

Import Exn LiveInterview.
Local Open Scope list_scope.
Local Open Scope Z_scope.

Lemma run_app (v : Revision) (a b : list Event) (s : State) :
  run v (a ++ b) s = run v b (run v a s).
Proof. revert s. induction a as [|e a IH]; intros s; simpl; auto. Qed.

Lemma accounted_more (history extra : list Event) (s : State) :
  accounted history s -> accounted (history ++ extra) s.
Proof.
  intros H id w d Hin. destruct (H id w d Hin) as [|[|]]; auto.
  right. right. apply in_or_app. now left.
Qed.

Lemma accounted_same_pending (history : list Event) (s s' : State) :
  pendingView s' = pendingView s -> accounted history s -> accounted history s'.
Proof.
  unfold pendingView, accounted. intros H Hacc id w d.
  injection H as -> ->. apply Hacc.
Qed.

Ltac in_list :=
  repeat match goal with
         | H : In _ (_ ++ _) |- _ => apply in_app_or in H; destruct H
         | H : In _ (_ :: _) |- _ => destruct H
         | H : In _ [] |- _ => destruct H
         | H : In _ (map Stop _) |- _ =>
             apply in_map_iff in H; destruct H as (? & ? & ?)
         | H : Start _ _ _ = Start _ _ _ |- _ => injection H as ? ? ?; subst
         | H : Stop _ = Start _ _ _ |- _ => discriminate H
         end.

(** The audio and interruption parts of the handler keep the account. *)
Lemma playback_accounted (history : list Event) (m : LiveServerMessage)
  (t : Z) (s : State) :
  accounted history s ->
  accounted history (exec (onAudio m t ;; onInterrupted m t) s).
Proof.
  intros Hacc. unfold accounted in *.
  unfold onAudio, onInterrupted, decodeAudioData, exec.
  destruct s; simpl in *.
  destruct (inlineData m) as [[dur|]|], audioContextRef0, (interrupted m);
    simpl; intros id w d Hin; in_list;
    try (destruct (Hacc id w d ltac:(assumption)) as [|[|]];
         [ first [ now left
                 | right; left; apply in_or_app; right; apply in_map;
                   solve [assumption | apply in_or_app; now left]
                 | left; apply in_or_app; now left ]
         | right; left; repeat (apply in_or_app; left); assumption
         | now right; right ]);
    try (first [ left; apply in_or_app; right; now left
               | right; left; apply in_or_app; right; apply in_map;
                 apply in_or_app; right; now left ]).
Qed.

Lemma message_accounted (v : Revision) (history : list Event)
  (m : LiveServerMessage) (t : Z) (s : State) :
  accounted history s -> accounted history (exec (step v (Message m t)) s).
Proof.
  intros Hacc. destruct (isMounted s) eqn:Hm;
    [|now rewrite onmessage_unmounted].
  rewrite onmessage_mounted by assumption.
  apply playback_accounted.
  eapply accounted_same_pending; [|exact Hacc].
  pose proof (prelude_preserves_playback v m s) as Hp.
  unfold playback in Hp. unfold pendingView. congruence.
Qed.

Lemma run_continuation_preserves_pending v k :
  preserves pendingView (run_continuation v k).
Proof.
  unfold run_continuation, session_send, session_close. preserves_tac.
Qed.

Lemma step_accounted (v : Revision) (history : list Event) (e : Event)
  (s : State) :
  accounted history s -> accounted (history ++ [e]) (exec (step v e) s).
Proof.
  intros Hacc.
  assert (Hsame : forall e', preserves pendingView (step v e') ->
                             accounted (history ++ [e']) (exec (step v e') s)).
  { intros e' Hp. apply accounted_more.
    eapply accounted_same_pending; [apply Hp | exact Hacc]. }
  destruct e.
  - apply Hsame. unfold step, onopen. preserves_tac.
  - apply Hsame. unfold step, onConnectFailure. preserves_tac.
    all: intros; apply run_all_preserves;
      apply run_continuation_preserves_pending.
  - apply accounted_more. now apply message_accounted.
  - apply Hsame. unfold step, onclose. preserves_tac.
  - apply Hsame. unfold step, onerror. preserves_tac.
  - apply Hsame.
    unfold step, onaudioprocess, then_, run_continuation, session_send.
    preserves_tac.
  - apply Hsame.
    unfold step, onVideoInterval, then_, run_continuation, session_send.
    preserves_tac.
  - intros id w d Hin. destruct s; simpl in *.
    destruct (Hacc id w d Hin) as [Hs|[Hs|Hs]].
    + destruct (Nat.eqb id source) eqn:E.
      * apply Nat.eqb_eq in E. subst. right. right.
        apply in_or_app. right. now left.
      * left. apply filter_In. split; [assumption|]. now rewrite E.
    + now right; left.
    + right. right. apply in_or_app. now left.
  - apply Hsame. unfold step, toggleMic. preserves_tac.
  - apply Hsame.
    unfold step, cleanup, then_, run_continuation, session_send, session_close.
    preserves_tac.
Qed.

(** In every state the component reaches, a source that was started is
    in the pending set, or was stopped, or has ended by itself. *)
Lemma reachable_accounted (v : Revision) (history : list Event) :
  accounted history (run v history initial).
Proof.
  induction history as [|e history IH] using rev_ind.
  - intros id w d Hin. destruct Hin.
  - rewrite run_app. simpl. now apply step_accounted.
Qed.

End Accounting.

Section InterruptionClaim.

Import Exn LiveInterview.
Local Open Scope list_scope.
Local Open Scope Z_scope.

(** C2.  Handling an interruption signal stops every source of the
    pending set, the one scheduled by the same message included, empties
    the set and puts [nextStartTime] at the output clock; where every
    started source was accounted for before, each one has now been
    stopped or had ended by itself; the segment scheduled next, after any
    events that neither play nor interrupt, starts no earlier than the
    interruption and no earlier than its own arrival. *)
Theorem interruption_stops_and_resets (v : Revision) (s : State)
  (m : LiveServerMessage) (t : Z) :
  isMounted s = true -> audioContextRef s = true ->
  interrupted m = true -> inlineData m <> Some DecodeError ->
  let s' := exec (step v (Message m t)) s in
  sourcesRef s' = [] /\
  nextStartTimeRef s' = t /\
  (forall id, In id (sourcesRef s) -> In (Stop id) (added (speaker s) (speaker s'))) /\
  (forall id w d,
      In (Start id w d) (added (speaker s) (speaker s')) ->
      In (Stop id) (added (speaker s) (speaker s'))) /\
  (forall history,
      accounted history s ->
      forall id w d,
        In (Start id w d) (speaker s') ->
        In (Stop id) (speaker s') \/ In (SourceEnded id) history) /\
  (forall events m2 t2 d2,
      forallb quiet events = true ->
      inlineData m2 = Some (AudioBuffer d2) ->
      let s2 := run v events s' in
      exists id w rest,
        added (speaker s2) (speaker (exec (step v (Message m2 t2)) s2))
          = Start id w d2 :: rest /\
        w = Z.max t2 t /\ t <= w /\ t2 <= w).
Proof.
  intros Hm Hc Hi Hd. cbv zeta.
  destruct (message_interrupts v m t s Hm Hc Hi Hd)
    as (Hsrc & Hnext & Hc' & Hm' & Hsp).
  set (s' := exec (step v (Message m t)) s) in *.
  split; [exact Hsrc|]. split; [exact Hnext|].
  rewrite Hsp, added_app. split; [|split; [|split]].
  - intros id Hin. destruct (inlineData m) as [[d|]|].
    + right. apply in_map. apply in_or_app. now left.
    + now apply in_map.
    + now apply in_map.
  - intros id w d Hin. destruct (inlineData m) as [[d0|]|].
    + destruct Hin as [Heq|Hin].
      * injection Heq as Hid _ _. rewrite <- Hid. right. apply in_map.
        apply in_or_app. right. now left.
      * apply in_map_iff in Hin as (x & Hx & _). discriminate.
    + apply in_map_iff in Hin as (x & Hx & _). discriminate.
    + apply in_map_iff in Hin as (x & Hx & _). discriminate.
  - intros history Hacc id w d Hin.
    pose proof (message_accounted v history m t s Hacc id w d) as Hnow.
    fold s' in Hnow. rewrite Hsp, Hsrc in Hnow.
    destruct (Hnow Hin) as [[]|[Hstop|Hend]]; [now left | now right].
  - intros events m2 t2 d2 Hq Hd2.
    pose proof (quiet_run_preserves_scheduler v events s' Hq) as Hcells.
    set (s2 := run v events s') in *. unfold schedulerCells in Hcells.
    assert (Hn2 : nextStartTimeRef s2 = t) by congruence.
    assert (Hc2 : audioContextRef s2 = true) by congruence.
    assert (Hm2 : isMounted s2 = true) by congruence.
    destruct (interrupted m2) eqn:Hi2.
    + assert (Hd2' : inlineData m2 <> Some DecodeError) by congruence.
      destruct (message_interrupts v m2 t2 s2 Hm2 Hc2 Hi2 Hd2')
        as (_ & _ & _ & _ & Hsp2).
      rewrite Hsp2, added_app, Hd2, Hn2.
      eexists _, _, _. split; [reflexivity|]. split; [reflexivity|]. lia.
    + destruct (message_schedules v m2 t2 d2 s2 Hm2 Hc2 Hd2 Hi2)
        as (Hsp2 & _).
      rewrite Hsp2, added_app, Hn2.
      eexists _, _, _. split; [reflexivity|]. split; [reflexivity|]. lia.
Qed.

(** The theorem after two segments, the first of which has ended by the
    time the candidate cuts in. *)
Lemma interruption_stops_and_resets_witness :
  let history := deliver [(plays 4800, 100); (plays 4800, 200)]
                   ++ [SourceEnded 0%nat] in
  let s := run part_003 history initial in
  let s' := exec (step part_003 (Message interruption 6000)) s in
  sourcesRef s' = [] /\
  nextStartTimeRef s' = 6000 /\
  added (speaker s) (speaker s') = [Stop 1%nat] /\
  (forall id w d,
      In (Start id w d) (speaker s') ->
      In (Stop id) (speaker s') \/ In (SourceEnded id) history) /\
  exists id w rest,
    added (speaker s') (speaker (exec (step part_003 (Message (plays 2400) 6100)) s'))
      = Start id w 2400 :: rest /\
    w = 6100 /\ 6000 <= w.
Proof.
  intros history s s'.
  destruct (interruption_stops_and_resets part_003 s interruption 6000
              eq_refl eq_refl eq_refl ltac:(discriminate))
    as (H1 & H2 & _ & _ & H5 & H6).
  split; [exact H1|]. split; [exact H2|]. split; [reflexivity|].
  split; [exact (H5 history (reachable_accounted part_003 history))|].
  destruct (H6 [] (plays 2400) 6100 2400 eq_refl eq_refl)
    as (id & w & rest & Ha & Hw & Hle & _).
  exists id, w, rest. split; [exact Ha|]. split; [exact Hw | exact Hle].
Defined.

End InterruptionClaim.

(* ===================================================================== *)
(** ** Capture and the channel *)
(* ===================================================================== *)

Section Channel.

Import Exn LiveInterview.
Local Open Scope list_scope.

Lemma run_all_succeeds v ks : succeeds (run_all v ks).
Proof. induction ks as [|k ks IH]; simpl; succeeds_tac; auto. Qed.

(** No callback lets an exception out. *)
Lemma step_succeeds (v : Revision) (e : Event) : succeeds (step v e).
Proof.
  destruct e;
    unfold step, onopen, onclose, onerror, onConnectFailure, onaudioprocess,
      onVideoInterval, onended, toggleMic, cleanup;
    succeeds_tac;
    try (intros; apply then_succeeds);
    try (intros; apply run_all_succeeds).
Qed.

Lemma step_returns (v : Revision) (e : Event) (s : State) :
  fst (step v e s) = Normal tt.
Proof. destruct (step_succeeds v e s) as [[] H]. exact H. Qed.

(** C6.  In part_003 a frame offered while the channel is not open is
    dropped and nothing is kept of it: with the connected flag down the
    capture callbacks return the state as it was, with nothing sent and
    nothing queued, and so does the deferred send; on a socket that is
    not open the deferred send lets nothing out and its exception is
    caught, so that a capture callback run then sends nothing and queues
    nothing.  No callback ever throws. *)
Theorem send_while_not_open_is_dropped (s : State) :
  isConnectedRef s = false \/ socketOpen s = false ->
  (forall data, run_continuation part_003 (SendAudio data) s = (Normal tt, s)) /\
  (forall image, run_continuation part_003 (SendImage image) s = (Normal tt, s)) /\
  (isConnectedRef s = false ->
   (forall rms data, step part_003 (AudioProcess rms data) s = (Normal tt, s)) /\
   (forall ready image, step part_003 (VideoTick ready image) s = (Normal tt, s))) /\
  (socketOpen s = false -> sessionPromise s = Fulfilled ->
   forall e, is_capture e = true ->
     sent (exec (step part_003 e) s) = sent s /\
     sessionPromise (exec (step part_003 e) s) = Fulfilled) /\
  (forall e s0, fst (step part_003 e s0) = Normal tt).
Proof.
  intros H. split; [|split; [|split; [|split]]].
  - intros data. destruct s; simpl in *.
    destruct H as [->| ->]; [reflexivity | destruct isConnectedRef0; reflexivity].
  - intros image. destruct s; simpl in *.
    destruct H as [->| ->]; [reflexivity | destruct isConnectedRef0; reflexivity].
  - intros Hc. split; intros; destruct s; simpl in *; subst.
    + destruct processorConnected0, isMicOnRef0; reflexivity.
    + destruct videoInterval0, ready; reflexivity.
  - intros Hs Hp e He. destruct e; try discriminate;
      destruct s; simpl in *; subst.
    + destruct processorConnected0, isMicOnRef0, isConnectedRef0, isMounted0;
        now split.
    + destruct videoInterval0, domReady, isConnectedRef0; now split.
  - intros e s0. apply step_returns.
Qed.

(** The theorem while the connection is being made. *)
Lemma send_while_not_open_is_dropped_witness :
  step part_003 (AudioProcess (1 # 2)%Q "AAAA") initial = (Normal tt, initial) /\
  step part_003 (VideoTick true "/9j/4AAQ") initial = (Normal tt, initial) /\
  run_continuation part_003 (SendAudio "AAAA") initial = (Normal tt, initial).
Proof.
  destruct (send_while_not_open_is_dropped initial (or_introl eq_refl))
    as (Ha & _ & Ht & _ & _).
  destruct (Ht eq_refl) as (Hau & Hvi).
  split; [apply Hau | split; [apply Hvi | apply Ha]].
Defined.

End Channel.

Section Mute.

Import Exn LiveInterview.
Local Open Scope list_scope.

Lemma muted_tick (v : Revision) (rms : Q) (data : string) (s : State) :
  isMicOnRef s = false -> exec (step v (AudioProcess rms data)) s = s.
Proof.
  intros H. destruct s; simpl in *; subst.
  destruct v, processorConnected0; reflexivity.
Qed.

Lemma streaming_cells (v : Revision) (s : State) :
  streaming v s = true ->
  isMounted s = true /\ socketOpen s = true /\ processorConnected s = true /\
  sessionPromise s = Fulfilled /\
  match v with
  | part_003 => isConnectedRef s = true
  | components => sessionPromiseRef s = true
  end.
Proof.
  unfold streaming. intros H.
  repeat (apply andb_prop in H as [H ?]).
  destruct (sessionPromise s); try discriminate.
  repeat split; auto. now destruct v.
Qed.

(** C4, as stated, fails: the level meter does not follow the microphone
    during a mute.  With the microphone switched off in a running session,
    a buffer of level 1/2 leaves the meter at the 0 it showed before, in
    both revisions. *)
Lemma muted_meter_stands_still :
  isMicOnRef (muted part_003) = false /\
  volume (exec (step part_003 (AudioProcess (1 # 2)%Q "AAAA")) (muted part_003))
    = 0%Q /\
  volume (exec (step components (AudioProcess (1 # 2)%Q "AAAA")) (muted components))
    = 0%Q /\
  ~ (0 == 1 # 2)%Q.
Proof. repeat split. discriminate. Qed.

(** C4 (amended).  While the microphone is muted a capture buffer is
    dropped before anything is done with it: no frame is sent or queued
    and the level meter is not updated either, however many buffers come.
    Switching the microphone back on while the audio channel of the
    revision is up (mounted, processor connected, connect promise
    fulfilled, socket open; in part_003 the connected flag up, in
    src/components the promise stored in its ref) makes the very next
    buffer go out as one audio frame, after what was sent before, and sets
    the meter to its level. *)
Theorem mute_drops_frames_and_holds_meter (v : Revision) (s : State) :
  isMicOnRef s = false ->
  (forall ticks, run v (capture ticks) s = s) /\
  (streaming v s = true -> isMicOn s = false ->
   forall rms data,
     let s1 := exec (step v ToggleMic) s in
     let s2 := exec (step v (AudioProcess rms data)) s1 in
     sent s2 = sent s ++ [audioFrame data] /\
     added (sent s) (sent s2) = [audioFrame data] /\
     volume s2 = rms /\
     sessionPromise s2 = Fulfilled).
Proof.
  intros Hmute. split.
  - induction ticks as [|[rms data] ticks IH]; [reflexivity|].
    change (run v (capture ((rms, data) :: ticks)) s)
      with (run v (capture ticks) (exec (step v (AudioProcess rms data)) s)).
    now rewrite muted_tick.
  - intros Hup Hoff rms data.
    destruct (streaming_cells v s Hup) as (H1 & H2 & H3 & H4 & H5).
    destruct v; destruct s; simpl in *; subst; simpl;
      unfold added; rewrite skipn_app, skipn_all, Nat.sub_diag; auto.
Qed.

(** The theorem in a session muted after it has connected, in each
    revision: three buffers change nothing, and the buffer after the
    unmute goes out. *)
Lemma mute_drops_frames_and_holds_meter_witness :
  (run part_003 (capture [((1 # 2)%Q, "AAAA"); ((1 # 3)%Q, "BBBB"); ((1 # 4)%Q, "CCCC")])
     (muted part_003) = muted part_003 /\
   let s2 := exec (step part_003 (AudioProcess (1 # 5)%Q "DDDD"))
               (exec (step part_003 ToggleMic) (muted part_003)) in
   sent s2 = sent (muted part_003) ++ [audioFrame "DDDD"] /\
   volume s2 = (1 # 5)%Q) /\
  (run components (capture [((1 # 2)%Q, "AAAA"); ((1 # 3)%Q, "BBBB"); ((1 # 4)%Q, "CCCC")])
     (muted components) = muted components /\
   let s2 := exec (step components (AudioProcess (1 # 5)%Q "DDDD"))
               (exec (step components ToggleMic) (muted components)) in
   sent s2 = sent (muted components) ++ [audioFrame "DDDD"] /\
   volume s2 = (1 # 5)%Q).
Proof.
  split.
  - destruct (mute_drops_frames_and_holds_meter part_003 (muted part_003) eq_refl)
      as (Hdrop & Hresume).
    split; [apply Hdrop|].
    destruct (Hresume eq_refl eq_refl (1 # 5)%Q "DDDD") as (Hs & _ & Hv & _).
    split; [exact Hs | exact Hv].
  - destruct (mute_drops_frames_and_holds_meter components (muted components) eq_refl)
      as (Hdrop & Hresume).
    split; [apply Hdrop|].
    destruct (Hresume eq_refl eq_refl (1 # 5)%Q "DDDD") as (Hs & _ & Hv & _).
    split; [exact Hs | exact Hv].
Defined.

End Mute.

(* ===================================================================== *)
(** ** Task assignment *)
(* ===================================================================== *)

Section Task.

Import Exn LiveInterview Trace.
Local Open Scope list_scope.

Lemma or_else_supplied (t d : string) :
  t <> EmptyString -> Js.or_else (Some t) d = t.
Proof. destruct t; [congruence | reflexivity]. Qed.

(** What the tool call of a message does to the task, to what is sent and
    to the promise, when its first function call names the task tool. *)
Lemma onToolCall_cells (s : State) (m : LiveServerMessage)
  (call : FunctionCall) (rest : list FunctionCall) :
  toolCall m = Some (call :: rest) ->
  call_name call = fd_name assignTaskTool ->
  taskCells (exec (onToolCall m) s) =
  (Some {| title := Js.or_else (args_title call) "Coding Task";
           description :=
             Js.or_else (args_description call) "Solve the problem." |},
   if isConnectedRef s && sessionPromiseRef s
   then match sessionPromise s with
        | Fulfilled =>
            if socketOpen s
            then sent s ++ [ToolResponse (call_id call) (fd_name assignTaskTool)
                              toolResult]
            else sent s
        | _ => sent s
        end
   else sent s,
   if isConnectedRef s && sessionPromiseRef s
   then match sessionPromise s with
        | Pending waiting =>
            Pending (waiting ++ [SendToolResponse (call_id call)
                                   (fd_name assignTaskTool)])
        | p => p
        end
   else sessionPromise s).
Proof.
  intros Hcall Hname.
  unfold onToolCall. rewrite Hcall, Hname.
  change (fd_name assignTaskTool) with "assignCodingTask".
  rewrite String.eqb_refl.
  destruct s; simpl.
  destruct isConnectedRef0, sessionPromiseRef0; simpl; try reflexivity.
  destruct sessionPromise0; simpl; try reflexivity.
  destruct socketOpen0; reflexivity.
Qed.

(** A message with no function call, or whose first function call has
    another name, leaves the three alone. *)
Lemma onToolCall_other (s : State) (m : LiveServerMessage) :
  names_task (Message m 0%Z) = false ->
  exec (onToolCall m) s = s.
Proof.
  unfold names_task, onToolCall.
  destruct (toolCall m) as [[|call rest]|]; try reflexivity.
  now intros ->.
Qed.

Lemma onTranscription_preserves_task r t :
  preserves taskCells (onTranscription r t).
Proof. unfold onTranscription. preserves_tac. Qed.

Lemma playback_preserves_task m t :
  preserves taskCells (onAudio m t ;; onInterrupted m t).
Proof. unfold onAudio, onInterrupted, decodeAudioData. preserves_tac. Qed.

Lemma run_continuation_preserves_currentTask v k :
  preserves currentTask (run_continuation v k).
Proof.
  unfold run_continuation, session_send, session_close. preserves_tac.
Qed.

Lemma then_preserves_currentTask v k : preserves currentTask (then_ v k).
Proof.
  unfold then_. preserves_tac. apply run_continuation_preserves_currentTask.
Qed.

(** After the tool call, the rest of the handler leaves the task, the
    frames sent and the promise alone. *)
Lemma message_task_cells (m : LiveServerMessage) (t : Z) (s : State) :
  isMounted s = true ->
  taskCells (exec (step part_003 (Message m t)) s)
  = taskCells (exec (onToolCall m) s).
Proof.
  intros Hm. rewrite onmessage_mounted by assumption.
  unfold exec at 1. rewrite playback_preserves_task.
  unfold exec at 1. rewrite onTranscription_preserves_task.
  unfold exec at 1. now rewrite onTranscription_preserves_task.
Qed.

Lemma message_task_components (m : LiveServerMessage) (t : Z) (s : State) :
  taskCells (exec (step components (Message m t)) s) = taskCells s.
Proof.
  destruct (isMounted s) eqn:Hm; [|now rewrite onmessage_unmounted].
  rewrite onmessage_mounted by assumption.
  unfold exec at 1. rewrite playback_preserves_task.
  unfold exec at 1. rewrite onTranscription_preserves_task.
  unfold exec at 1. now rewrite onTranscription_preserves_task.
Qed.

Lemma onToolCall_task (m : LiveServerMessage) (s : State) :
  currentTask (exec (onToolCall m) s) =
  match toolCall m with
  | Some (call :: _) =>
      if String.eqb (call_name call) "assignCodingTask"
      then Some {| title := Js.or_else (args_title call) "Coding Task";
                   description :=
                     Js.or_else (args_description call) "Solve the problem." |}
      else currentTask s
  | _ => currentTask s
  end.
Proof.
  unfold onToolCall.
  destruct (toolCall m) as [[|call rest]|]; try reflexivity.
  destruct (String.eqb (call_name call) "assignCodingTask"); [|reflexivity].
  cbn [when]. rewrite exec_seq by apply succeeds_modify.
  unfold exec at 1.
  match goal with
  | |- currentTask (snd (?c ?x)) = _ =>
      transitivity (currentTask x); [|destruct s; reflexivity];
      generalize x; change (preserves currentTask c)
  end.
  preserves_tac. intros. apply then_preserves_currentTask.
Qed.

(** The task cell changes in one place only. *)
Lemma currentTask_step (v : Revision) (e : Event) (s : State) :
  currentTask (exec (step v e) s) = currentTask s \/
  (v = part_003 /\
   exists m t call rest,
     e = Message m t /\ toolCall m = Some (call :: rest) /\
     call_name call = fd_name assignTaskTool /\
     currentTask (exec (step v e) s)
     = Some {| title := Js.or_else (args_title call) "Coding Task";
               description :=
                 Js.or_else (args_description call) "Solve the problem." |}).
Proof.
  assert (Hsame : preserves currentTask (step v e) ->
                  currentTask (exec (step v e) s) = currentTask s)
    by (intros Hp; apply Hp).
  assert (Hfst : forall x, currentTask x = fst (fst (taskCells x)))
    by reflexivity.
  destruct e.
  - left. apply Hsame. unfold step, onopen. preserves_tac.
  - left. apply Hsame. unfold step, onConnectFailure. preserves_tac.
    all: intros; apply run_all_preserves;
      apply run_continuation_preserves_currentTask.
  - destruct v; [|left; now rewrite !Hfst, message_task_components].
    destruct (isMounted s) eqn:Hm;
      [|left; now rewrite onmessage_unmounted].
    rewrite (Hfst (exec _ s)), message_task_cells, <- Hfst by assumption.
    rewrite onToolCall_task.
    destruct (toolCall m) as [[|call rest]|] eqn:Hcall; try now left.
    destruct (String.eqb (call_name call) "assignCodingTask") eqn:Hname;
      [|now left].
    right. split; [reflexivity|]. exists m, currentTime, call, rest.
    apply String.eqb_eq in Hname. auto.
  - left. apply Hsame. unfold step, onclose. preserves_tac.
  - left. apply Hsame. unfold step, onerror. preserves_tac.
  - left. apply Hsame.
    unfold step, onaudioprocess, then_, run_continuation, session_send.
    preserves_tac.
  - left. apply Hsame.
    unfold step, onVideoInterval, then_, run_continuation, session_send.
    preserves_tac.
  - left. apply Hsame. unfold step, onended. preserves_tac.
  - left. apply Hsame. unfold step, toggleMic. preserves_tac.
  - left. apply Hsame.
    unfold step, cleanup, then_, run_continuation, session_send, session_close.
    preserves_tac.
Qed.

Lemma run_all_app (v : Revision) (a b : list Continuation) (s : State) :
  exec (run_all v (a ++ b)) s = exec (run_all v b) (exec (run_all v a) s).
Proof.
  revert s. induction a as [|k a IH]; intros s; [reflexivity|].
  change (exec (run_all v ((k :: a) ++ b)) s)
    with (exec (run_all v (a ++ b)) (exec (unobserved (run_continuation v k)) s)).
  now rewrite IH.
Qed.

(** A response that waits on the promise goes out when the promise is
    fulfilled, after the callbacks queued before it, if the socket is
    open then. *)
Lemma queued_response_sent (s : State) (waiting : list Continuation)
  (id name : string) :
  sessionPromise s = Pending (waiting ++ [SendToolResponse id name]) ->
  sent (exec (step part_003 (Settle true)) s)
  = sent (exec (run_all part_003 waiting) (set_sessionPromise Fulfilled s))
    ++ (if socketOpen (exec (run_all part_003 waiting)
                         (set_sessionPromise Fulfilled s))
        then [ToolResponse id name toolResult]
        else []).
Proof.
  intros Hp.
  assert (Hstep : exec (step part_003 (Settle true)) s
                  = exec (run_all part_003 (waiting ++ [SendToolResponse id name]))
                      (set_sessionPromise Fulfilled s)).
  { unfold step, exec, bind, gets. simpl. now rewrite Hp. }
  rewrite Hstep, run_all_app.
  generalize (exec (run_all part_003 waiting) (set_sessionPromise Fulfilled s)).
  intros s1. destruct s1. unfold exec. simpl.
  destruct socketOpen0; simpl; [reflexivity | now rewrite app_nil_r].
Qed.




End Task.

(* ===================================================================== *)
(** ** After the session has ended *)
(* ===================================================================== *)

Section Teardown.

Import Exn LiveInterview.
Local Open Scope list_scope.

(** In part_003, once the connected flag is down and as long as the
    socket does not open afterwards, no media frame goes out: the capture
    callbacks return at their guard and the deferred sends at theirs. *)
Lemma run_all_flag_down (ks : list Continuation) (s : State) :
  isConnectedRef s = false ->
  let s' := exec (run_all part_003 ks) s in
  isConnectedRef s' = false /\
  filter is_media (sent s') = filter is_media (sent s).
Proof.
  revert s. induction ks as [|k ks IH]; intros s Hc; [now split|].
  simpl run_all. rewrite exec_seq by apply succeeds_unobserved.
  set (s1 := exec (unobserved (run_continuation part_003 k)) s).
  assert (H1 : isConnectedRef s1 = false /\
               filter is_media (sent s1) = filter is_media (sent s)).
  { subst s1. destruct s; simpl in *; subst.
    destruct k; simpl; try (now split).
    destruct socketOpen0; simpl; [|now split].
    rewrite filter_app. simpl. now rewrite app_nil_r. }
  destruct H1 as (Hc1 & Hs1). destruct (IH s1 Hc1) as (Hc2 & Hs2).
  split; [exact Hc2 | congruence].
Qed.

Lemma onTranscription_preserves_channel r t :
  preserves channelCells (onTranscription r t).
Proof. unfold onTranscription. preserves_tac. Qed.

Lemma playback_preserves_channel m t :
  preserves channelCells (onAudio m t ;; onInterrupted m t).
Proof. unfold onAudio, onInterrupted, decodeAudioData. preserves_tac. Qed.

Lemma step_flag_down (e : Event) (s : State) :
  isConnectedRef s = false -> e <> Open ->
  let s' := exec (step part_003 e) s in
  isConnectedRef s' = false /\
  filter is_media (sent s') = filter is_media (sent s).
Proof.
  intros Hc He. destruct e; try congruence.
  - (* Settle *)
    destruct (sessionPromise s) as [waiting| |] eqn:Hp; cbv zeta.
    + destruct fulfilled.
      * unfold step. rewrite (exec_bind _ _ s (Pending waiting))
          by (simpl; now rewrite Hp).
        rewrite exec_seq by apply succeeds_modify.
        destruct (run_all_flag_down waiting (set_sessionPromise Fulfilled s))
          as (A & B); [destruct s; exact Hc|].
        split; [exact A|].
        etransitivity; [exact B | destruct s; reflexivity].
      * destruct s; simpl in *; subst. destruct isMounted0; now split.
    + destruct s; simpl in *; subst. now split.
    + destruct s; simpl in *; subst. now split.
  - (* Message *)
    cbv zeta. destruct (isMounted s) eqn:Hm;
      [|rewrite onmessage_unmounted by assumption; now split].
    rewrite onmessage_mounted by assumption.
    set (s1 := exec (onToolCall m) s).
    assert (H1 : isConnectedRef s1 = false /\ sent s1 = sent s).
    { subst s1. unfold onToolCall.
      destruct (toolCall m) as [[|call rest]|]; try (now split).
      destruct (String.eqb (call_name call) "assignCodingTask");
        [|now split].
      destruct s; simpl in *; subst. now split. }
    destruct H1 as (Hc1 & Hs1).
    assert (Hf : channelCells
                   (exec (onAudio m currentTime ;; onInterrupted m currentTime)
                      (exec (onTranscription user (inputTranscription m))
                         (exec (onTranscription ai (outputTranscription m)) s1)))
                 = channelCells s1).
    { unfold exec. rewrite playback_preserves_channel.
      now rewrite !onTranscription_preserves_channel. }
    unfold channelCells in Hf. injection Hf as E1 E2.
    rewrite E1, E2, Hc1, Hs1. now split.
  - (* Close *)
    destruct s; simpl in *; subst. now split.
  - (* Error *)
    destruct s; simpl in *; subst. destruct isMounted0; now split.
  - (* AudioProcess *)
    destruct s; simpl in *; subst.
    destruct processorConnected0, isMicOnRef0; now split.
  - (* VideoTick *)
    destruct s; simpl in *; subst.
    destruct videoInterval0, domReady; now split.
  - (* SourceEnded *)
    destruct s; simpl in *; subst. now split.
  - (* ToggleMic *)
    destruct s; simpl in *; subst. now split.
  - (* Unmount *)
    destruct s; simpl in *; subst.
    destruct sessionPromise0; simpl; now split.
Qed.

Lemma run_flag_down (events : list Event) (s : State) :
  isConnectedRef s = false -> ~ In Open events ->
  filter is_media (sent (run part_003 events s)) = filter is_media (sent s).
Proof.
  revert s. induction events as [|e events IH]; intros s Hc Hno; [reflexivity|].
  simpl. destruct (step_flag_down e s Hc) as (Hc1 & Hs1).
  { intros ->. apply Hno. now left. }
  rewrite IH; [exact Hs1 | exact Hc1 |].
  intros Hin. apply Hno. now right.
Qed.

(** After the unmount a message is not handled at all, in both
    revisions: nothing is scheduled for playback any more. *)
Lemma no_playback_after_unmount (v : Revision) (before after : list Event)
  (s : State) :
  let ended := exec (step v Unmount) (run v before s) in
  Forall (fun e => exists m t, e = Message m t) after ->
  run v after ended = ended.
Proof.
  intros ended Hall.
  assert (Hm : isMounted ended = false).
  { subst ended. destruct (run v before s). destruct v; simpl.
    - now destruct sessionPromise0.
    - now destruct sessionPromiseRef0, sessionPromise0. }
  clearbody ended. induction Hall as [|e after (m & t & ->) _ IH];
    [reflexivity|].
  change (run v (Message m t :: after) ended)
    with (run v after (exec (step v (Message m t)) ended)).
  now rewrite onmessage_unmounted.
Qed.

(** C7: the code at the failing input.  Two capture callbacks come while
    the connection is still being made, then the component unmounts, then
    the socket opens and the connect promise is fulfilled.  In
    src/components/LiveInterview.tsx nothing has gone out when the
    component unmounts and both frames go out afterwards, since the
    deferred sends test nothing; part_003, whose callbacks test the
    connected flag, sends none, but its [onopen] raises that flag again
    on the unmounted component. *)
Theorem frames_sent_after_unmount :
  let before := [AudioProcess (1 # 2)%Q "AAAA"; VideoTick true "/9j/4AAQ"; Unmount] in
  let late := [Open; Settle true] in
  isMounted (run components before initial) = false /\
  sent (run components before initial) = [] /\
  sent (run components (before ++ late) initial)
    = [audioFrame "AAAA"; RealtimeInput "image/jpeg" "/9j/4AAQ"] /\
  sent (run part_003 (before ++ late) initial) = [] /\
  isMounted (run part_003 (before ++ late) initial) = false /\
  isConnectedRef (run part_003 (before ++ late) initial) = true.
Proof. repeat split. Qed.

End Teardown.

(* ===================================================================== *)
(** ** Further properties of the session *)
(* ===================================================================== *)

Section SessionExtras.

Import Exn LiveInterview Trace.
Local Open Scope list_scope.

Lemma run_continuation_preserves_ui v k :
  preserves frozenCells (run_continuation v k).
Proof.
  unfold run_continuation, session_send, session_close. preserves_tac.
Qed.

Lemma unmounted_step (v : Revision) (e : Event) (s : State) :
  isMounted s = false -> e <> ToggleMic ->
  isMounted (exec (step v e) s) = false /\
  frozenCells (exec (step v e) s) = frozenCells s.
Proof.
  intros Hm He. destruct e; try congruence.
  - destruct s; simpl in *; subst. destruct v; now split.
  - destruct (sessionPromise s) as [waiting| |] eqn:Hp.
    + destruct fulfilled.
      * unfold step. rewrite (exec_bind _ _ s (Pending waiting))
          by (simpl; now rewrite Hp).
        rewrite exec_seq by apply succeeds_modify.
        unfold exec at 1 3.
        rewrite (run_all_preserves isMounted)
          by (intros k; unfold run_continuation, session_send, session_close;
              preserves_tac).
        rewrite (run_all_preserves frozenCells)
          by apply run_continuation_preserves_ui.
        destruct s; simpl in *; subst. now split.
      * destruct s; simpl in *; subst. destruct v; now split.
    + destruct s; simpl in *; subst. now split.
    + destruct s; simpl in *; subst. now split.
  - rewrite onmessage_unmounted by assumption. now split.
  - destruct s; simpl in *; subst. destruct v; now split.
  - destruct s; simpl in *; subst. destruct v; now split.
  - destruct s; simpl in *; subst.
    destruct v, processorConnected0, isMicOnRef0, isConnectedRef0,
      sessionPromiseRef0, sessionPromise0, socketOpen0; now split.
  - destruct s; simpl in *; subst.
    destruct v, videoInterval0, domReady, isConnectedRef0,
      sessionPromiseRef0, sessionPromise0, socketOpen0; now split.
  - destruct s; simpl in *; subst. now split.
  - destruct s; simpl in *; subst.
    destruct v, sessionPromiseRef0, sessionPromise0; now split.
Qed.

(** X2.  In part_003, from the unmount on and for as long as the socket
    does not open again, no audio or image frame goes out, whatever the
    state was and whatever else happens. *)
Theorem no_media_after_unmount (events : list Event) (s : State) :
  ~ In Open events ->
  filter is_media (sent (run part_003 (Unmount :: events) s))
  = filter is_media (sent s).
Proof.
  intros Hno.
  change (run part_003 (Unmount :: events) s)
    with (run part_003 events (exec (step part_003 Unmount) s)).
  destruct (step_flag_down Unmount (set_isConnectedRef false s)) as (_ & H0);
    [destruct s; reflexivity | discriminate |].
  assert (Hu : exec (step part_003 Unmount) s
               = exec (step part_003 Unmount) (set_isConnectedRef false s)).
  { destruct s; simpl. destruct sessionPromise0; reflexivity. }
  assert (Hc : isConnectedRef (exec (step part_003 Unmount) s) = false).
  { destruct s; simpl. destruct sessionPromise0; reflexivity. }
  rewrite (run_flag_down events _ Hc Hno), Hu.
  cbv zeta in H0. rewrite H0. destruct s; reflexivity.
Qed.

Lemma no_media_after_unmount_witness :
  filter is_media
    (sent (run part_003
             [Unmount; AudioProcess (1 # 2)%Q "AAAA"; VideoTick true "/9j/4AAQ";
              Settle true; Close]
             (run part_003 [Open; AudioProcess (1 # 3)%Q "BBBB"] initial)))
  = [].
Proof.
  rewrite no_media_after_unmount; [reflexivity|].
  intros H. repeat (destruct H as [H|H]; [discriminate H|]). exact H.
Defined.

(** X3.  A message whose audio cannot be decoded still has its
    transcriptions recorded, but the handler ends at the decoding: no
    segment is scheduled and an interruption carried by the same message
    is not acted upon, so the pending sources keep playing and
    [nextStartTime] stays. *)
Theorem undecodable_audio_skips_interruption (v : Revision)
  (m : LiveServerMessage) (t : Z) (s : State) :
  isMounted s = true -> audioContextRef s = true ->
  inlineData m = Some DecodeError ->
  let s' := exec (step v (Message m t)) s in
  playback s' = playback s /\
  chatHistory s' = appendAll (deltas_of m) (chatHistory s) /\
  transcriptRef s'
  = (transcriptRef s
     ++ String.concat EmptyString (map snd (deltas_of m)))%string.
Proof.
  intros Hm Hc Hd. cbv zeta. split; [|split].
  - rewrite onmessage_mounted by assumption.
    pose proof (prelude_preserves_playback v m s) as Hp.
    set (s3 := exec (onTranscription user _) _) in *.
    rewrite <- Hp. f_equal.
    assert (Hc3 : audioContextRef s3 = true)
      by (unfold playback in Hp; congruence).
    unfold exec, bind, onAudio. rewrite Hd.
    destruct s3; simpl in *; subst. reflexivity.
  - now apply onmessage_chat.
  - rewrite onmessage_mounted by assumption.
    set (s1 := exec (match v with part_003 => onToolCall m | components => ret tt end) s).
    assert (H1 : transcriptRef s1 = transcriptRef s /\ audioContextRef s1 = true).
    { subst s1. destruct v; [|now split].
      assert (Hp : preserves (fun x => (transcriptRef x, audioContextRef x))
                     (onToolCall m)).
      { unfold onToolCall, then_, run_continuation, session_send, session_close.
        preserves_tac. }
      specialize (Hp s). cbv beta in Hp. injection Hp as H1 H2.
      unfold exec. split; [exact H1 | now rewrite H2]. }
    destruct H1 as (Ht1 & Hc1). rewrite <- Ht1. clearbody s1.
    unfold exec, bind, onAudio, onTranscription, deltas_of, delta_of.
    rewrite Hd.
    destruct (outputTranscription m) as [[|a o]|],
             (inputTranscription m) as [[|b i]|];
      destruct s1; simpl in *; subst; simpl;
      rewrite ?string_append_empty_r, ?string_append_assoc; reflexivity.
Qed.

Lemma undecodable_audio_skips_interruption_witness :
  let s := run part_003 (deliver [(plays 4800, 100%Z)]) initial in
  let m := {| toolCall := None; outputTranscription := Some "Hi";
              inputTranscription := None; inlineData := Some DecodeError;
              interrupted := true |} in
  let s' := exec (step part_003 (Message m 200%Z)) s in
  playback s' = playback s /\ sourcesRef s = [0%nat] /\
  transcriptRef s' = "Hi".
Proof.
  intros s m s'.
  destruct (undecodable_audio_skips_interruption part_003 m 200%Z s
              eq_refl eq_refl eq_refl) as (Hp & _ & Ht).
  split; [exact Hp|]. split; [reflexivity|].
  etransitivity; [exact Ht | reflexivity].
Defined.

Lemma run_continuation_preserves_transcript v k :
  preserves transcriptCells (run_continuation v k).
Proof.
  unfold run_continuation, session_send, session_close. preserves_tac.
Qed.

Lemma weave_same (s s' : State) :
  transcriptCells s' = transcriptCells s ->
  weave (transcriptRef s) (fullText (chatHistory s)) ->
  weave (transcriptRef s') (fullText (chatHistory s')).
Proof. unfold transcriptCells. intros H. injection H as -> ->. auto. Qed.

Lemma weave_transcription (r : Role) (t : option string) (s : State) :
  weave (transcriptRef s) (fullText (chatHistory s)) ->
  weave (transcriptRef (exec (onTranscription r t) s))
        (fullText (chatHistory (exec (onTranscription r t) s))).
Proof.
  intros H. destruct t as [[|c d]|]; try exact H.
  destruct s; simpl in *. rewrite fullText_appendChat. now constructor.
Qed.

Lemma weave_playback (m : LiveServerMessage) (t : Z) (s : State) :
  weave (transcriptRef s) (fullText (chatHistory s)) ->
  weave (transcriptRef (exec (onAudio m t ;; onInterrupted m t) s))
        (fullText (chatHistory (exec (onAudio m t ;; onInterrupted m t) s))).
Proof.
  intros H. unfold onAudio, onInterrupted, decodeAudioData, exec.
  destruct s; simpl in *.
  destruct (inlineData m) as [[dur|]|], audioContextRef0, (interrupted m);
    simpl; try exact H; now apply weave_mark.
Qed.

Lemma quiet_step_transcript (v : Revision) (e : Event) (s : State) :
  (forall m t, e <> Message m t) ->
  transcriptCells (exec (step v e) s) = transcriptCells s.
Proof.
  intros He.
  assert (Hp : preserves transcriptCells (step v e)); [|apply Hp].
  destruct e; try (exfalso; eapply He; reflexivity).
  - unfold step, onopen. preserves_tac.
  - unfold step, onConnectFailure. preserves_tac.
    all: intros; apply run_all_preserves;
      apply run_continuation_preserves_transcript.
  - unfold step, onclose. preserves_tac.
  - unfold step, onerror. preserves_tac.
  - unfold step, onaudioprocess, then_, run_continuation, session_send.
    preserves_tac.
  - unfold step, onVideoInterval, then_, run_continuation, session_send.
    preserves_tac.
  - unfold step, onended. preserves_tac.
  - unfold step, toggleMic. preserves_tac.
  - unfold step, cleanup, then_, run_continuation, session_send, session_close.
    preserves_tac.
Qed.

Lemma weave_step (v : Revision) (e : Event) (s : State) :
  weave (transcriptRef s) (fullText (chatHistory s)) ->
  weave (transcriptRef (exec (step v e) s))
        (fullText (chatHistory (exec (step v e) s))).
Proof.
  intros H.
  assert (Hq : (forall m t, e <> Message m t) ->
               weave (transcriptRef (exec (step v e) s))
                     (fullText (chatHistory (exec (step v e) s))))
    by (intros He; eapply weave_same;
        [apply quiet_step_transcript; exact He | exact H]).
  destruct e; try (apply Hq; intros; discriminate).
  destruct (isMounted s) eqn:Hm; [|now rewrite onmessage_unmounted].
  rewrite onmessage_mounted by assumption.
  apply weave_playback. do 2 apply weave_transcription.
  destruct v; [|exact H].
  eapply weave_same; [|exact H].
  assert (Hp : preserves transcriptCells (onToolCall m)).
  { unfold onToolCall, then_, run_continuation, session_send, session_close.
    preserves_tac. }
  apply Hp.
Qed.

Lemma weave_run (v : Revision) (events : list Event) (s : State) :
  weave (transcriptRef s) (fullText (chatHistory s)) ->
  weave (transcriptRef (run v events s))
        (fullText (chatHistory (run v events s))).
Proof.
  revert s. induction events as [|e events IH]; intros s Hs; [exact Hs|].
  simpl. apply IH. now apply weave_step.
Qed.


End SessionExtras.
(** *** What goes out on the socket *)

Section Outbound.
Import Exn LiveInterview Trace.
Local Open Scope list_scope.

Lemma subsequence_refl {A} (l : list A) : subsequence l l.
Proof. induction l; [apply subsequence_nil | now apply subsequence_take]. Qed.

Lemma subsequence_nil_l {A} (l : list A) : subsequence [] l.
Proof. induction l; constructor; auto. Qed.

Lemma subsequence_app {A} (a b c d : list A) :
  subsequence a b -> subsequence c d -> subsequence (a ++ c) (b ++ d).
Proof.
  induction 1; simpl; intros;
    [assumption | apply subsequence_skip; auto | apply subsequence_take; auto].
Qed.

Lemma subsequence_app_r {A} (a b c : list A) :
  subsequence a b -> subsequence a (b ++ c).
Proof.
  intros H. rewrite <- (app_nil_r a).
  apply subsequence_app; [exact H | apply subsequence_nil_l].
Qed.

Lemma subsequence_prefix {A} (a b c : list A) :
  subsequence (a ++ b) c -> subsequence a c.
Proof.
  revert c. induction a as [|x a IH]; intros c H; [apply subsequence_nil_l|].
  simpl in H. remember (x :: a ++ b) as l eqn:El.
  induction H as [|l' c' y H IHs|l' c' y H IHs]; [discriminate| |].
  - apply subsequence_skip. auto.
  - injection El as -> ->. apply subsequence_take. apply IH.
    exact H.
Qed.

Lemma subsequence_trans {A} (a b c : list A) :
  subsequence a b -> subsequence b c -> subsequence a c.
Proof.
  intros Hab Hbc. revert a Hab.
  induction Hbc as [|b c x Hbc IH|b c x Hbc IH]; intros a Hab.
  - exact Hab.
  - apply subsequence_skip. auto.
  - inversion Hab; subst.
    + apply subsequence_skip. auto.
    + apply subsequence_take. auto.
Qed.

Lemma subsequence_filter {A} (f : A -> bool) (a b : list A) :
  subsequence a b -> subsequence (filter f a) (filter f b).
Proof.
  induction 1; simpl; [constructor| |]; destruct (f x);
    auto using subsequence_skip, subsequence_take.
Qed.

Lemma subsequence_length {A} (a b : list A) :
  subsequence a b -> (List.length a <= List.length b)%nat.
Proof. induction 1; simpl; lia. Qed.

Lemma outbound_cells (s s' : State) :
  sendCells s' = sendCells s -> outbound s' = outbound s.
Proof.
  unfold sendCells, outbound, waitingOn. intros H. injection H as -> ->.
  reflexivity.
Qed.

(** Settling the promise: each waiting callback sends its frame or
    nothing. *)
Lemma run_all_outbound (v : Revision) (ks : list Continuation) (s : State) :
  sessionPromise s = Fulfilled ->
  exists sub,
    sent (exec (run_all v ks) s) = sent s ++ sub /\
    subsequence sub (flat_map frameOf ks) /\
    sessionPromise (exec (run_all v ks) s) = Fulfilled.
Proof.
  revert s. induction ks as [|k ks IH]; intros s Hp.
  - exists []. rewrite app_nil_r. repeat split; [constructor | exact Hp].
  - change (exec (run_all v (k :: ks)) s)
      with (exec (run_all v ks) (exec (unobserved (run_continuation v k)) s)).
    assert (Hk : exists one,
               sent (exec (unobserved (run_continuation v k)) s) = sent s ++ one /\
               subsequence one (frameOf k) /\
               sessionPromise (exec (unobserved (run_continuation v k)) s) = Fulfilled).
    { destruct s; simpl in *. subst.
      destruct k, v, isConnectedRef0, socketOpen0; simpl;
        first [ exists []; rewrite app_nil_r; repeat split; apply subsequence_nil_l
              | eexists; repeat split; apply subsequence_refl ]. }
    destruct Hk as (one & Hs & Hsub & Hp').
    destruct (IH _ Hp') as (sub & Hs' & Hsub' & Hp'').
    exists (one ++ sub). rewrite Hs', Hs, app_assoc.
    repeat split; [|exact Hp''].
    simpl. now apply subsequence_app.
Qed.

Ltac outbound_cases :=
  unfold outbound, waitingOn in *; simpl in *;
  rewrite ?flat_map_app, ?app_nil_r, ?app_assoc in *; simpl;
  rewrite ?app_nil_r;
  first [ assumption
        | apply subsequence_app_r; assumption
        | apply subsequence_app; [assumption | apply subsequence_refl]
        | apply subsequence_app; [assumption | apply subsequence_nil_l] ].

Lemma outbound_step (v : Revision) (e : Event) (s : State) (offered : list Frame) :
  subsequence (outbound s) offered ->
  subsequence (outbound (exec (step v e) s)) (offered ++ offers v e).
Proof.
  intros H.
  assert (Hsame : preserves sendCells (step v e) ->
                  subsequence (outbound (exec (step v e) s)) (offered ++ offers v e)).
  { intros Hp. rewrite (outbound_cells s) by apply Hp.
    now apply subsequence_app_r. }
  destruct e.
  - apply Hsame. unfold step, onopen. preserves_tac.
  - (* Settle *)
    simpl offers. rewrite app_nil_r.
    destruct (sessionPromise s) as [waiting| |] eqn:Hp.
    + destruct fulfilled.
      * unfold step, exec, bind, gets. simpl. rewrite Hp. simpl.
        destruct (run_all_outbound v waiting (set_sessionPromise Fulfilled s))
          as (sub & Hs & Hsub & Hp'); [now destruct s|].
        unfold exec in Hs, Hp'.
        unfold outbound, waitingOn in *. rewrite Hp in H.
        rewrite Hp', Hs. simpl. rewrite app_nil_r.
        apply subsequence_trans with (2 := H).
        replace (sent (set_sessionPromise Fulfilled s)) with (sent s)
          by now destruct s.
        apply subsequence_app; [apply subsequence_refl | exact Hsub].
      * assert (Hr : sent (exec (step v (Settle false)) s) = sent s /\
                     sessionPromise (exec (step v (Settle false)) s) = Rejected).
        { unfold step, exec, bind, gets. simpl. rewrite Hp.
          destruct s, v, isMounted0; simpl; auto. }
        destruct Hr as [Hs Hr].
        unfold outbound, waitingOn in *. rewrite Hr, Hs. simpl.
        rewrite app_nil_r. now apply subsequence_prefix in H.
    + replace (exec (step v (Settle fulfilled)) s) with s; [exact H|].
      unfold step, exec, bind, gets. simpl. now rewrite Hp.
    + replace (exec (step v (Settle fulfilled)) s) with s; [exact H|].
      unfold step, exec, bind, gets. simpl. now rewrite Hp.
  - (* Message *)
    destruct (isMounted s) eqn:Hm;
      [|rewrite onmessage_unmounted by assumption; now apply subsequence_app_r].
    rewrite onmessage_mounted by assumption.
    assert (Hrest : forall s0,
      outbound
        (exec (onAudio m currentTime ;; onInterrupted m currentTime)
           (exec (onTranscription user (inputTranscription m))
              (exec (onTranscription ai (outputTranscription m)) s0)))
      = outbound s0).
    { intros s0. apply outbound_cells.
      assert (Ha : preserves sendCells
                     (onAudio m currentTime ;; onInterrupted m currentTime))
        by (unfold onAudio, onInterrupted, decodeAudioData; preserves_tac).
      assert (Ht : forall r t, preserves sendCells (onTranscription r t))
        by (intros; unfold onTranscription; preserves_tac).
      unfold exec. now rewrite Ha, !Ht. }
    rewrite Hrest.
    destruct v; [|now apply subsequence_app_r].
    unfold offers, onToolCall.
    destruct (toolCall m) as [[|call calls]|];
      try (now apply subsequence_app_r).
    destruct (String.eqb (call_name call) "assignCodingTask");
      [|now apply subsequence_app_r].
    destruct s; unfold exec; simpl in *.
    destruct isConnectedRef0, sessionPromiseRef0, sessionPromise0, socketOpen0;
      simpl; outbound_cases.
  - apply Hsame. unfold step, onclose. preserves_tac.
  - apply Hsame. unfold step, onerror. preserves_tac.
  - destruct s; unfold step, exec; simpl in *.
    destruct v, processorConnected0, isMicOnRef0, isConnectedRef0, isMounted0,
      sessionPromiseRef0, sessionPromise0, socketOpen0; simpl; outbound_cases.
  - destruct s; unfold step, exec; simpl in *.
    destruct v, videoInterval0, domReady, isConnectedRef0,
      sessionPromiseRef0, sessionPromise0, socketOpen0; simpl; outbound_cases.
  - apply Hsame. unfold step, onended. preserves_tac.
  - apply Hsame. unfold step, toggleMic. preserves_tac.
  - destruct s; unfold step, exec; simpl in *.
    destruct v, sessionPromiseRef0, sessionPromise0, socketOpen0; simpl; outbound_cases.
Qed.

Lemma outbound_run (v : Revision) (events : list Event) (s : State)
  (offered : list Frame) :
  subsequence (outbound s) offered ->
  subsequence (outbound (run v events s))
              (offered ++ flat_map (offers v) events).
Proof.
  revert s offered.
  induction events as [|e events IH]; intros s offered Hs.
  - simpl. now rewrite app_nil_r.
  - change (run v (e :: events) s) with (run v events (exec (step v e) s)).
    simpl flat_map. rewrite app_assoc. apply IH. now apply outbound_step.
Qed.

(** X6.  Tool responses are bounded by the calls received: part_003 sends
    at most one response for each message whose first function call names
    the task tool, whatever else the message carries, and the components
    revision never sends one. *)
Theorem acknowledgements_bounded (v : Revision) (events : list Event) :
  (List.length (filter is_tool_response (sent (run v events initial)))
   <= match v with
      | part_003 => List.length (filter names_task events)
      | components => 0
      end)%nat.
Proof.
  pose proof (outbound_run v events initial [] subsequence_nil) as H.
  change ([] ++ flat_map (offers v) events)
    with (flat_map (offers v) events) in H.
  unfold outbound in H. apply subsequence_prefix in H.
  apply (subsequence_filter is_tool_response) in H.
  apply subsequence_length in H.
  eapply Nat.le_trans; [exact H|]. clear H.
  induction events as [|e events IH]; simpl; [destruct v; lia|].
  rewrite filter_app, length_app.
  destruct v.
  - destruct e; simpl; try exact IH.
    destruct (toolCall m) as [[|call calls]|]; simpl; try exact IH.
    destruct (String.eqb (call_name call) "assignCodingTask"); simpl; lia.
  - destruct e; simpl; try exact IH.
    all: destruct (toolCall m) as [[|call calls]|]; simpl; exact IH.
Qed.
End Outbound.

(* ===================================================================== *)
(** ** Invariants of the session *)
(* ===================================================================== *)

Section SessionInvariants.

Import Exn LiveInterview Trace.
Local Open Scope list_scope.

Lemma alternating_snoc (l : list Role) (a b : Role) :
  alternating (l ++ [a]) = true -> Role_eqb a b = false ->
  alternating (l ++ [a; b]) = true.
Proof.
  induction l as [|x l IH]; simpl; intros H Hab.
  - now rewrite Hab.
  - apply andb_prop in H as [H1 H2]. rewrite IH by assumption.
    destruct l as [|y l]; simpl in *; now rewrite H1.
Qed.

Lemma forallb_snoc {A} (f : A -> bool) (l : list A) (a : A) :
  forallb f (l ++ [a]) = forallb f l && f a.
Proof. rewrite forallb_app. simpl. now rewrite andb_true_r. Qed.

Lemma truthy_append_r (a b : string) :
  Js.truthy b = true -> Js.truthy (a ++ b) = true.
Proof. destruct a; [auto | reflexivity]. Qed.

Lemma last_or_nil {A} (l : list A) :
  l = [] \/ exists l' a, l = l' ++ [a].
Proof.
  destruct l as [|x l]; [now left|]. right.
  destruct (@exists_last A (x :: l)) as (l' & a & E); [discriminate|].
  eauto.
Qed.

Lemma appendChat_wellFormed (r : Role) (d : string) (h : list ChatMessage) :
  Js.truthy d = true -> wellFormed h = true ->
  wellFormed (appendChat r d h) = true.
Proof.
  intros Hd Hh. destruct (last_or_nil h) as [->|(h' & e & ->)].
  - rewrite appendChat_nil. unfold wellFormed. simpl. now rewrite Hd.
  - rewrite appendChat_last. unfold wellFormed in *.
    apply andb_prop in Hh as [Ha Hf].
    rewrite forallb_snoc in Hf. apply andb_prop in Hf as [Hf He].
    destruct (Role_eqb (role e) r) eqn:E.
    + rewrite map_app in *. simpl map in *. rewrite Ha.
      rewrite forallb_snoc, Hf. simpl.
      now rewrite truthy_append_r.
    + rewrite map_app in *. simpl map in *.
      rewrite alternating_snoc by assumption.
      change (h' ++ [e; {| role := r; text := d |}])
        with (h' ++ [e] ++ [{| role := r; text := d |}]).
      rewrite app_assoc, forallb_snoc, forallb_snoc, Hf, He. simpl.
      now rewrite Hd.
Qed.

Lemma appendAll_wellFormed (deltas : list (Role * string))
  (h : list ChatMessage) :
  forallb (fun rd => Js.truthy (snd rd)) deltas = true ->
  wellFormed h = true -> wellFormed (appendAll deltas h) = true.
Proof.
  revert h. induction deltas as [|[r d] deltas IH]; intros h Hd Hh;
    [exact Hh|].
  simpl in Hd. apply andb_prop in Hd as [Hd1 Hd2].
  unfold appendAll. simpl. apply IH; [exact Hd2|].
  now apply appendChat_wellFormed.
Qed.

Lemma deltas_of_truthy (m : LiveServerMessage) :
  forallb (fun rd => Js.truthy (snd rd)) (deltas_of m) = true.
Proof.
  unfold deltas_of, delta_of.
  destruct (outputTranscription m) as [o|], (inputTranscription m) as [i|];
    simpl; try reflexivity;
    try destruct (Js.truthy o) eqn:Eo; try destruct (Js.truthy i) eqn:Ei;
    simpl; rewrite ?Eo, ?Ei; reflexivity.
Qed.

Lemma wellFormed_step (v : Revision) (e : Event) (s : State) :
  wellFormed (chatHistory s) = true ->
  wellFormed (chatHistory (exec (step v e) s)) = true.
Proof.
  intros H.
  assert (Hq : (forall m t, e <> Message m t) ->
               wellFormed (chatHistory (exec (step v e) s)) = true).
  { intros He. pose proof (quiet_step_transcript v e s He) as Hc.
    unfold transcriptCells in Hc. injection Hc as _ ->. exact H. }
  destruct e; try (apply Hq; intros; discriminate).
  destruct (isMounted s) eqn:Hm.
  - rewrite onmessage_chat by assumption.
    apply appendAll_wellFormed; [apply deltas_of_truthy | exact H].
  - now rewrite onmessage_unmounted.
Qed.

Lemma wellFormed_run (v : Revision) (events : list Event) (s : State) :
  wellFormed (chatHistory s) = true ->
  wellFormed (chatHistory (run v events s)) = true.
Proof.
  revert s. induction events as [|e events IH]; intros s Hs; [exact Hs|].
  simpl. apply IH. now apply wellFormed_step.
Qed.

(** X7.  The speakers take turns in the chat: after any events, in both
    revisions, no two neighbouring entries of the chat history have the
    same role and no entry is empty. *)
Theorem chat_takes_turns (v : Revision) (events : list Event) :
  wellFormed (chatHistory (run v events initial)) = true.
Proof.
  apply wellFormed_run. unfold wellFormed. reflexivity.
Qed.

Lemma weave_empty_transcript (t c : string) :
  weave t c -> t = EmptyString -> c = EmptyString.
Proof.
  induction 1 as [|t c d H IH|t c H IH]; intros E; [reflexivity| |].
  - destruct t; [|discriminate E]. simpl in E. subst d.
    rewrite string_append_empty_r. now apply IH.
  - destruct t; discriminate E.
Qed.

Lemma fullText_empty (h : list ChatMessage) :
  forallb (fun e => Js.truthy (text e)) h = true ->
  fullText h = EmptyString -> h = [].
Proof.
  destruct h as [|e h]; [reflexivity|]. simpl. intros H E.
  apply andb_prop in H as [He _]. destruct (text e); discriminate.
Qed.

(** X8.  The placeholder withholds nothing: after any events from the
    start, in both revisions, an empty transcript, for which ending the
    call hands over the placeholder text, comes with an empty chat; what
    the candidate was shown in the chat is always part of what the
    evaluation is given. *)
Theorem empty_transcript_means_empty_chat (v : Revision)
  (events : list Event) :
  let s := run v events initial in
  transcriptRef s = EmptyString ->
  handleEndCall s = "No transcript available." /\ chatHistory s = [].
Proof.
  cbv zeta. intros E. split.
  - unfold handleEndCall. now rewrite E.
  - pose proof (weave_run v events initial weave_empty) as Hw.
    pose proof (wellFormed_run v events initial eq_refl) as Hf.
    apply weave_empty_transcript in Hw; [|exact E].
    unfold wellFormed in Hf. apply andb_prop in Hf as [_ Hf].
    now apply fullText_empty.
Qed.

Lemma empty_transcript_means_empty_chat_witness :
  chatHistory
    (run part_003 [Open; Settle true; AudioProcess (1 # 2)%Q "AAAA"] initial)
  = [].
Proof.
  exact (proj2 (empty_transcript_means_empty_chat part_003
                  [Open; Settle true; AudioProcess (1 # 2)%Q "AAAA"]
                  eq_refl)).
Defined.

Lemma run_continuation_steady (k : Continuation) (s : State) :
  is_close k = false ->
  steadyCells (exec (unobserved (run_continuation part_003 k)) s) = steadyCells s /\
  sessionPromise (exec (unobserved (run_continuation part_003 k)) s)
  = sessionPromise s.
Proof.
  intros Hk. destruct k; try discriminate Hk; destruct s; unfold exec; simpl;
    try destruct isConnectedRef0; destruct socketOpen0; split; reflexivity.
Qed.

Lemma run_all_steady (ks : list Continuation) (s : State) :
  existsb is_close ks = false ->
  steadyCells (exec (run_all part_003 ks) s) = steadyCells s /\
  sessionPromise (exec (run_all part_003 ks) s) = sessionPromise s.
Proof.
  revert s. induction ks as [|k ks IH]; intros s H; [split; reflexivity|].
  simpl in H. apply orb_false_elim in H as [Hk Hks].
  change (exec (run_all part_003 (k :: ks)) s)
    with (exec (run_all part_003 ks)
            (exec (unobserved (run_continuation part_003 k)) s)).
  destruct (IH (exec (unobserved (run_continuation part_003 k)) s) Hks)
    as [H1 H2].
  destruct (run_continuation_steady k s Hk) as [H3 H4].
  split; congruence.
Qed.

Lemma existsb_snoc {A} (f : A -> bool) (l : list A) (a : A) :
  existsb f (l ++ [a]) = existsb f l || f a.
Proof. rewrite existsb_app. simpl. now rewrite orb_false_r. Qed.

Lemma steady_message (m : LiveServerMessage) (t : Z) (s : State) :
  steadyCells (exec (step part_003 (Message m t)) s) = steadyCells s /\
  (waitingOn (exec (step part_003 (Message m t)) s) = waitingOn s \/
   exists id name,
     waitingOn (exec (step part_003 (Message m t)) s)
     = waitingOn s ++ [SendToolResponse id name]).
Proof.
  split.
  - assert (Hp : preserves steadyCells (step part_003 (Message m t)));
      [|apply Hp].
    assert (Hk : forall id name,
               preserves steadyCells
                 (run_continuation part_003 (SendToolResponse id name))).
    { intros. unfold run_continuation, session_send. preserves_tac. }
    unfold step, onmessage, onToolCall, onTranscription, onAudio,
      onInterrupted, decodeAudioData, then_.
    preserves_tac. all: apply Hk.
  - destruct (isMounted s) eqn:Hm;
      [|rewrite onmessage_unmounted by assumption; now left].
    rewrite onmessage_mounted by assumption.
    assert (Hrest : forall s0,
      sendCells
        (exec (onAudio m t ;; onInterrupted m t)
           (exec (onTranscription user (inputTranscription m))
              (exec (onTranscription ai (outputTranscription m)) s0)))
      = sendCells s0).
    { intros s0.
      assert (Ha : preserves sendCells (onAudio m t ;; onInterrupted m t))
        by (unfold onAudio, onInterrupted, decodeAudioData; preserves_tac).
      assert (Ht : forall r x, preserves sendCells (onTranscription r x))
        by (intros; unfold onTranscription; preserves_tac).
      unfold exec. now rewrite Ha, !Ht. }
    assert (Hw : forall s1 s2, sendCells s1 = sendCells s2 ->
                               waitingOn s1 = waitingOn s2).
    { unfold sendCells, waitingOn. intros s1 s2 H0.
      injection H0 as _ ->. reflexivity. }
    rewrite (Hw _ _ (Hrest _)).
    unfold onToolCall.
    destruct (toolCall m) as [[|call calls]|]; try (now left).
    destruct (String.eqb (call_name call) "assignCodingTask"); [|now left].
    destruct s; unfold exec, waitingOn; simpl.
    destruct isConnectedRef0, sessionPromiseRef0, sessionPromise0,
      socketOpen0; simpl; first [now left | right; eauto].
Qed.

Lemma steady_step (e : Event) (s : State) :
  steady s -> steady (exec (step part_003 e) s).
Proof.
  intros H.
  destruct e.
  - (* Open *)
    intros Hm. destruct s; unfold steady, waitingOn, exec in *; simpl in *.
    destruct isMounted0; simpl in *; [|discriminate].
    destruct (H eq_refl) as (_ & H2 & H3 & H4). auto.
  - (* Settle *)
    destruct (sessionPromise s) as [waiting| |] eqn:Hp.
    + destruct fulfilled.
      * intros Hm.
        assert (He : exec (step part_003 (Settle true)) s
                     = exec (run_all part_003 waiting)
                         (set_sessionPromise Fulfilled s)).
        { unfold step, exec, bind, gets. simpl. now rewrite Hp. }
        rewrite He in *.
        assert (Hm0 : isMounted s = true).
        { destruct (isMounted s) eqn:E; [reflexivity|].
          destruct (unmounted_step part_003 (Settle true) s E) as [Hu _];
            [discriminate|].
          rewrite He in Hu. congruence. }
        destruct (H Hm0) as (H1 & H2 & H3 & H4).
        unfold waitingOn in H2. rewrite Hp in H2.
        destruct (run_all_steady waiting (set_sessionPromise Fulfilled s) H2)
          as [Hc Hq].
        assert (Hs : steadyCells (set_sessionPromise Fulfilled s) = steadyCells s)
          by now destruct s.
        rewrite Hs in Hc. unfold steadyCells in Hc.
        set (s' := exec (run_all part_003 waiting)
                     (set_sessionPromise Fulfilled s)) in *.
        assert (E2 : isConnectedRef s' = isConnectedRef s) by congruence.
        assert (E3 : socketOpen s' = socketOpen s) by congruence.
        assert (E4 : processorConnected s' = processorConnected s) by congruence.
        assert (E5 : videoInterval s' = videoInterval s) by congruence.
        rewrite E2, E3, E4, E5.
        unfold waitingOn. rewrite Hq.
        replace (sessionPromise (set_sessionPromise Fulfilled s))
          with Fulfilled by now destruct s.
        auto.
      * intros Hm. destruct s; unfold steady, waitingOn, exec in *;
          simpl in *. subst.
        destruct isMounted0; simpl in *; [|discriminate].
        destruct (H eq_refl) as (_ & H2 & H3 & H4).
        repeat split; auto; discriminate.
    + replace (exec (step part_003 (Settle fulfilled)) s) with s; [exact H|].
      unfold step, exec, bind, gets. simpl. now rewrite Hp.
    + replace (exec (step part_003 (Settle fulfilled)) s) with s; [exact H|].
      unfold step, exec, bind, gets. simpl. now rewrite Hp.
  - (* Message *)
    destruct (steady_message m currentTime s) as [Hc Hw].
    unfold steady, steadyCells in *.
    set (s' := exec (step part_003 (Message m currentTime)) s) in *.
    assert (E1 : isMounted s' = isMounted s) by congruence.
    assert (E2 : isConnectedRef s' = isConnectedRef s) by congruence.
    assert (E3 : socketOpen s' = socketOpen s) by congruence.
    assert (E4 : processorConnected s' = processorConnected s) by congruence.
    assert (E5 : videoInterval s' = videoInterval s) by congruence.
    rewrite E1, E2, E3, E4, E5.
    intros Hm. destruct (H Hm) as (H1 & H2 & H3 & H4).
    repeat split; auto.
    destruct Hw as [->|(id & name & ->)]; [exact H2|].
    rewrite existsb_snoc, H2. reflexivity.
  - (* Close *)
    intros Hm. destruct s; unfold steady, waitingOn, exec in *; simpl in *.
    destruct (H Hm) as (_ & H2 & H3 & H4). repeat split; auto; discriminate.
  - (* Error *)
    intros Hm. destruct s; unfold steady, waitingOn, exec in *; simpl in *.
    destruct isMounted0; simpl in *; [|discriminate].
    destruct (H eq_refl) as (_ & H2 & H3 & H4).
    repeat split; auto; discriminate.
  - (* AudioProcess *)
    intros Hm. destruct s; unfold steady, waitingOn, exec in *; simpl in *.
    destruct processorConnected0, isMicOnRef0, isConnectedRef0, isMounted0,
      sessionPromise0, socketOpen0; simpl in *; try discriminate;
      try (destruct (H eq_refl) as (H1 & H2 & H3 & H4); repeat split; auto;
           rewrite ?existsb_snoc, ?H2; auto; discriminate).
  - (* VideoTick *)
    intros Hm. destruct s; unfold steady, waitingOn, exec in *; simpl in *.
    destruct videoInterval0, domReady, isConnectedRef0, isMounted0,
      sessionPromise0, socketOpen0; simpl in *; try discriminate;
      try (destruct (H eq_refl) as (H1 & H2 & H3 & H4); repeat split; auto;
           rewrite ?existsb_snoc, ?H2; auto; discriminate).
  - (* SourceEnded *)
    intros Hm. destruct s; unfold steady, waitingOn, exec in *; simpl in *.
    exact (H Hm).
  - (* ToggleMic *)
    intros Hm. destruct s; unfold steady, waitingOn, exec in *; simpl in *.
    exact (H Hm).
  - (* Unmount *)
    intros Hm. exfalso. destruct s; unfold exec in Hm; simpl in Hm.
    destruct sessionPromise0; simpl in Hm; try discriminate;
      destruct socketOpen0; discriminate.
Qed.

Lemma steady_run (events : list Event) (s : State) :
  steady s -> steady (run part_003 events s).
Proof.
  revert s. induction events as [|e events IH]; intros s H; [exact H|].
  simpl. apply IH. now apply steady_step.
Qed.

(** X9.  Nothing offered over a live channel is lost: in part_003, after
    any events that leave the component mounted, a raised connected flag
    means that the socket is open; and a capture buffer with the
    microphone on, or a video tick with the elements in place, handled
    while the flag is up and the connect promise has not failed, is
    written to the socket, or queued behind the promise, as the next
    frame. *)
Theorem nothing_offered_is_lost (events : list Event) (e : Event) :
  let s := run part_003 events initial in
  isMounted s = true ->
  isConnectedRef s = true ->
  socketOpen s = true /\
  (sessionPromise s <> Rejected ->
   captured s e = true ->
   outbound (exec (step part_003 e) s) = outbound s ++ offers part_003 e).
Proof.
  cbv zeta. intros Hm Hc.
  assert (Hs : steady (run part_003 events initial)).
  { apply steady_run. intros _. repeat split; try reflexivity. discriminate. }
  destruct (Hs Hm) as (H1 & H2 & H3 & H4).
  split; [auto|]. intros Hp He.
  specialize (H1 Hc).
  destruct (run part_003 events initial); simpl in *. subst.
  destruct e; try discriminate He; simpl in He; subst;
    unfold outbound, waitingOn, exec; simpl;
    destruct sessionPromise0; simpl; try contradiction;
    rewrite ?flat_map_app, ?app_nil_r, ?app_assoc; simpl;
    rewrite ?app_nil_r; reflexivity.
Qed.

Lemma nothing_offered_is_lost_witness :
  sent (run part_003 [Open; Settle true; AudioProcess (1 # 2)%Q "AAAA"] initial)
  = [audioFrame "AAAA"].
Proof.
  destruct (nothing_offered_is_lost [Open; Settle true]
              (AudioProcess (1 # 2)%Q "AAAA") eq_refl eq_refl) as [_ H].
  reflexivity.
Defined.

End SessionInvariants.

(* ===================================================================== *)
(** ** Facts about [initializeSession] *)
(* ===================================================================== *)

Section StartupFacts.

Import Exn LiveInterview Trace Startup.
Local Open Scope list_scope.

Lemma userMsg_truthy (err : thrown) : Js.truthy (userMsg err) = true.
Proof.
  unfold userMsg.
  destruct err as [message|]; [destruct message as [|a m] eqn:E|];
    cbn [Js.truthy]; try reflexivity.
  repeat match goal with
         | |- context [if ?b then _ else _] => destruct b
         end; reflexivity.
Qed.

(** X10.  Where the runs of the session begin: with an API key, an
    accepted context and a granted stream, and the component still
    mounted, [initializeSession] takes the freshly created component
    exactly to the state [initial] the session model starts from, with the
    devices requested and the stream held. *)
Theorem startup_reaches_initial (b : Browser) :
  Js.truthy_opt (API_KEY b) = true ->
  contextAccepted b = true ->
  getUserMedia b = Stream ->
  unmountsWhileWaiting b = false ->
  initializeSession b fresh
  = {| component := initial; devicesRequested := true; streamRef := true |}.
Proof.
  unfold contextAccepted, initializeSession, initializeSession_try.
  intros Hk Hc Hm Hu. rewrite Hk, Hm, Hu.
  destruct (isSecureContext b), (String.eqb (hostname b) "localhost"),
    (String.eqb (hostname b) "127.0.0.1"); try discriminate; reflexivity.
Qed.

Lemma startup_reaches_initial_witness :
  component (initializeSession localBrowser fresh) = initial.
Proof.
  now rewrite (startup_reaches_initial localBrowser).
Defined.

(** X11.  Startup never fails silently: whatever the browser does, a
    component that is still mounted when [initializeSession] ends has
    either called [ai.live.connect], with no banner, or shows a non-empty
    error banner, is no longer connecting, and has installed neither the
    audio processor nor the video timer; and the devices are asked for
    only with a key and an accepted context. *)
Theorem startup_connects_or_explains (b : Browser) :
  let c := initializeSession b fresh in
  (isMounted (component c) = true ->
     (component c = initial /\ streamRef c = true)
     \/ (exists message,
           connectionError (component c) = Some message /\
           Js.truthy message = true /\
           isConnecting (component c) = false /\
           sessionPromiseRef (component c) = false /\
           processorConnected (component c) = false /\
           videoInterval (component c) = false /\
           streamRef c = false)) /\
  devicesRequested c = Js.truthy_opt (API_KEY b) && contextAccepted b.
Proof.
  unfold contextAccepted, initializeSession, initializeSession_try.
  cbv zeta.
  destruct (Js.truthy_opt (API_KEY b)); cbn [negb andb orb].
  2:{ split; [|reflexivity]. intros _. right. eexists.
      repeat split; try reflexivity. }
  destruct (isSecureContext b), (String.eqb (hostname b) "localhost"),
    (String.eqb (hostname b) "127.0.0.1"); cbn [negb andb orb].
  all: try (split; [|reflexivity]; intros _; right; eexists;
            repeat split; reflexivity).
  all: destruct (unmountsWhileWaiting b), (getUserMedia b) as [|name message];
    (split; [|reflexivity]); cbn; try discriminate; intros _;
    try (left; split; reflexivity).
  all: right; eexists; repeat split; try reflexivity; apply userMsg_truthy.
Qed.

Lemma startup_connects_or_explains_witness :
  connectionError (component (initializeSession refusingBrowser fresh))
  = Some "PERMISSION DENIED: Please allow Camera & Microphone access in browser settings.".
Proof.
  destruct (startup_connects_or_explains refusingBrowser) as [H _].
  destruct (H eq_refl) as [[Hc _]|(message & Hm & _)].
  - apply (f_equal sessionPromiseRef) in Hc. discriminate Hc.
  - reflexivity.
Defined.

(** X12.  Leaving while the device prompt is open: with a key and an
    accepted context, when the cleanup of the effect runs during the wait
    for [getUserMedia], the component is never connected and none of its
    React state is written, whatever the prompt ends in; but a stream
    granted afterwards is stored in [streamRef] after the cleanup that
    would have stopped its tracks has already run. *)
Theorem unmount_while_waiting (b : Browser) :
  Js.truthy_opt (API_KEY b) = true ->
  contextAccepted b = true ->
  unmountsWhileWaiting b = true ->
  let c := initializeSession b fresh in
  component c = cleanupWhileWaiting (set_audioContextRef true mounting) /\
  uiCells (component c) = uiCells mounting /\
  sessionPromiseRef (component c) = false /\
  streamRef c = match getUserMedia b with Stream => true | _ => false end.
Proof.
  unfold contextAccepted, initializeSession, initializeSession_try.
  intros Hk Hc Hu. cbv zeta. rewrite Hk, Hu.
  destruct (isSecureContext b), (String.eqb (hostname b) "localhost"),
    (String.eqb (hostname b) "127.0.0.1"); try discriminate;
    destruct (getUserMedia b); repeat split; reflexivity.
Qed.

Lemma unmount_while_waiting_witness :
  isMounted (component (initializeSession leavingBrowser fresh)) = false /\
  streamRef (initializeSession leavingBrowser fresh) = true.
Proof.
  destruct (unmount_while_waiting leavingBrowser) as (Hc & _ & _ & Hs);
    try reflexivity.
  split; [now rewrite Hc | exact Hs].
Defined.

End StartupFacts.

(* ===================================================================== *)
(** ** Facts about the editor keys *)
(* ===================================================================== *)

Section EditorFacts.

Import Editor.

Lemma String_substring_all (s : string) (n : nat) :
  String.length s <= n -> String.substring 0 n s = s.
Proof.
  revert n. induction s as [|c s IH]; intros n H.
  - now destruct n.
  - destruct n as [|n]; simpl in *; [lia|]. rewrite IH by lia. reflexivity.
Qed.

Lemma String_substring_drop (s : string) (i n : nat) :
  String.substring i n s = String.substring 0 n (Js.drop i s).
Proof.
  revert i. induction s as [|c s IH]; intros i.
  - destruct i, n; reflexivity.
  - destruct i as [|i]; [reflexivity|]. simpl. apply IH.
Qed.

Lemma drop_length (s : string) (i : nat) :
  String.length (Js.drop i s) = String.length s - i.
Proof.
  revert i. induction s as [|c s IH]; intros [|i]; simpl; auto.
Qed.

Lemma take_drop (s : string) (a : nat) :
  String.substring 0 a s ++ Js.drop a s = s.
Proof.
  revert a. induction s as [|c s IH]; intros [|a]; simpl; try reflexivity.
  now rewrite IH.
Qed.

Lemma drop_app (a b : string) (n : nat) :
  String.length a <= n ->
  Js.drop n (a ++ b) = Js.drop (n - String.length a) b.
Proof.
  revert n. induction a as [|c a IH]; intros n H; simpl in *.
  - now rewrite Nat.sub_0_r.
  - destruct n as [|n]; [lia|]. simpl. apply IH. lia.
Qed.

Lemma take_take_drop (s : string) (i a : nat) :
  i <= a ->
  String.substring i (a - i) s = Js.drop i (String.substring 0 a s).
Proof.
  revert i a. induction s as [|c s IH]; intros i a H.
  - destruct i, a; reflexivity.
  - destruct i as [|i].
    + rewrite Nat.sub_0_r. reflexivity.
    + destruct a as [|a]; [lia|]. simpl. apply IH. lia.
Qed.

Lemma substring_prefix (code : string) (a : nat) :
  a <= String.length code -> Js.substring code 0 a = String.substring 0 a code.
Proof.
  intros H. unfold Js.substring. cbv zeta.
  replace (Nat.min 0 (String.length code)) with 0 by lia.
  replace (Nat.min a (String.length code)) with a by lia.
  replace (Nat.min 0 a) with 0 by lia.
  replace (Nat.max 0 a - 0) with a by lia. reflexivity.
Qed.

Lemma substringFrom_drop (code : string) (b : nat) :
  b <= String.length code -> substringFrom code b = Js.drop b code.
Proof.
  intros H. unfold substringFrom, Js.substring. cbv zeta.
  rewrite Nat.min_id.
  replace (Nat.min b (String.length code)) with b by lia.
  replace (Nat.min b (String.length code)) with b by lia.
  replace (Nat.max b (String.length code) - b)
    with (String.length code - b) by lia.
  rewrite String_substring_drop. apply String_substring_all.
  rewrite drop_length. lia.
Qed.

Lemma substring_between (code : string) (i a : nat) :
  i <= a -> a <= String.length code ->
  Js.substring code i a = Js.drop i (String.substring 0 a code).
Proof.
  intros Hi Ha. unfold Js.substring. cbv zeta.
  replace (Nat.min i (String.length code)) with i by lia.
  replace (Nat.min a (String.length code)) with a by lia.
  replace (Nat.min i a) with i by lia.
  replace (Nat.max i a) with a by lia.
  now apply take_take_drop.
Qed.

Lemma leadingSpace_all_space (s : string) :
  Js.all_space (leadingSpace s) = true.
Proof.
  induction s as [|c s IH]; simpl; [reflexivity|].
  destruct (Js.is_space c) eqn:E; simpl; [now rewrite E|reflexivity].
Qed.

Lemma all_space_app (a b : string) :
  Js.all_space (a ++ b) = Js.all_space a && Js.all_space b.
Proof.
  induction a as [|c a IH]; simpl; [reflexivity|].
  now rewrite IH, andb_assoc.
Qed.

Lemma totalIndent_all_space (code : string) (a : nat) :
  Js.all_space (totalIndent code a) = true.
Proof.
  unfold totalIndent. cbv zeta. rewrite all_space_app, leadingSpace_all_space.
  now destruct (_ || _ || _).
Qed.

(** X13.  What the two keys do to the text: with the selection inside the
    text, Tab and Enter replace the selected span by a non-empty run of
    white space and put the caret right after it; the text before and
    after the selection is kept as it was. *)
Theorem key_inserts_white_space (key : Key) (code : string)
  (selectionStart selectionEnd : nat) (newValue : string) (caret : nat) :
  selectionStart <= selectionEnd -> selectionEnd <= String.length code ->
  handleEditorKeyDown key code selectionStart selectionEnd
  = Some (newValue, caret) ->
  exists inserted,
    newValue = String.substring 0 selectionStart code ++ inserted
               ++ Js.drop selectionEnd code /\
    Js.all_space inserted = true /\
    Js.truthy inserted = true /\
    caret = selectionStart + String.length inserted.
Proof.
  intros Hse Hel H. destruct key; simpl in H; [| |discriminate].
  - injection H as <- <-.
    rewrite substring_prefix, substringFrom_drop by lia.
    exists "  ". repeat split.
  - injection H as <- <-.
    rewrite substring_prefix, substringFrom_drop by lia.
    exists (String lineFeed (totalIndent code selectionStart)).
    repeat split.
    + simpl. apply totalIndent_all_space.
    + simpl. lia.
Qed.

Lemma key_inserts_white_space_witness :
  exists inserted,
    "ab  ef" = "ab" ++ inserted ++ "ef" /\ String.length inserted = 2.
Proof.
  destruct (key_inserts_white_space Tab "abcdef" 2 4 "ab  ef" 4)
    as (inserted & Hv & _ & _ & Hc); [simpl; lia | simpl; lia | reflexivity |].
  exists inserted. split; [exact Hv | lia].
Defined.

Lemma lastIndexOf_none_indexOf (c : ascii) (s : string) :
  Js.lastIndexOf c s = None -> Js.indexOf c s = None.
Proof.
  induction s as [|x s IH]; simpl; [reflexivity|].
  destruct (Js.lastIndexOf c s); [discriminate|].
  destruct (Ascii.eqb x c); [discriminate|]. now rewrite IH.
Qed.

Lemma indexOf_none_lastIndexOf (c : ascii) (s : string) :
  Js.indexOf c s = None -> Js.lastIndexOf c s = None.
Proof.
  induction s as [|x s IH]; simpl; [reflexivity|].
  destruct (Ascii.eqb x c); [discriminate|].
  destruct (Js.indexOf c s); [discriminate|]. now rewrite IH.
Qed.

Lemma lastIndexOf_tail (c : ascii) (s : string) (i : nat) :
  Js.lastIndexOf c s = Some i -> Js.indexOf c (Js.drop (i + 1) s) = None.
Proof.
  revert i. induction s as [|x s IH]; simpl; intros i H; [discriminate|].
  destruct (Js.lastIndexOf c s) as [j|] eqn:E.
  - injection H as <-. simpl. now apply IH.
  - destruct (Ascii.eqb x c); [|discriminate]. injection H as <-.
    simpl. now apply lastIndexOf_none_indexOf.
Qed.

Lemma lastIndexOf_bound (c : ascii) (s : string) (i : nat) :
  Js.lastIndexOf c s = Some i -> i < String.length s.
Proof.
  revert i. induction s as [|x s IH]; simpl; intros i H; [discriminate|].
  destruct (Js.lastIndexOf c s) as [j|] eqn:E.
  - injection H as <-. specialize (IH j eq_refl). lia.
  - destruct (Ascii.eqb x c); [|discriminate]. injection H as <-. lia.
Qed.

Lemma take_length (s : string) (a : nat) :
  a <= String.length s -> String.length (String.substring 0 a s) = a.
Proof.
  revert a. induction s as [|c s IH]; intros [|a] H; simpl in *;
    try reflexivity; try lia.
  rewrite IH by lia. reflexivity.
Qed.

Lemma leadingSpace_indexOf (c : ascii) (s : string) :
  Js.indexOf c s = None -> Js.indexOf c (leadingSpace s) = None.
Proof.
  induction s as [|x s IH]; simpl; [reflexivity|].
  destruct (Ascii.eqb x c) eqn:E; [discriminate|].
  destruct (Js.indexOf c s); [discriminate|]. intros _.
  destruct (Js.is_space x); simpl; [|reflexivity].
  now rewrite E, IH.
Qed.

Lemma currentLine_inner (code : string) (a : nat) :
  0 < a -> a <= String.length code ->
  Js.indexOf lineFeed (currentLine code a) = None.
Proof.
  intros Ha Hl. unfold currentLine, lastIndexOfFrom. cbv zeta.
  replace (S (Z.to_nat (Z.max 0 (Z.of_nat a - 1)))) with a by lia.
  destruct (Js.lastIndexOf lineFeed (String.substring 0 a code)) as [i|] eqn:E.
  - pose proof (lastIndexOf_bound _ _ _ E) as Hi.
    rewrite take_length in Hi by assumption.
    rewrite substring_between by lia. now apply lastIndexOf_tail.
  - rewrite substring_prefix by assumption.
    now apply lastIndexOf_none_indexOf.
Qed.

(** X14.  Line breaks on Enter: with the caret after the first position
    the inserted text is one line feed followed by an indentation that
    holds none; but with the caret at position 0 of a text that begins
    with a line feed, the search for the start of the line finds that
    line feed, takes it for the indentation, and two line feeds are
    inserted. *)
Theorem enter_line_feeds :
  (forall (code : string) (selectionStart : nat),
      0 < selectionStart -> selectionStart <= String.length code ->
      Js.indexOf lineFeed (totalIndent code selectionStart) = None) /\
  (forall (rest : string) (selectionEnd : nat),
      selectionEnd <= String.length (String lineFeed rest) ->
      handleEditorKeyDown Enter (String lineFeed rest) 0 selectionEnd
      = Some (String lineFeed
                (String lineFeed (Js.drop selectionEnd (String lineFeed rest))),
              2)) /\
  (forall (c : ascii) (rest : string),
      c <> lineFeed -> totalIndent (String c rest) 0 = EmptyString).
Proof.
  split; [|split].
  - intros code a Ha Hl. unfold totalIndent. cbv zeta.
    apply indexOf_append_none.
    + apply leadingSpace_indexOf. now apply currentLine_inner.
    + now destruct (_ || _ || _).
  - intros rest b Hb. unfold handleEditorKeyDown. cbv zeta.
    rewrite substringFrom_drop by assumption.
    assert (Ht : totalIndent (String lineFeed rest) 0
                 = String lineFeed EmptyString) by (now destruct rest).
    rewrite Ht. reflexivity.
  - intros c rest Hc.
    unfold totalIndent, currentLine, lastIndexOfFrom. simpl Z.to_nat.
    change (String.substring 0 1 (String c rest))
      with (String c (String.substring 0 0 rest)).
    replace (String.substring 0 0 rest) with EmptyString by (now destruct rest).
    simpl Js.lastIndexOf.
    destruct (Ascii.eqb c lineFeed) eqn:E;
      [apply Ascii.eqb_eq in E; contradiction|].
    reflexivity.
Qed.

Lemma enter_line_feeds_witness :
  Js.indexOf lineFeed (totalIndent halfTyped 26) = None /\
  handleEditorKeyDown Enter (String lineFeed "x") 0 0
  = Some (String lineFeed (String lineFeed (String lineFeed "x")), 2).
Proof.
  destruct enter_line_feeds as (Hinner & Hstart & _).
  split.
  - apply Hinner; [apply Nat.lt_0_succ | apply Nat.le_refl].
  - apply Hstart. apply Nat.le_0_l.
Defined.

Lemma trimStart_lastVisible (s : string) :
  lastVisible (trimStart s) = lastVisible s.
Proof.
  induction s as [|c s IH]; [reflexivity|].
  simpl trimStart. destruct (Js.is_space c) eqn:E; [|reflexivity].
  rewrite IH. simpl. rewrite E. now destruct (lastVisible s).
Qed.

Lemma trimEnd_empty (s : string) :
  lastVisible s = None -> trimEnd s = EmptyString.
Proof.
  induction s as [|c s IH]; simpl; [reflexivity|].
  destruct (lastVisible s); [discriminate|].
  destruct (Js.is_space c); [|discriminate]. intros _. now rewrite IH.
Qed.

Lemma trimEnd_visible (s : string) :
  trimEnd s = EmptyString -> lastVisible s = None.
Proof.
  induction s as [|c s IH]; simpl; [reflexivity|].
  destruct (trimEnd s); [|discriminate].
  destruct (Js.is_space c); [|discriminate]. intros _. now rewrite IH.
Qed.

Lemma endsWith_trimEnd (c : ascii) (s : string) :
  endsWith c (trimEnd s)
  = match lastVisible s with
    | Some x => Ascii.eqb x c
    | None => false
    end.
Proof.
  induction s as [|a s IH]; [reflexivity|].
  simpl trimEnd. simpl lastVisible.
  destruct (lastVisible s) as [x|] eqn:L.
  - destruct (trimEnd s) as [|t ts] eqn:T.
    + apply trimEnd_visible in T. congruence.
    + exact IH.
  - rewrite trimEnd_empty by assumption.
    destruct (Js.is_space a); reflexivity.
Qed.

Lemma endsWith_trim (c : ascii) (s : string) :
  endsWith c (trim s)
  = match lastVisible s with
    | Some x => Ascii.eqb x c
    | None => false
    end.
Proof. unfold trim. now rewrite endsWith_trimEnd, trimStart_lastVisible. Qed.

(** X15.  Auto-indent: when the caret, past position 0, stands on a line
    (the text since the last line feed before it), Enter opens a new line
    that starts with the white space the current line starts with,
    followed by two more spaces exactly when the last visible character
    before the caret is an opening brace, a colon or an opening
    parenthesis; the selection is dropped and the caret lands after the
    indentation. *)
Theorem enter_continues_indentation (pre line post : string)
  (selectionEnd : nat) :
  pre = EmptyString \/ (exists p, pre = p ++ String lineFeed EmptyString) ->
  Js.indexOf lineFeed line = None ->
  0 < String.length pre + String.length line ->
  String.length pre + String.length line <= selectionEnd ->
  selectionEnd <= String.length (pre ++ line ++ post) ->
  let indent :=
    leadingSpace line ++ (if opensBlock line then "  " else EmptyString) in
  handleEditorKeyDown Enter (pre ++ line ++ post)
    (String.length pre + String.length line) selectionEnd
  = Some (pre ++ line ++ String lineFeed EmptyString ++ indent
          ++ Js.drop (selectionEnd - (String.length pre + String.length line)) post,
          String.length pre + String.length line + 1 + String.length indent).
Proof.
  intros Hpre Hline Hpos Hse Hel. cbv zeta.
  set (a := String.length pre + String.length line) in *.
  assert (Hlen : String.length (pre ++ line ++ post)
                 = a + String.length post)
    by (rewrite !string_length_append; lia).
  assert (Htake : String.substring 0 a (pre ++ line ++ post) = pre ++ line).
  { rewrite <- string_append_assoc. subst a.
    rewrite <- string_length_append. apply String_substring_head. }
  assert (Hcur : currentLine (pre ++ line ++ post) a = line).
  { unfold currentLine, lastIndexOfFrom. cbv zeta.
    replace (S (Z.to_nat (Z.max 0 (Z.of_nat a - 1)))) with a by lia.
    rewrite Htake.
    assert (Hstart : match Js.lastIndexOf lineFeed (pre ++ line) with
                     | Some i => i + 1
                     | None => 0
                     end = String.length pre).
    { destruct Hpre as [->|[p ->]].
      - simpl. now rewrite indexOf_none_lastIndexOf.
      - rewrite string_append_assoc. simpl append.
        rewrite lastIndexOf_append_fresh
          by now apply indexOf_none_lastIndexOf.
        rewrite string_length_append. simpl. reflexivity. }
    rewrite Hstart. subst a. apply substring_span. }
  unfold handleEditorKeyDown, totalIndent. cbv zeta. rewrite Hcur.
  rewrite !endsWith_trim.
  rewrite substring_prefix by lia. rewrite Htake.
  rewrite substringFrom_drop by assumption.
  rewrite <- (string_append_assoc pre line post).
  rewrite drop_app by (rewrite string_length_append; fold a; lia).
  rewrite string_length_append. fold a.
  unfold opensBlock.
  rewrite !string_append_assoc.
  destruct (lastVisible line) as [x|]; reflexivity.
Qed.

Lemma enter_continues_indentation_witness :
  handleEditorKeyDown Enter halfTyped 26 26
  = Some (halfTyped ++ String lineFeed EmptyString ++ "      ", 33).
Proof.
  exact (enter_continues_indentation
           ("if (x) {" ++ String lineFeed EmptyString)
           "    while (y) {  " EmptyString 26
           (or_intror (ex_intro _ "if (x) {" eq_refl))
           eq_refl (Nat.lt_0_succ _)
           (Nat.le_refl _) (Nat.le_refl _)).
Defined.

End EditorFacts.

(* ===================================================================== *)
(** ** Facts about the video frame and the clock *)
(* ===================================================================== *)

Section CanvasFacts.

Import LiveInterview Canvas.
Local Open Scope list_scope.
Local Open Scope Z_scope.

Lemma textsOf_app (a b : list Draw) :
  textsOf (a ++ b) = textsOf a ++ textsOf b.
Proof.
  induction a as [|d a IH]; [reflexivity|].
  destruct d; simpl; now rewrite IH.
Qed.

Lemma drawLines_rows (lines : list string) (index : Z) :
  0 <= index ->
  textsOf (drawLines 360 index lines)
  = rows index (firstn (Z.to_nat (17 - index)) lines).
Proof.
  revert index. induction lines as [|line lines IH]; intros index Hi.
  - now rewrite firstn_nil.
  - cbn [drawLines]. cbv zeta. rewrite textsOf_app, IH by lia.
    destruct (index * 20 <? 360 - 20) eqn:E.
    + apply Z.ltb_lt in E.
      replace (Z.to_nat (17 - index))
        with (S (Z.to_nat (17 - (index + 1)))) by lia.
      reflexivity.
    + apply Z.ltb_ge in E.
      replace (Z.to_nat (17 - index)) with 0%nat by lia.
      replace (Z.to_nat (17 - (index + 1))) with 0%nat by lia.
      reflexivity.
Qed.

Lemma rows_inside (lines : list string) (index : Z) :
  0 <= index -> index + Z.of_nat (List.length lines) <= 17 ->
  Forall (fun row => 20 <= snd row <= 340) (rows index lines).
Proof.
  revert index. induction lines as [|line lines IH]; intros index H0 H;
    cbn [rows]; constructor.
  - cbn [snd]. cbn [List.length] in H. lia.
  - cbn [List.length] in H. apply IH; lia.
Qed.

Lemma drawLines_no_image (height index : Z) (lines : list string) :
  filter is_image (drawLines height index lines) = [].
Proof.
  revert index. induction lines as [|line lines IH]; intros index;
    [reflexivity|].
  cbn [drawLines]. cbv zeta. rewrite filter_app, IH.
  now destruct (_ <? _).
Qed.

(** X16.  What the interviewer can read of the code: in the code tab the
    frame shows the first 17 lines of the editor, the i-th at height
    20 + 20 i, all inside the 360-pixel canvas; a line after the 17th is
    never painted, with or without the camera inset. *)
Theorem frame_shows_first_lines (isVideoOn : bool) (code : string) :
  textsOf (drawFrame codeTab isVideoOn code)
  = rows 0 (firstn 17 (split Editor.lineFeed code)) /\
  Forall (fun row => 20 <= snd row <= 340)
         (textsOf (drawFrame codeTab isVideoOn code)).
Proof.
  assert (H : textsOf (drawFrame codeTab isVideoOn code)
              = rows 0 (firstn 17 (split Editor.lineFeed code))).
  { unfold drawFrame, renderCodeToCanvas. cbv zeta.
    cbn [textsOf List.app]. rewrite !textsOf_app.
    rewrite drawLines_rows by lia.
    destruct isVideoOn; simpl; now rewrite !app_nil_r. }
  split; [exact H|]. rewrite H. apply rows_inside; [lia|].
  pose proof (firstn_le_length 17 (split Editor.lineFeed code)). lia.
Qed.

(** X17.  The camera switch is honoured in the frames sent: with the video
    off no frame holds an image of the camera, in either tab; with it on
    each frame holds exactly one, the full canvas in the video tab and the
    160 by 90 inset at the bottom right in the code tab. *)
Theorem camera_off_sends_no_image (activeTab : Tab) (isVideoOn : bool)
  (code : string) :
  filter is_image (drawFrame activeTab isVideoOn code)
  = if isVideoOn
    then [match activeTab with
          | videoTab => DrawImage 0 0 640 360
          | codeTab => DrawImage 470 260 160 90
          end]
    else [].
Proof.
  unfold drawFrame, renderCodeToCanvas. cbv zeta.
  destruct activeTab, isVideoOn; try reflexivity;
    cbn [filter is_image List.app];
    rewrite !filter_app, drawLines_no_image; reflexivity.
Qed.

End CanvasFacts.

Section TimerFacts.

Import Timer.

Lemma digits_have_no_colon (d : Decimal.uint) :
  Js.indexOf ":" (DecimalString.NilEmpty.string_of_uint d) = None.
Proof. induction d; simpl; try rewrite IHd; reflexivity. Qed.

Lemma padStart2_no_colon (n : nat) :
  Js.indexOf ":" (padStart2 (toString n)) = None.
Proof.
  unfold padStart2, toString.
  pose proof (digits_have_no_colon (Nat.to_uint n)) as H.
  destruct (String.length _) as [|[|k]]; [reflexivity| |exact H].
  simpl. now rewrite H.
Qed.

Lemma numberOf_toString (n : nat) : numberOf (toString n) = Some n.
Proof.
  unfold numberOf, toString. rewrite DecimalString.NilEmpty.usu. simpl.
  now rewrite DecimalNat.Unsigned.of_to.
Qed.

Lemma numberOf_zero (s : string) (n : nat) :
  numberOf s = Some n -> numberOf (String "0" s) = Some n.
Proof.
  unfold numberOf. simpl.
  destruct (DecimalString.NilEmpty.uint_of_string s) as [d|];
    [|discriminate].
  simpl. intros H. injection H as <-. reflexivity.
Qed.

Lemma numberOf_padStart2 (n : nat) : numberOf (padStart2 (toString n)) = Some n.
Proof.
  pose proof (numberOf_toString n) as H. unfold padStart2.
  destruct (toString n) as [|a [|b s]] eqn:E; simpl String.length; cbv iota.
  - unfold numberOf in H. simpl in H. injection H as <-. reflexivity.
  - now apply numberOf_zero.
  - exact H.
Qed.

Lemma split_at_colon (a1 b1 a2 b2 : string) :
  Js.indexOf ":" a1 = None -> Js.indexOf ":" a2 = None ->
  a1 ++ String ":" b1 = a2 ++ String ":" b2 -> a1 = a2 /\ b1 = b2.
Proof.
  revert a2. induction a1 as [|x a1 IH]; intros [|y a2] H1 H2 H;
    simpl in *.
  - injection H as ->. auto.
  - injection H as <- _. discriminate H2.
  - injection H as -> _. discriminate H1.
  - injection H as -> H.
    destruct (Ascii.eqb y ":"); [discriminate|].
    destruct (Js.indexOf ":" a1) eqn:E1; [discriminate|].
    destruct (Js.indexOf ":" a2) eqn:E2; [discriminate|].
    destruct (IH a2 eq_refl E2 H) as [-> ->]. auto.
Qed.

(** X18.  The clock never shows the same text for two different counts of
    seconds: minutes are not wrapped at the hour, and the padding to two
    digits loses nothing. *)
Theorem formatTime_injective (a b : nat) :
  formatTime a = formatTime b -> a = b.
Proof.
  unfold formatTime. cbv zeta. intros H.
  apply split_at_colon in H as [Hm Hs]; try apply padStart2_no_colon.
  apply (f_equal numberOf) in Hm, Hs.
  rewrite !numberOf_padStart2 in Hm, Hs.
  assert (Hm' : a / 60 = b / 60) by congruence.
  assert (Hs' : a mod 60 = b mod 60) by congruence.
  pose proof (Nat.div_mod_eq a 60). pose proof (Nat.div_mod_eq b 60). lia.
Qed.

Lemma formatTime_injective_witness : 3599 = 3599.
Proof. exact (formatTime_injective 3599 3599 eq_refl). Defined.

(** X19.  The shape of the clock: below one hundred minutes the text has
    five characters, the colon in the middle, the two before it writing
    the minutes and the two after it the seconds of the minute. *)
Theorem formatTime_five_characters (seconds : nat) :
  seconds < 100 * 60 ->
  String.length (formatTime seconds) = 5 /\
  String.get 2 (formatTime seconds) = Some ":"%char /\
  numberOf (String.substring 0 2 (formatTime seconds)) = Some (seconds / 60) /\
  numberOf (String.substring 3 2 (formatTime seconds)) = Some (seconds mod 60).
Proof.
  intros H.
  assert (Hpad : forall n, n < 100 -> String.length (padStart2 (toString n)) = 2).
  { assert (Hall : forallb (fun n => Nat.eqb (String.length (padStart2 (toString n))) 2)
                           (seq 0 100) = true) by (vm_compute; reflexivity).
    intros n Hn. rewrite forallb_forall in Hall.
    apply Nat.eqb_eq. apply Hall. apply in_seq. lia. }
  assert (Hm : seconds / 60 < 100) by (apply Nat.Div0.div_lt_upper_bound; lia).
  assert (Hs : seconds mod 60 < 100)
    by (pose proof (Nat.mod_upper_bound seconds 60); lia).
  pose proof (numberOf_padStart2 (seconds / 60)) as Nm.
  pose proof (numberOf_padStart2 (seconds mod 60)) as Ns.
  apply Hpad in Hm, Hs. unfold formatTime. cbv zeta.
  destruct (padStart2 (toString (seconds / 60))) as [|m1 [|m2 [|? ?]]];
    try discriminate Hm.
  destruct (padStart2 (toString (seconds mod 60))) as [|s1 [|s2 [|? ?]]];
    try discriminate Hs.
  repeat split; assumption.
Qed.

Lemma formatTime_five_characters_witness : formatTime 754 = "12:34".
Proof.
  destruct (formatTime_five_characters 754) as (_ & _ & _ & _); [lia|].
  reflexivity.
Defined.

End TimerFacts.

(* ===================================================================== *)
(** ** Facts about [handleRunCode] *)
(* ===================================================================== *)

Section RunCodeFacts.

Import Exn LiveInterview RunCode.
Local Open Scope list_scope.

Lemma take_bound (s : string) (n : nat) :
  String.length (String.substring 0 n s) <= n.
Proof.
  revert n. induction s as [|c s IH]; intros [|n]; simpl; try lia.
  specialize (IH n). lia.
Qed.

Lemma nonempty_append (a b : string) :
  Js.truthy b = true -> Js.truthy (a ++ b) = true.
Proof. destruct a; [auto | reflexivity]. Qed.

Lemma runNote_truthy v languageName output :
  Js.truthy (runNote v languageName output) = true.
Proof. destruct v; reflexivity. Qed.

Lemma runNote_length v languageName output :
  String.length (runNote v languageName output)
  <= 41 + String.length languageName + 100.
Proof.
  unfold runNote, slice100, newline.
  pose proof (take_bound output 100) as H.
  destruct v; repeat (rewrite string_length_append; simpl String.length); lia.
Qed.

Lemma handleRunCode_end_session (v : Revision) (languageName code : string)
  (text : option string) (c : Cells) :
  session (handleRunCode_end v languageName code (Report.Resolves text) c)
  = set_transcriptRef
      (transcriptRef (session c)
       ++ runNote v languageName (Js.or_else text "No output returned."))%string
      (session c).
Proof.
  unfold handleRunCode_end. cbv zeta.
  destruct v; [destruct (isConnectedRef _ && sessionPromiseRef _)|];
    reflexivity.
Qed.

Lemma transcriptRef_set (x : string) (s : State) :
  transcriptRef (set_transcriptRef x s) = x.
Proof. now destruct s. Qed.

Lemma chatHistory_set_transcriptRef (x : string) (s : State) :
  chatHistory (set_transcriptRef x s) = chatHistory s.
Proof. now destruct s. Qed.

(** X20.  A run that gets a response leaves its mark for the evaluator:
    the transcript the session holds when the response arrives is
    extended by one note that quotes at most the first 100 characters of
    the output, the chat is not touched, and from then on ending the call
    hands over the transcript itself, never the placeholder for an empty
    one. *)
Theorem run_note_reaches_transcript (v : Revision) (API_KEY text : option string)
  (languageName code : string) (events : list Event) (c : Cells) :
  Js.truthy_opt API_KEY = true ->
  let s := atResponse v events c in
  let output := Js.or_else text "No output returned." in
  let c' := handleRunCode v API_KEY languageName code
              (Report.Resolves text) events c in
  transcriptRef (session c')
  = (transcriptRef s ++ runNote v languageName output)%string /\
  String.length (transcriptRef (session c'))
  <= String.length (transcriptRef s) + 141 + String.length languageName /\
  chatHistory (session c') = chatHistory s /\
  handleEndCall (session c') = transcriptRef (session c').
Proof.
  intros Hk. cbv zeta. unfold handleRunCode, atResponse. rewrite Hk.
  cbn [negb]. cbv zeta. rewrite handleRunCode_end_session.
  change (session (onSession (run v events) (handleRunCode_begin v c)))
    with (run v events (session (handleRunCode_begin v c))).
  set (s := run v events (session (handleRunCode_begin v c))).
  rewrite transcriptRef_set, chatHistory_set_transcriptRef.
  repeat split.
  - rewrite string_length_append.
    pose proof (runNote_length v languageName
                  (Js.or_else text "No output returned.")). lia.
  - unfold handleEndCall. rewrite transcriptRef_set.
    now rewrite nonempty_append by apply runNote_truthy.
Qed.

Lemma run_note_reaches_transcript_witness :
  handleEndCall
    (session (handleRunCode part_003 (Some "key") "Python" "print(1)"
                (Report.Resolves (Some "1")) [] idle))
  = runNote part_003 "Python" "1".
Proof.
  destruct (run_note_reaches_transcript part_003 (Some "key") (Some "1")
              "Python" "print(1)" [] idle eq_refl) as (Ht & _ & _ & He).
  rewrite He, Ht. reflexivity.
Defined.

(** X21.  How a run ends: without an API key the click changes nothing at
    all; with one, whatever the model answers and whatever the session
    does meanwhile, the handler ends with [isCompiling] false and a
    non-empty console; and a call that fails adds nothing to the
    transcript and hands nothing to the session. *)
Theorem run_always_settles (v : Revision) (API_KEY : option string)
  (languageName code : string) (response : Report.generateContent)
  (events : list Event) (c : Cells) :
  let c' := handleRunCode v API_KEY languageName code response events c in
  (Js.truthy_opt API_KEY = false -> c' = c) /\
  (Js.truthy_opt API_KEY = true ->
     isCompiling c' = false /\ Js.truthy (compilerOutput c') = true /\
     match response with
     | Report.Rejects _ =>
         session c' = atResponse v events c /\ handedOver c' = handedOver c
     | Report.Resolves _ => True
     end).
Proof.
  cbv zeta. unfold handleRunCode, atResponse. split; intros Hk; rewrite Hk;
    cbn [negb]; [reflexivity|]. cbv zeta.
  unfold handleRunCode_end. cbv zeta.
  destruct response as [text|error].
  - assert (Ho : Js.truthy (Js.or_else text "No output returned.") = true).
    { destruct text as [[|a t]|]; reflexivity. }
    destruct v; [destruct (isConnectedRef _ && sessionPromiseRef _)|];
      repeat split; exact Ho.
  - repeat split; destruct v; reflexivity.
Qed.

Lemma run_always_settles_witness :
  compilerOutput
    (handleRunCode part_003 (Some "key") "Python" "print(1)"
       (Report.Rejects (ErrorObject "quota")) [] idle)
  = "Execution Error: quota".
Proof.
  destruct (run_always_settles part_003 (Some "key") "Python" "print(1)"
              (Report.Rejects (ErrorObject "quota")) [] idle) as [_ H].
  destruct (H eq_refl) as (_ & _ & _ & _). reflexivity.
Defined.

Lemma handleRunCode_end_handedOver (v : Revision) (languageName code : string)
  (text : option string) (c : Cells) :
  handedOver (handleRunCode_end v languageName code (Report.Resolves text) c)
  = handedOver c
    ++ match v with
       | part_003 =>
           if isConnectedRef (session c) && sessionPromiseRef (session c)
           then [resultText code (Js.or_else text "No output returned.")]
           else []
       | components => []
       end.
Proof.
  unfold handleRunCode_end. cbv zeta. destruct c as [s o i h].
  destruct v; [|symmetry; apply app_nil_r].
  destruct s. cbn [session onSession setCompilerOutput set_transcriptRef
                   isConnectedRef sessionPromiseRef].
  destruct (isConnectedRef0 && sessionPromiseRef0);
    [reflexivity | symmetry; apply app_nil_r].
Qed.

Lemma hangs_up (e : Event) (s : State) :
  e = Close \/ (exists errorMessage, e = Error errorMessage) \/ e = Unmount ->
  isConnectedRef (exec (step part_003 e) s) = false.
Proof.
  intros [->|[[errorMessage ->]| ->]]; destruct s; unfold exec; simpl.
  - reflexivity.
  - now destruct isMounted0.
  - now destruct sessionPromise0.
Qed.

(** X22.  The result reaches the interviewer only over a live session:
    when the last thing the session of part_003 handles before the
    response arrives is the closing of the socket, an error or the
    unmounting of the component, the text with the code and the output is
    not given to the session, although the note is still written to the
    transcript; the earlier revision never gives it. *)
Theorem run_result_needs_connection (v : Revision) (API_KEY text : option string)
  (languageName code : string) (events : list Event) (last : Event)
  (c : Cells) :
  Js.truthy_opt API_KEY = true ->
  match v with
  | part_003 =>
      last = Close \/ (exists errorMessage, last = Error errorMessage)
      \/ last = Unmount
  | components => True
  end ->
  let c' := handleRunCode v API_KEY languageName code
              (Report.Resolves text) (events ++ [last]) c in
  handedOver c' = handedOver c /\
  transcriptRef (session c')
  = (transcriptRef (atResponse v (events ++ [last]) c)
     ++ runNote v languageName (Js.or_else text "No output returned."))%string.
Proof.
  intros Hk Hlast. cbv zeta. unfold handleRunCode, atResponse. rewrite Hk.
  cbn [negb]. cbv zeta.
  rewrite handleRunCode_end_handedOver, handleRunCode_end_session.
  rewrite transcriptRef_set. split; [|reflexivity].
  change (session (onSession (run v (events ++ [last])) (handleRunCode_begin v c)))
    with (run v (events ++ [last]) (session (handleRunCode_begin v c))).
  replace (handedOver (onSession (run v (events ++ [last]))
                         (handleRunCode_begin v c)))
    with (handedOver c) by now destruct v.
  destruct v; [|apply app_nil_r].
  rewrite run_app.
  change (run part_003 [last] ?s0) with (exec (step part_003 last) s0).
  rewrite hangs_up by assumption. apply app_nil_r.
Qed.

Lemma run_result_needs_connection_witness :
  handedOver (handleRunCode part_003 (Some "key") "Python" "print(1)"
                (Report.Resolves (Some "1")) ([Open] ++ [Close]) idle)
  = [].
Proof.
  destruct (run_result_needs_connection part_003 (Some "key") (Some "1")
              "Python" "print(1)" [Open] Close idle eq_refl
              (or_introl eq_refl)) as [H _].
  exact H.
Defined.

End RunCodeFacts.

(* ===================================================================== *)
(** ** The component as a whole *)
(* ===================================================================== *)

Section ComponentFacts.

Import Exn LiveInterview Trace RunCode.
Local Open Scope list_scope.

Lemma frozenCells_set_transcriptRef (x : string) (s : State) :
  uiCells (set_transcriptRef x s) = uiCells s /\
  speaker (set_transcriptRef x s) = speaker s /\
  nextStartTimeRef (set_transcriptRef x s) = nextStartTimeRef s /\
  isMounted (set_transcriptRef x s) = isMounted s /\
  sendCells (set_transcriptRef x s) = sendCells s.
Proof. now destruct s. Qed.

Lemma handleRunCode_end_rejected (v : Revision) (languageName code : string)
  (error : thrown) (c : Cells) :
  session (handleRunCode_end v languageName code (Report.Rejects error) c)
  = session c /\
  handedOver (handleRunCode_end v languageName code (Report.Rejects error) c)
  = handedOver c.
Proof. now split. Qed.

Lemma handleRunCode_end_console (v : Revision) (languageName code : string)
  (response : Report.generateContent) (c : Cells) :
  isCompiling (handleRunCode_end v languageName code response c) = false /\
  compilerOutput (handleRunCode_end v languageName code response c)
  = match response with
    | Report.Resolves text => Js.or_else text "No output returned."
    | Report.Rejects error =>
        ("Execution Error: "
         ++ match error with
            | ErrorObject message => message
            | OtherValue => "Unknown error"
            end)%string
    end.
Proof.
  unfold handleRunCode_end. cbv zeta.
  destruct response as [text|error]; [|now split].
  destruct v; [destruct (isConnectedRef _ && sessionPromiseRef _)|];
    now split.
Qed.

Lemma frozenCells_still (s s' : State) :
  frozenCells s' = frozenCells s ->
  stillCells s' = stillCells s /\ transcriptRef s' = transcriptRef s.
Proof.
  unfold frozenCells, stillCells. intros H. split; congruence.
Qed.

(** No element of an unmounted component is clicked. *)
Lemma unmounted_click (v : Revision) (e : Component.Event)
  (m : Component.Machine) :
  isMounted (session (Component.cells m)) = false ->
  match e with
  | Component.Session _ | Component.RunSettles _ => True
  | _ => Component.step v e m = m
  end.
Proof.
  intros Hm.
  destruct e as [e|tab|panel| |key languageName code|response];
    try exact I; cbn [Component.step];
    unfold Component.runButton, Component.codeView; rewrite Hm;
    cbn [andb]; now destruct v.
Qed.

(** One event on an unmounted component: the session stays unmounted, the
    cells that are rendered or played stay, and the transcript grows by
    the note of the run that settles, if one does. *)
Lemma unmounted_component_step (v : Revision) (e : Component.Event)
  (m : Component.Machine) :
  isMounted (session (Component.cells m)) = false ->
  let m' := Component.step v e m in
  isMounted (session (Component.cells m')) = false /\
  stillCells (session (Component.cells m'))
  = stillCells (session (Component.cells m)) /\
  exists note,
    transcriptRef (session (Component.cells m'))
    = (transcriptRef (session (Component.cells m)) ++ note)%string /\
    forall rest,
      Component.lateNotes v (Component.awaited m) (e :: rest)
      = (note ++ Component.lateNotes v (Component.awaited m') rest)%string.
Proof.
  intros Hm. cbv zeta.
  assert (Hclick : Component.step v e m = m ->
            isMounted (session (Component.cells (Component.step v e m))) = false /\
            stillCells (session (Component.cells (Component.step v e m)))
            = stillCells (session (Component.cells m)) /\
            exists note,
              transcriptRef (session (Component.cells (Component.step v e m)))
              = (transcriptRef (session (Component.cells m)) ++ note)%string /\
              forall rest,
                match e with
                | Component.Session _ | Component.RunSettles _ => True
                | _ =>
                    Component.lateNotes v (Component.awaited m) (e :: rest)
                    = (note ++ Component.lateNotes v
                                 (Component.awaited (Component.step v e m)) rest)%string
                end).
  { intros ->. split; [exact Hm|]. split; [reflexivity|].
    exists EmptyString. rewrite string_append_empty_r. split; [reflexivity|].
    intros rest. now destruct e. }
  pose proof (unmounted_click v e m Hm) as Hnone.
  destruct e as [e|tab|panel| |key languageName code|response];
    try (destruct (Hclick Hnone) as (H1 & H2 & note & H3 & H4);
         split; [exact H1|]; split; [exact H2|];
         exists note; split; [exact H3 | exact H4]).
  - assert (Hsame : forall m1 : Component.Machine,
              Component.awaited m1 = Component.awaited m ->
              frozenCells (session (Component.cells m1))
              = frozenCells (session (Component.cells m)) ->
              isMounted (session (Component.cells m1)) = false ->
              isMounted (session (Component.cells m1)) = false /\
              stillCells (session (Component.cells m1))
              = stillCells (session (Component.cells m)) /\
              exists note,
                transcriptRef (session (Component.cells m1))
                = (transcriptRef (session (Component.cells m)) ++ note)%string /\
                forall rest,
                  Component.lateNotes v (Component.awaited m)
                    (Component.Session e :: rest)
                  = (note ++ Component.lateNotes v (Component.awaited m1) rest)%string).
    { intros m1 Ha Hf Hm1. destruct (frozenCells_still _ _ Hf) as [Hs Ht].
      split; [exact Hm1|]. split; [exact Hs|].
      exists EmptyString. rewrite string_append_empty_r. split; [exact Ht|].
      intros rest. now rewrite Ha. }
    assert (Hstep : forall e0, e0 <> ToggleMic ->
              isMounted (exec (LiveInterview.step v e0) (session (Component.cells m)))
              = false /\
              frozenCells (exec (LiveInterview.step v e0) (session (Component.cells m)))
              = frozenCells (session (Component.cells m)))
      by (intros e0 He0; now apply unmounted_step).
    destruct e;
      try (cbn [Component.step]; apply Hsame;
           [ reflexivity
           | apply Hstep; discriminate
           | apply Hstep; discriminate ]).
    cbn [Component.step].
    destruct (isMounted (session (Component.cells m))) eqn:Hmm;
      [discriminate|].
    apply Hsame; [reflexivity | reflexivity | exact Hmm].
  - cbn [Component.step].
    destruct (Component.awaited m) as [|[languageName code] others] eqn:Ha.
    + split; [exact Hm|]. split; [reflexivity|].
      exists EmptyString. rewrite string_append_empty_r. split; [reflexivity|].
      intros rest. cbn [Component.lateNotes]. now rewrite Ha.
    + cbn [Component.cells Component.awaited].
      destruct response as [text|error].
      * rewrite handleRunCode_end_session.
        destruct (frozenCells_set_transcriptRef
                    (transcriptRef (session (Component.cells m))
                     ++ runNote v languageName
                          (Js.or_else text "No output returned."))%string
                    (session (Component.cells m)))
          as (H1 & H2 & H3 & H4 & _).
        split; [now rewrite H4|].
        split; [unfold stillCells; now rewrite H1, H2, H3|].
        eexists. rewrite transcriptRef_set. split; reflexivity.
      * destruct (handleRunCode_end_rejected v languageName code error
                    (Component.cells m)) as [Hs _].
        rewrite Hs. split; [exact Hm|]. split; [reflexivity|].
        exists EmptyString. rewrite string_append_empty_r. now split.
Qed.

(** With no run awaited, one event on an unmounted component changes
    neither those cells nor the console. *)
Lemma unmounted_idle_step (v : Revision) (e : Component.Event)
  (m : Component.Machine) :
  isMounted (session (Component.cells m)) = false ->
  Component.awaited m = [] ->
  let m' := Component.step v e m in
  Component.awaited m' = [] /\
  compilerOutput (Component.cells m') = compilerOutput (Component.cells m) /\
  isCompiling (Component.cells m') = isCompiling (Component.cells m) /\
  handedOver (Component.cells m') = handedOver (Component.cells m).
Proof.
  intros Hm Ha. cbv zeta.
  pose proof (unmounted_click v e m Hm) as Hnone.
  destruct e as [e|tab|panel| |key languageName code|response];
    try (rewrite Hnone; now repeat split).
  - destruct e; cbn [Component.step]; rewrite ?Hm; now repeat split.
  - cbn [Component.step]. rewrite Ha. now repeat split.
Qed.

Lemma unmounted_component_run (v : Revision) (events : list Component.Event)
  (m : Component.Machine) :
  isMounted (session (Component.cells m)) = false ->
  stillCells (session (Component.cells (Component.run v events m)))
  = stillCells (session (Component.cells m)) /\
  transcriptRef (session (Component.cells (Component.run v events m)))
  = (transcriptRef (session (Component.cells m))
     ++ Component.lateNotes v (Component.awaited m) events)%string.
Proof.
  revert m. induction events as [|e events IH]; intros m Hm.
  - cbn [Component.run Component.lateNotes].
    now rewrite string_append_empty_r.
  - cbn [Component.run].
    destruct (unmounted_component_step v e m Hm)
      as (Hm1 & Hstill & note & Hnote & Hrest).
    destruct (IH _ Hm1) as (IHs & IHt).
    split; [now rewrite IHs|].
    now rewrite IHt, Hnote, Hrest, string_append_assoc.
Qed.

Lemma unmounted_idle_run (v : Revision) (events : list Component.Event)
  (m : Component.Machine) :
  isMounted (session (Component.cells m)) = false ->
  Component.awaited m = [] ->
  Component.lateNotes v [] events = EmptyString /\
  compilerOutput (Component.cells (Component.run v events m))
  = compilerOutput (Component.cells m) /\
  isCompiling (Component.cells (Component.run v events m))
  = isCompiling (Component.cells m) /\
  handedOver (Component.cells (Component.run v events m))
  = handedOver (Component.cells m).
Proof.
  revert m. induction events as [|e events IH]; intros m Hm Ha.
  - now repeat split.
  - cbn [Component.run].
    destruct (unmounted_component_step v e m Hm) as (Hm1 & _).
    destruct (unmounted_idle_step v e m Hm Ha) as (Ha1 & Ho & Hc & Hh).
    destruct (IH _ Hm1 Ha1) as (IHn & IHo & IHc & IHh).
    split; [|now rewrite IHo, IHc, IHh].
    destruct e as [e| | | | |]; exact IHn.
Qed.

(** X1.  What is still written once the component is unmounted.  Whatever
    the socket, the promise, the audio nodes, the timer and the calls of
    the model still deliver, the React state of the session (the connecting
    flag, the error banner, the microphone state, the level, the chat
    history, the tabs, the task), the calls made on buffer sources and
    [nextStartTime] stay as they were, in both revisions.  The one writer
    left is the second part of [handleRunCode], which has no mounted test:
    a run that was awaited at the unmount and settles afterwards ends
    [isCompiling], writes the console and, on a response, appends its note
    to the transcript, so that the transcript is what it was followed by
    the notes of these runs.  With no run awaited nothing is written: the
    transcript and the console stay too. *)
Theorem no_state_update_after_unmount (v : Revision)
  (events : list Component.Event) (m : Component.Machine) :
  isMounted (session (Component.cells m)) = false ->
  let m' := Component.run v events m in
  uiCells (session (Component.cells m')) = uiCells (session (Component.cells m)) /\
  speaker (session (Component.cells m')) = speaker (session (Component.cells m)) /\
  nextStartTimeRef (session (Component.cells m'))
  = nextStartTimeRef (session (Component.cells m)) /\
  transcriptRef (session (Component.cells m'))
  = (transcriptRef (session (Component.cells m))
     ++ Component.lateNotes v (Component.awaited m) events)%string /\
  (Component.awaited m = [] ->
   transcriptRef (session (Component.cells m'))
   = transcriptRef (session (Component.cells m)) /\
   compilerOutput (Component.cells m') = compilerOutput (Component.cells m) /\
   isCompiling (Component.cells m') = isCompiling (Component.cells m)) /\
  (forall languageName code others response,
      Component.awaited m = (languageName, code) :: others ->
      let c1 := Component.cells
                  (Component.step v (Component.RunSettles response) m) in
      isCompiling c1 = false /\
      match response with
      | Report.Resolves text =>
          compilerOutput c1 = Js.or_else text "No output returned." /\
          transcriptRef (session c1)
          = (transcriptRef (session (Component.cells m))
             ++ runNote v languageName
                  (Js.or_else text "No output returned."))%string
      | Report.Rejects _ =>
          Js.truthy (compilerOutput c1) = true /\
          session c1 = session (Component.cells m)
      end).
Proof.
  intros Hm. cbv zeta.
  destruct (unmounted_component_run v events m Hm) as (Hstill & Htr).
  unfold stillCells in Hstill.
  split; [congruence|]. split; [congruence|]. split; [congruence|].
  split; [exact Htr|]. split.
  - intros Ha.
    destruct (unmounted_idle_run v events m Hm Ha) as (Hn & Ho & Hc & _).
    rewrite Htr, Ha, Hn, string_append_empty_r. now repeat split.
  - intros languageName code others response Ha.
    cbn [Component.step]. rewrite Ha. cbn [Component.cells].
    destruct (handleRunCode_end_console v languageName code response
                (Component.cells m)) as (Hc & Ho).
    split; [exact Hc|]. rewrite Ho.
    destruct response as [text|error].
    + split; [reflexivity|].
      now rewrite handleRunCode_end_session, transcriptRef_set.
    + split; [reflexivity|].
      apply (handleRunCode_end_rejected v languageName code error).
Qed.

(** The theorem on a component that is unmounted while a run is awaited:
    the socket and the processor change nothing, and the response of the
    run leaves its note. *)
Lemma no_state_update_after_unmount_witness :
  let left := Component.run part_003
                [Component.Session Open; Component.Session (Settle true);
                 Component.TabClick codeTab; Component.PanelClick consolePanel;
                 Component.RunClick (Some "key") "Python" "print(1)";
                 Component.Session Unmount] Component.start in
  let m' := Component.run part_003
              [Component.Session (Message (says ai "Hello") 0%Z);
               Component.Session (AudioProcess (1 # 2)%Q "AAAA");
               Component.RunSettles (Report.Resolves (Some "1"));
               Component.Session Close] left in
  uiCells (session (Component.cells m')) = uiCells (session (Component.cells left)) /\
  transcriptRef (session (Component.cells m')) = runNote part_003 "Python" "1".
Proof.
  intros left m'.
  destruct (no_state_update_after_unmount part_003
              [Component.Session (Message (says ai "Hello") 0%Z);
               Component.Session (AudioProcess (1 # 2)%Q "AAAA");
               Component.RunSettles (Report.Resolves (Some "1"));
               Component.Session Close] left eq_refl)
    as (Hui & _ & _ & Htr & _).
  split; [exact Hui | exact Htr].
Defined.

(** Nothing but the events of the session touches what is sent or
    queued. *)
Lemma outbound_component_step (v : Revision) (e : Component.Event)
  (m : Component.Machine) (offered : list Frame) :
  subsequence (outbound (session (Component.cells m))) offered ->
  subsequence (outbound (session (Component.cells (Component.step v e m))))
              (offered ++ flat_map (offers v) (Component.sessionEvent e)).
Proof.
  intros H.
  assert (Hsame : forall m1 : Component.Machine,
            sendCells (session (Component.cells m1))
            = sendCells (session (Component.cells m)) ->
            subsequence (outbound (session (Component.cells m1))) (offered ++ [])).
  { intros m1 Hc. rewrite app_nil_r. now rewrite (outbound_cells _ _ Hc). }
  destruct e as [e|tab|panel| |key languageName code|response].
  - cbn [Component.sessionEvent flat_map]. rewrite app_nil_r.
    assert (Hs : subsequence
                   (outbound (exec (LiveInterview.step v e)
                                (session (Component.cells m))))
                   (offered ++ offers v e))
      by now apply outbound_step.
    destruct e; try exact Hs.
    cbn [Component.step].
    destruct (isMounted (session (Component.cells m))); [exact Hs|].
    now apply subsequence_app_r.
  - cbn [Component.sessionEvent flat_map Component.step].
    destruct (isMounted _); apply Hsame; [|reflexivity].
    destruct m as [[s o i h] a]. now destruct s.
  - cbn [Component.sessionEvent flat_map Component.step].
    destruct v; [destruct (Component.codeView _)|]; apply Hsame;
      try reflexivity.
    destruct m as [[s o i h] a]. now destruct s.
  - cbn [Component.sessionEvent flat_map Component.step].
    destruct v; [destruct (Component.codeView _)|]; now apply Hsame.
  - cbn [Component.sessionEvent flat_map Component.step].
    destruct (Component.runButton v _); [|now apply Hsame].
    destruct (negb (Js.truthy_opt key)); [now apply Hsame|].
    apply Hsame. cbn [Component.cells].
    destruct v; [|reflexivity].
    destruct m as [[s o i h] a]. now destruct s.
  - cbn [Component.sessionEvent flat_map]. rewrite app_nil_r.
    cbn [Component.step].
    destruct (Component.awaited m) as [|[languageName code] others];
      [exact H|].
    cbn [Component.cells].
    replace (outbound (session (handleRunCode_end v languageName code response
                                  (Component.cells m))))
      with (outbound (session (Component.cells m))); [exact H|].
    destruct response as [text|error].
    + rewrite handleRunCode_end_session. symmetry. apply outbound_cells.
      apply frozenCells_set_transcriptRef.
    + now rewrite (proj1 (handleRunCode_end_rejected v languageName code error
                            (Component.cells m))).
Qed.

Lemma outbound_component_run (v : Revision) (events : list Component.Event)
  (m : Component.Machine) (offered : list Frame) :
  subsequence (outbound (session (Component.cells m))) offered ->
  subsequence (outbound (session (Component.cells (Component.run v events m))))
              (offered
               ++ flat_map (offers v) (flat_map Component.sessionEvent events)).
Proof.
  revert m offered.
  induction events as [|e events IH]; intros m offered Hs.
  - simpl. now rewrite app_nil_r.
  - cbn [Component.run flat_map]. rewrite flat_map_app, app_assoc.
    apply IH. now apply outbound_component_step.
Qed.

Lemma is_result_more (seen more : list Component.Event) (t : string) :
  Component.is_result seen t -> Component.is_result (seen ++ more) t.
Proof.
  intros (key & languageName & code & text & Hc & Hs & Ht).
  exists key, languageName, code, text.
  repeat split; try assumption; apply in_or_app; now left.
Qed.

Lemma was_clicked_more (seen more : list Component.Event) (p : string * string) :
  Component.was_clicked seen p -> Component.was_clicked (seen ++ more) p.
Proof.
  intros (key & Hc). exists key. apply in_or_app. now left.
Qed.

(** The texts handed over and the runs awaited come from the events
    seen. *)
Lemma handedOver_component_step (v : Revision) (e : Component.Event)
  (m : Component.Machine) (seen : list Component.Event) :
  Forall (Component.is_result seen) (handedOver (Component.cells m)) ->
  Forall (Component.was_clicked seen) (Component.awaited m) ->
  let m' := Component.step v e m in
  Forall (Component.is_result (seen ++ [e])) (handedOver (Component.cells m')) /\
  Forall (Component.was_clicked (seen ++ [e])) (Component.awaited m') /\
  (List.length (handedOver (Component.cells m'))
   <= List.length (handedOver (Component.cells m))
      + (if Component.settles_with_response e then 1 else 0))%nat /\
  (v = components ->
   handedOver (Component.cells m') = handedOver (Component.cells m)).
Proof.
  intros Hh Ha. cbv zeta.
  assert (Hh' : Forall (Component.is_result (seen ++ [e]))
                  (handedOver (Component.cells m)))
    by (eapply Forall_impl; [|exact Hh]; intros; now apply is_result_more).
  assert (Ha' : Forall (Component.was_clicked (seen ++ [e]))
                  (Component.awaited m))
    by (eapply Forall_impl; [|exact Ha]; intros; now apply was_clicked_more).
  assert (Hsame : forall m1 : Component.Machine,
            handedOver (Component.cells m1) = handedOver (Component.cells m) ->
            Component.awaited m1 = Component.awaited m ->
            Forall (Component.is_result (seen ++ [e]))
              (handedOver (Component.cells m1)) /\
            Forall (Component.was_clicked (seen ++ [e]))
              (Component.awaited m1) /\
            (List.length (handedOver (Component.cells m1))
             <= List.length (handedOver (Component.cells m)) + 0)%nat /\
            (v = components ->
             handedOver (Component.cells m1) = handedOver (Component.cells m))).
  { intros m1 H1 H2. rewrite H1, H2. repeat split; auto. lia. }
  destruct e as [e|tab|panel| |key languageName code|response].
  - cbn [Component.settles_with_response].
    destruct e; cbn [Component.step];
      try (apply Hsame; reflexivity).
    destruct (isMounted _); apply Hsame; reflexivity.
  - cbn [Component.settles_with_response Component.step].
    destruct (isMounted _); apply Hsame; reflexivity.
  - cbn [Component.settles_with_response Component.step].
    destruct v; [destruct (Component.codeView _)|]; apply Hsame; reflexivity.
  - cbn [Component.settles_with_response Component.step].
    destruct v; [destruct (Component.codeView _)|]; apply Hsame; reflexivity.
  - cbn [Component.step Component.settles_with_response].
    destruct (Component.runButton v _);
      [|repeat split; auto; lia].
    destruct (negb (Js.truthy_opt key));
      [repeat split; auto; lia|].
    cbn [Component.cells Component.awaited].
    replace (handedOver (handleRunCode_begin v (Component.cells m)))
      with (handedOver (Component.cells m)) by now destruct v.
    repeat split; auto; [|lia].
    apply Forall_app. split; [exact Ha'|].
    constructor; [|constructor].
    exists key. apply in_or_app. right. now left.
  - cbn [Component.step].
    destruct (Component.awaited m) as [|[languageName code] others] eqn:Hw.
    + repeat split; auto; [|lia]. rewrite Hw. constructor.
    + cbn [Component.cells Component.awaited].
      inversion Ha' as [|p l Hp Hothers]; subst.
      destruct response as [text|error].
      * rewrite handleRunCode_end_handedOver.
        cbn [Component.settles_with_response].
        repeat split.
        -- apply Forall_app. split; [exact Hh'|].
           destruct v; [|constructor].
           destruct (isConnectedRef _ && sessionPromiseRef _); constructor;
             [|constructor].
           destruct Hp as (key & Hkey). cbn [fst snd] in Hkey.
           exists key, languageName, code, text.
           repeat split; [exact Hkey|].
           apply in_or_app. right. now left.
        -- exact Hothers.
        -- rewrite length_app.
           destruct v; [destruct (isConnectedRef _ && sessionPromiseRef _)|];
             simpl; lia.
        -- intros ->. apply app_nil_r.
      * destruct (handleRunCode_end_rejected v languageName code error
                    (Component.cells m)) as [_ Hkept].
        rewrite Hkept. cbn [Component.settles_with_response].
        repeat split; auto. lia.
Qed.

Lemma handedOver_component_run (v : Revision) (events : list Component.Event)
  (m : Component.Machine) (seen : list Component.Event) :
  Forall (Component.is_result seen) (handedOver (Component.cells m)) ->
  Forall (Component.was_clicked seen) (Component.awaited m) ->
  let m' := Component.run v events m in
  Forall (Component.is_result (seen ++ events)) (handedOver (Component.cells m')) /\
  (List.length (handedOver (Component.cells m'))
   <= List.length (handedOver (Component.cells m))
      + List.length (filter Component.settles_with_response events))%nat /\
  (v = components ->
   handedOver (Component.cells m') = handedOver (Component.cells m)).
Proof.
  revert m seen. induction events as [|e events IH]; intros m seen Hh Ha.
  - cbn [Component.run filter List.length]. rewrite app_nil_r.
    repeat split; auto. lia.
  - cbn [Component.run].
    destruct (handedOver_component_step v e m seen Hh Ha)
      as (Hh1 & Ha1 & Hl1 & Hc1).
    destruct (IH _ _ Hh1 Ha1) as (IHh & IHl & IHc).
    replace (seen ++ e :: events) with ((seen ++ [e]) ++ events)
      by (rewrite <- app_assoc; reflexivity).
    split; [exact IHh|]. split.
    + cbn [filter]. destruct (Component.settles_with_response e);
        cbn [List.length]; lia.
    + intros Hv. now rewrite IHc, Hc1.
Qed.

(** X5.  Nothing goes out that was not asked for.  After any events of the
    component from its start (events of the session, clicks on the tabs,
    the language select and Run, settlings of runs), in both revisions,
    the frames written to the socket by the callbacks of the session are,
    in order and each at most once, frames that a capture buffer, a video
    tick or a call of the task tool asked to send; waiting on the connect
    promise neither reorders nor repeats them.  The one other thing given to the session is the result
    text of a run, which part_003 hands to the session promise: each text
    handed over is made of the code of a click on Run and of the output of
    a response that arrived, there is at most one for each run that settled
    with a response, and src/components hands over none. *)
Theorem sent_frames_were_offered (v : Revision) (events : list Component.Event) :
  let m := Component.run v events Component.start in
  subsequence (sent (session (Component.cells m)))
    (flat_map (offers v) (flat_map Component.sessionEvent events)) /\
  Forall (Component.is_result events) (handedOver (Component.cells m)) /\
  (List.length (handedOver (Component.cells m))
   <= List.length (filter Component.settles_with_response events))%nat /\
  match v with
  | part_003 => True
  | components => handedOver (Component.cells m) = []
  end.
Proof.
  cbv zeta. split.
  - assert (H0 : subsequence (outbound (session (Component.cells Component.start))) [])
      by constructor.
    pose proof (outbound_component_run v events Component.start [] H0) as H.
    change ([] ++ ?l) with l in H.
    unfold outbound in H.
    exact (subsequence_prefix _ _ _ H).
  - destruct (handedOver_component_run v events Component.start []
                (Forall_nil _) (Forall_nil _)) as (Hh & Hl & Hc).
    change ([] ++ events) with events in Hh.
    split; [exact Hh|]. split; [exact Hl|].
    destruct v; [exact I|]. now apply Hc.
Qed.

End ComponentFacts.

(* ===================================================================== *)
(** ** Facts about the top-level component *)
(* ===================================================================== *)

Section AppFacts.

Import Exn Report App.
Local Open Scope list_scope.

Variable EvaluationReport : Type.
Variable JSON_parse : string -> option EvaluationReport.
Variable ToBoolean : EvaluationReport -> bool.

Lemma outside_step (e : Event) (a : Shell EvaluationReport) :
  signs_in e = false -> outside a -> outside (step JSON_parse ToBoolean e a).
Proof.
  intros He (Hp & Hu & Hw). destruct a as [[st pr rp ge] modal user n].
  simpl in *. subst.
  destruct e as [ | | | | | |[|]| | |call| | ]; try discriminate He;
    unfold outside; simpl; auto;
    destruct st; try discriminate Hp; simpl; auto.
Qed.

(** X23.  Signing in comes first: from a public page, with nobody
    signed in and no report awaited, no sequence of clicks and callbacks
    without a successful login or a sign-in leads to the setup form, the
    interview, the analysis or the report. *)
Theorem no_interview_without_sign_in (events : list Event)
  (a : Shell EvaluationReport) :
  is_public (appState (page a)) = true ->
  currentUser a = false ->
  awaiting a = 0 ->
  forallb (fun e => negb (signs_in e)) events = true ->
  is_public (appState (page (run JSON_parse ToBoolean events a))) = true.
Proof.
  intros Hp Hu Hw He.
  assert (H : outside (run JSON_parse ToBoolean events a)); [|apply H].
  assert (Ha : outside a) by (repeat split; assumption).
  clear Hp Hu Hw. revert a Ha.
  induction events as [|e events IH]; intros a Ha; [exact Ha|].
  simpl in He. apply andb_prop in He as [He1 He2].
  simpl. apply IH; [exact He2|]. apply outside_step; [|exact Ha].
  now destruct (signs_in e).
Qed.

(** The second part of [generateReport] keeps the profile, and leaves the
    report page only with a report stored. *)
Lemma settled_furnished (call : generateContent) (s : State EvaluationReport) :
  profile (settled JSON_parse part_009 call s) = profile s /\
  ((appState s = REPORT -> report s <> None) ->
   appState (settled JSON_parse part_009 call s) = REPORT ->
   report (settled JSON_parse part_009 call s) <> None).
Proof.
  unfold settled, generateReport_settle.
  destruct call as [[t|]|err]; cbn [bind try_catch]; try (now split).
  destruct (Js.truthy t); cbn [negb]; [|now split].
  destruct (JSON_parse (cleanJsonText t)); cbn [try_catch]; [|now split].
  split; [reflexivity|]. intros _ _. discriminate.
Qed.

Lemma furnished_step (e : Event) (a : Shell EvaluationReport) :
  furnished a -> furnished (step JSON_parse ToBoolean e a).
Proof.
  intros [Hp Hr]. destruct a as [[st pr rp ge] modal user n].
  unfold furnished in *. cbn [page awaiting appState profile report] in *.
  destruct e as [ | | | | | |u| |apiKey|call| | ]; cbn [step].
  - split; [|discriminate]. destruct Hp as [Hp|[Hp Hn]]; auto.
  - split; [|discriminate]. destruct Hp as [Hp|[Hp Hn]]; auto.
  - split; [|discriminate]. destruct Hp as [Hp|[Hp Hn]]; auto.
  - unfold handleStartInterviewClick. simpl. destruct user; simpl; auto.
    split; [|discriminate]. destruct Hp as [Hp|[Hp Hn]]; auto.
  - auto.
  - split; [|discriminate]. destruct Hp as [Hp|[Hp Hn]]; auto.
  - auto.
  - destruct st; simpl; auto. split; [auto|discriminate].
  - destruct st; simpl; auto. destruct pr; simpl; auto.
    unfold endInterview, generateReport_begin. simpl.
    destruct apiKey; simpl; split; auto; discriminate.
  - destruct n as [|n]; [now split|].
    cbn [page awaiting onPage setAwaiting].
    destruct (settled_furnished call
                {| appState := st; profile := pr; report := rp;
                   generationError := ge |}) as [Hpr Hrp].
    cbn [profile appState report] in Hpr, Hrp.
    split; [|now apply Hrp].
    left. rewrite Hpr.
    destruct Hp as [Hp|[_ Hn]]; [exact Hp | discriminate Hn].
  - unfold render, returnToSetup. simpl. destruct st; simpl; auto.
    + destruct ge as [m|]; simpl; auto.
      destruct (Js.truthy m); simpl; auto.
      split; [|discriminate]. destruct Hp as [Hp|[Hp Hn]]; auto.
    + destruct rp as [r|]; simpl; auto. destruct (ToBoolean r); simpl; auto.
  - unfold render. simpl. destruct st; simpl; auto.
    + destruct ge as [m|]; simpl; auto. destruct (Js.truthy m); simpl; auto.
    + destruct rp as [r|]; simpl; auto. destruct (ToBoolean r); simpl; auto.
      split; [|discriminate]. destruct Hp as [Hp|[Hp Hn]]; auto.
Qed.

(** X24.  Every page has what it shows, as far as the code checks it:
    after any events from the start, the interview, analysis and report
    pages are only seen with a profile stored, so the interview page always
    renders the interview and [generateReport] never returns at its first
    line; a report is awaited only with a profile; and on the report page
    the value that [JSON.parse] returned is stored, and the page shows it
    when it is truthy and is empty when it is not ([null], [0], [false]
    and the empty string parse without an error). *)
Theorem pages_have_what_they_show (user : bool) (events : list Event) :
  let a := run JSON_parse ToBoolean events (start user) in
  (before_setup (appState (page a)) = false -> profile (page a) = true) /\
  (0 < awaiting a -> profile (page a) = true) /\
  (appState (page a) = REPORT ->
   exists r, report (page a) = Some r /\
             render ToBoolean (page a)
             = if ToBoolean r then ReportView r else Blank).
Proof.
  cbv zeta.
  assert (H : furnished (run JSON_parse ToBoolean events (start user))).
  { assert (H0 : furnished (start user : Shell EvaluationReport)).
    { split; [right; split; reflexivity | discriminate]. }
    revert H0. generalize (start user : Shell EvaluationReport).
    induction events as [|e events IH]; intros a Ha; [exact Ha|].
    simpl. apply IH. now apply furnished_step. }
  destruct H as [Hp Hr].
  split; [|split].
  - intros Hb. destruct Hp as [Hp|[Hp _]]; [exact Hp | congruence].
  - intros Hw. destruct Hp as [Hp|[_ Hn]]; [exact Hp | lia].
  - intros Hs. specialize (Hr Hs). unfold render. rewrite Hs.
    destruct (report (page (run JSON_parse ToBoolean events (start user))))
      as [r|]; [eauto | contradiction].
Qed.

Lemma navigation_keeps (events : list Event) (a : Shell EvaluationReport) :
  forallb is_navigation events = true ->
  profile (page (run JSON_parse ToBoolean events a)) = profile (page a) /\
  awaiting (run JSON_parse ToBoolean events a) = awaiting a /\
  generationError (page (run JSON_parse ToBoolean events a))
  = generationError (page a) /\
  (events <> [] ->
   is_public (appState (page (run JSON_parse ToBoolean events a))) = true).
Proof.
  revert a. induction events as [|e events IH]; intros a H.
  - repeat split. congruence.
  - simpl in H. apply andb_prop in H as [He H].
    destruct (IH (step JSON_parse ToBoolean e a) H) as (Hp & Hw & Hg & Hs).
    change (run JSON_parse ToBoolean (e :: events) a)
      with (run JSON_parse ToBoolean events (step JSON_parse ToBoolean e a)).
    rewrite Hp, Hw, Hg.
    destruct e; try discriminate He; repeat split; intros _;
      (destruct events as [|e' events']; [reflexivity | apply Hs; discriminate]).
Qed.

(** X26.  A report that arrives late: when the candidate leaves the
    analysis page by the navigation bar while the model is still working,
    a response that parses pulls the screen to the report page all the
    same, which shows the parsed value when it is truthy and nothing when
    it is not; a call that fails stores its message but leaves the page
    where the candidate went, so the failure is never shown. *)
Theorem late_report_takes_over (events : list Event) (call : generateContent)
  (a : Shell EvaluationReport) :
  profile (page a) = true ->
  awaiting a = 0 ->
  forallb is_navigation events = true ->
  events <> [] ->
  let a' := step JSON_parse ToBoolean (Settles call)
              (run JSON_parse ToBoolean events (endInterview true a)) in
  match call with
  | Resolves (Some jsonText) =>
      if Js.truthy jsonText
      then match JSON_parse (cleanJsonText jsonText) with
           | Some r =>
               report (page a') = Some r /\
               render ToBoolean (page a')
               = if ToBoolean r then ReportView r else Blank
           | None => render ToBoolean (page a') = OtherScreen
           end
      else render ToBoolean (page a') = OtherScreen
  | _ => render ToBoolean (page a') = OtherScreen
  end /\
  (render ToBoolean (page a') = OtherScreen ->
   is_public (appState (page a')) = true /\
   exists message, generationError (page a') = Some message).
Proof.
  intros Hp Hw Hnav Hne. cbv zeta.
  destruct (navigation_keeps events (endInterview true a) Hnav)
    as (Hp' & Hw' & Hg' & Hs').
  specialize (Hs' Hne).
  assert (Hb : awaiting (endInterview true a) = 1).
  { unfold endInterview, generateReport_begin. rewrite Hp. simpl.
    now rewrite Hw. }
  rewrite Hb in Hw'.
  set (b := run JSON_parse ToBoolean events (endInterview true a)) in *.
  unfold App.step. rewrite Hw'.
  destruct b as [[st pr rp ge] modal user n].
  cbn [page awaiting onPage setAwaiting appState] in *.
  assert (Hfail : forall e,
    let s' := setGenerationError (Some e)
                {| appState := st; profile := pr; report := rp;
                   generationError := ge |} in
    render ToBoolean s' = OtherScreen /\
    (render ToBoolean s' = OtherScreen ->
     is_public (appState s') = true /\
     exists message, generationError s' = Some message)).
  { intros e. simpl. destruct st; try discriminate Hs'; simpl; eauto. }
  unfold settled, generateReport_settle.
  destruct call as [[t|]|err]; cbn [bind try_catch]; try apply Hfail.
  destruct (Js.truthy t); cbn [negb]; try apply Hfail.
  destruct (JSON_parse (cleanJsonText t)) as [r|]; cbn [try_catch];
    try apply Hfail.
  unfold render. cbn [appState setAppState setReport report].
  split; [split; reflexivity|].
  destruct (ToBoolean r); intros H; discriminate H.
Qed.

End AppFacts.

Section AppWitnesses.

Import Exn Report App.
Local Open Scope list_scope.

Lemma no_interview_without_sign_in_witness :
  appState (page (App.run JSON_parse_sample ToBoolean_sample
                    [StartClick; CloseModal; AboutClick; SetupComplete;
                     EndInterview true; StartClick]
                    (start false)))
  = ABOUT.
Proof.
  pose proof (no_interview_without_sign_in JsonValue JSON_parse_sample
                ToBoolean_sample
                [StartClick; CloseModal; AboutClick; SetupComplete;
                 EndInterview true; StartClick]
                (start false) eq_refl eq_refl eq_refl eq_refl) as H.
  reflexivity.
Defined.

(** The theorem after an interview that ends while the candidate is
    signed in, with a response that is the text of [null]. *)
Lemma pages_have_what_they_show_witness :
  render ToBoolean_sample
    (page (App.run JSON_parse_sample ToBoolean_sample
             [LoginSuccess; SetupComplete; EndInterview true;
              Settles (Resolves (Some "null"))]
             (start false)))
  = Blank.
Proof.
  destruct (pages_have_what_they_show JsonValue JSON_parse_sample
              ToBoolean_sample false
              [LoginSuccess; SetupComplete; EndInterview true;
               Settles (Resolves (Some "null"))])
    as (_ & _ & Hreport).
  destruct (Hreport eq_refl) as (r & Hr & Hshown).
  rewrite Hshown. injection Hr as <-. reflexivity.
Defined.

Lemma late_report_takes_over_witness :
  render ToBoolean_sample
    (page (App.step JSON_parse_sample ToBoolean_sample
             (Settles (Resolves (Some "{}")))
             (App.run JSON_parse_sample ToBoolean_sample [HomeClick]
                (endInterview true
                   (App.step JSON_parse_sample ToBoolean_sample SetupComplete
                      (App.step JSON_parse_sample ToBoolean_sample LoginSuccess
                         (start false)))))))
  = ReportView EmptyObject.
Proof.
  destruct (late_report_takes_over JsonValue JSON_parse_sample ToBoolean_sample
              [HomeClick] (Resolves (Some "{}"))
              (App.step JSON_parse_sample ToBoolean_sample SetupComplete
                 (App.step JSON_parse_sample ToBoolean_sample LoginSuccess
                    (start false)))
              eq_refl eq_refl eq_refl) as [H _].
  - discriminate.
  - exact (proj2 H).
Defined.

End AppWitnesses.

(* ===================================================================== *)
(** ** More facts about [generateReport] *)
(* ===================================================================== *)

Section ReportFacts.

Import Exn Report.

Lemma substring_swap (s : string) (a b : nat) :
  Js.substring s a b = Js.substring s b a.
Proof.
  unfold Js.substring. cbv zeta.
  set (a' := Nat.min a (String.length s)).
  set (b' := Nat.min b (String.length s)).
  now rewrite (Nat.min_comm a' b'), (Nat.max_comm a' b').
Qed.

(** X27.  Braces in the wrong order: when the only closing brace of the
    response comes before its only opening brace, [substring] swaps the
    two bounds and the cleaning keeps the text between the two braces,
    without either of them. *)
Theorem cleanJsonText_reversed_braces (pre mid post : string) :
  Js.indexOf "`" (pre ++ "}" ++ mid ++ "{" ++ post) = None ->
  Js.indexOf "{" pre = None -> Js.indexOf "{" mid = None ->
  Js.indexOf "}" mid = None -> Js.indexOf "}" post = None ->
  cleanJsonText (pre ++ "}" ++ mid ++ "{" ++ post) = mid.
Proof.
  intros Hb Hp Hm1 Hm2 Hq. unfold cleanJsonText. cbv zeta.
  rewrite replace_json_fence_plain, replace_closing_fence_plain by assumption.
  assert (Hf : Js.indexOf "{" (pre ++ "}" ++ mid ++ "{" ++ post)
               = Some (String.length pre + 1 + String.length mid)).
  { replace (pre ++ "}" ++ mid ++ "{" ++ post)
      with ((pre ++ "}" ++ mid) ++ String "{" post)
      by (now rewrite !string_append_assoc).
    rewrite indexOf_append_fresh.
    - rewrite !string_length_append. simpl. f_equal. lia.
    - apply indexOf_append_none; [assumption|].
      apply indexOf_append_none; [reflexivity | assumption]. }
  assert (Hl : Js.lastIndexOf "}" (pre ++ "}" ++ mid ++ "{" ++ post)
               = Some (String.length pre)).
  { change (pre ++ "}" ++ mid ++ "{" ++ post)
      with (pre ++ String "}" (mid ++ "{" ++ post)).
    apply lastIndexOf_append_fresh. apply indexOf_none_lastIndexOf.
    apply indexOf_append_none; [assumption|].
    apply indexOf_append_none; [reflexivity | assumption]. }
  rewrite Hf, Hl. rewrite substring_swap.
  replace (pre ++ "}" ++ mid ++ "{" ++ post)
    with ((pre ++ "}") ++ mid ++ ("{" ++ post))
    by (now rewrite !string_append_assoc).
  replace (String.length pre + 1) with (String.length (pre ++ "}"))
    by (rewrite string_length_append; reflexivity).
  apply substring_span.
Qed.

Lemma cleanJsonText_reversed_braces_witness :
  cleanJsonText "done } and { open" = " and ".
Proof.
  exact (cleanJsonText_reversed_braces "done " " and " " open"
           eq_refl eq_refl eq_refl eq_refl eq_refl).
Defined.

Variable EvaluationReport : Type.
Variable JSON_parse : string -> option EvaluationReport.
Variable ToBoolean : EvaluationReport -> bool.

(** X28.  When the analysis page keeps spinning: when the call of the
    model settles with the analysis page still up, the second part of
    [generateReport] leaves the report page, which shows the parsed value
    or, for a falsy one, nothing, or the error panel with a non-empty
    message, except in one case: the call was rejected with an [Error]
    whose message is empty, which is stored as the error and read as no
    error, so the spinner stays. *)
Theorem spinner_stays_on_empty_message (call : generateContent)
  (s : State EvaluationReport) :
  appState s = ANALYZING ->
  let s' := settled JSON_parse part_009 call s in
  generateReport_settle JSON_parse part_009 call s = Normal s' /\
  (render ToBoolean s' = GeneratingSpinner <->
   call = Rejects (ErrorObject EmptyString)) /\
  (render ToBoolean s' <> GeneratingSpinner ->
   (exists r, report s' = Some r /\
              render ToBoolean s' = if ToBoolean r then ReportView r else Blank) \/
   (exists message, render ToBoolean s' = ReportGenerationFailed message /\
                    Js.truthy message = true)).
Proof.
  intros Ha. cbv zeta. unfold settled, generateReport_settle.
  assert (Hfail : forall message : string,
    Js.truthy message = true ->
    let s' := setGenerationError (Some message) s in
    (render ToBoolean s' = GeneratingSpinner <-> False) /\
    (render ToBoolean s' <> GeneratingSpinner ->
     (exists r, report s' = Some r /\
                render ToBoolean s' = if ToBoolean r then ReportView r else Blank) \/
     (exists message, render ToBoolean s' = ReportGenerationFailed message /\
                      Js.truthy message = true))).
  { intros message Hm. cbv zeta. unfold render.
    cbn [appState setGenerationError generationError]. rewrite Ha, Hm.
    split; [split; [discriminate | contradiction]|].
    intros _. right. now exists message. }
  assert (Hno : forall (c : generateContent) (P Q : Prop),
    c <> Rejects (ErrorObject EmptyString) ->
    (P <-> False) /\ Q -> (P <-> c = Rejects (ErrorObject EmptyString)) /\ Q).
  { intros c P Q Hc [[H1 _] H2]. split; [|exact H2].
    split; [intros H; now apply H1 in H | intros H; now apply Hc in H]. }
  destruct call as [[t|]|[m|]]; cbn [bind try_catch messageOf].
  - destruct (Js.truthy t); cbn [negb try_catch messageOf].
    + destruct (JSON_parse (cleanJsonText t)) as [r|];
        cbn [try_catch messageOf].
      * split; [reflexivity|]. unfold render.
        cbn [appState setAppState setReport report]. split.
        -- split; [destruct (ToBoolean r); discriminate | discriminate].
        -- intros _. left. now exists r.
      * split; [reflexivity|]. apply Hno; [discriminate|].
        now apply Hfail.
    + split; [reflexivity|]. apply Hno; [discriminate|]. now apply Hfail.
  - split; [reflexivity|]. apply Hno; [discriminate|]. now apply Hfail.
  - split; [reflexivity|]. destruct m as [|c m].
    + unfold render. cbn [appState setGenerationError generationError].
      rewrite Ha. cbn [Js.truthy]. split; [now split|].
      intros H. now elim H.
    + apply Hno; [discriminate|]. now apply Hfail.
  - split; [reflexivity|]. apply Hno; [discriminate|]. now apply Hfail.
Qed.

End ReportFacts.

Section ReportWitnesses.

Import Exn Report.

Lemma spinner_stays_on_empty_message_witness :
  render ToBoolean_sample
    (settled JSON_parse_sample part_009 (Rejects (ErrorObject EmptyString))
       analyzing)
  = GeneratingSpinner.
Proof.
  destruct (spinner_stays_on_empty_message JsonValue JSON_parse_sample
              ToBoolean_sample (Rejects (ErrorObject EmptyString))
              analyzing eq_refl) as (_ & Hspin & _).
  now apply Hspin.
Defined.

End ReportWitnesses.
